(** * dandi-cli: the [ls] metadata collector and the validation dispatcher

    A shallow embedding of [dandi/cli/cmd_ls.py] and [dandi/validate.py].

    Python values are an inductive type, a str is the bytes of its UTF-8
    encoding, dicts are insertion-ordered association lists (order is
    observable through [flatten_v]), sets are stdpp [gset]s, exceptions
    are values of a small error monad, and the external collaborators
    (filesystem, metadata extraction, digests, schema models, the
    decorator of [ls]) are fields of oracle records. *)

From Stdlib Require Import ZArith String Ascii List Bool Lia DecimalString.
From stdpp Require Import base decidable option list strings gmap sorting.

Set Warnings "-register-all,-clear-no-such-hyp".
Local Open Scope string_scope.
Local Open Scope list_scope.

(** ** Python values *)

(** The values that reach the embedded code: YAML/JSON-like metadata.
    Floats are left out.  Dict keys are strings, as in metadata loaded from
    YAML or JSON; a dict keeps its insertion order. *)
Inductive pyval : Type :=
| VNone
| VBool (b : bool)
| VInt (z : Z)
| VStr (s : string)
| VList (l : list pyval)
| VTuple (l : list pyval)
| VDict (d : list (string * pyval)).

Abbreviation pydict := (list (string * pyval)).

(** [bool(v)]: Python truthiness. *)
Definition py_truthy (v : pyval) : bool :=
  match v with
  | VNone => false
  | VBool b => b
  | VInt z => negb (Z.eqb z 0)
  | VStr s => negb (String.eqb s "")
  | VList l | VTuple l => match l with [] => false | _ => true end
  | VDict d => match d with [] => false | _ => true end
  end.

(** [type(v).__name__] *)
Definition py_type_name (v : pyval) : string :=
  match v with
  | VNone => "NoneType"
  | VBool _ => "bool"
  | VInt _ => "int"
  | VStr _ => "str"
  | VList _ => "list"
  | VTuple _ => "tuple"
  | VDict _ => "dict"
  end.

Module PyStr.

Definition hex_digit (n : N) : ascii :=
  match n with
  | 0 => "0" | 1 => "1" | 2 => "2" | 3 => "3" | 4 => "4" | 5 => "5"
  | 6 => "6" | 7 => "7" | 8 => "8" | 9 => "9" | 10 => "a" | 11 => "b"
  | 12 => "c" | 13 => "d" | 14 => "e" | _ => "f"
  end%N%char.

Fixpoint contains (c : ascii) (s : string) : bool :=
  match s with
  | EmptyString => false
  | String c' s' => if Ascii.eqb c c' then true else contains c s'
  end.

(** The quote [repr] picks for a str: double quotes only when the text
    has a single quote and no double quote. *)
Definition quote_of (s : string) : ascii :=
  if contains "'"%char s && negb (contains "034"%char s)
  then "034"%char else "'"%char.

(** UTF-8: a continuation byte, and the code point that a well-formed
    sequence of two, three or four bytes spells (no overlong form, no
    surrogate, nothing beyond U+10FFFF). *)
Definition continuation (n : N) : bool := N.leb 128 n && N.leb n 191.

Definition utf8_2 (a b : N) : option N :=
  if N.leb 194 a && N.leb a 223 && continuation b
  then Some ((a - 192) * 64 + (b - 128))%N else None.

Definition utf8_3 (a b c : N) : option N :=
  let n := ((a - 224) * 4096 + (b - 128) * 64 + (c - 128))%N in
  if N.leb 224 a && N.leb a 239 && continuation b && continuation c
     && N.leb 2048 n && negb (N.leb 55296 n && N.leb n 57343)
  then Some n else None.

Definition utf8_4 (a b c d : N) : option N :=
  let n := ((a - 240) * 262144 + (b - 128) * 4096 + (c - 128) * 64
            + (d - 128))%N in
  if N.leb 240 a && N.leb a 244 && continuation b && continuation c
     && continuation d && N.leb 65536 n && N.leb n 1114111
  then Some n else None.

(** A str is held as the bytes of its UTF-8 encoding.  [chars] reads the
    characters back, each with its code point and the bytes that spell
    it.  A byte that begins no well-formed sequence is read as the
    character whose code point is the value of the byte. *)
Fixpoint chars (s : string) : list (N * string) :=
  match s with
  | EmptyString => []
  | String a r =>
      let na := N_of_ascii a in
      let alone := (na, String a EmptyString) :: chars r in
      match r with
      | EmptyString => alone
      | String b r2 =>
          let nb := N_of_ascii b in
          match utf8_2 na nb with
          | Some n => (n, String a (String b EmptyString)) :: chars r2
          | None =>
              match r2 with
              | EmptyString => alone
              | String c r3 =>
                  let nc := N_of_ascii c in
                  match utf8_3 na nb nc with
                  | Some n =>
                      (n, String a (String b (String c EmptyString)))
                      :: chars r3
                  | None =>
                      match r3 with
                      | EmptyString => alone
                      | String d r4 =>
                          match utf8_4 na nb nc (N_of_ascii d) with
                          | Some n =>
                              (n, String a (String b (String c
                                            (String d EmptyString))))
                              :: chars r4
                          | None => alone
                          end
                      end
                  end
              end
          end
      end
  end.

Definition code_points (s : string) : list N := map fst (chars s).

(** [c.isspace()], which is also what [str.strip] removes: the ASCII
    white space with the separators FS to US, NEL, the no-break space and
    the Unicode spaces and line separators. *)
Definition is_space (n : N) : bool :=
  (N.leb 9 n && N.leb n 13) || (N.leb 28 n && N.leb n 32)
  || N.eqb n 133 || N.eqb n 160 || N.eqb n 5760
  || (N.leb 8192 n && N.leb n 8202)
  || N.eqb n 8232 || N.eqb n 8233 || N.eqb n 8239 || N.eqb n 8287
  || N.eqb n 12288.

(** [not s.strip()]: stripping leaves nothing exactly when every
    character is white space. *)
Definition strip_is_empty (s : string) : bool :=
  forallb is_space (code_points s).

(** The characters from U+0080 on that [repr] escapes: the C1 controls,
    the soft hyphen and the white space.  That is all of them below
    U+0378; the other characters from there on are taken to be
    printable. *)
Definition nonprintable (n : N) : bool :=
  (N.leb 128 n && N.leb n 160) || N.eqb n 173 || (N.leb 128 n && is_space n).

(** [n] in hexadecimal, on [width] digits. *)
Fixpoint hex (width : nat) (n : N) : string :=
  match width with
  | O => EmptyString
  | S w => hex w (N.div n 16) +:+ String (hex_digit (N.modulo n 16)) EmptyString
  end.

(** One character of [repr(str)]. *)
Definition escape_char (q : ascii) (ch : N * string) : string :=
  let n := fst ch in
  if N.eqb n 92 then "\\"
  else if N.eqb n (N_of_ascii q) then String "\"%char (String q EmptyString)
  else if N.eqb n 9 then "\t"
  else if N.eqb n 10 then "\n"
  else if N.eqb n 13 then "\r"
  else if N.ltb n 32 || N.eqb n 127 then "\x" +:+ hex 2 n
  else if N.ltb n 128 then snd ch
  else if nonprintable n then
    if N.ltb n 256 then "\x" +:+ hex 2 n
    else if N.ltb n 65536 then "\u" +:+ hex 4 n
    else "\U" +:+ hex 8 n
  else snd ch.

Definition escape (q : ascii) (s : string) : string :=
  String.concat "" (map (escape_char q) (chars s)).

(** [repr(s)] for a str. *)
Definition repr_str (s : string) : string :=
  let q := quote_of s in
  String q (escape q s) +:+ String q EmptyString.

(** [str(z)] for an int. *)
Definition str_int (z : Z) : string := NilZero.string_of_int (Z.to_int z).

(** Whether every character is an ASCII one. *)
Fixpoint is_ascii (s : string) : bool :=
  match s with
  | EmptyString => true
  | String c r => N.ltb (N_of_ascii c) 128 && is_ascii r
  end.

End PyStr.

(** [repr(v)] *)
Fixpoint py_repr (v : pyval) : string :=
  match v with
  | VNone => "None"
  | VBool true => "True"
  | VBool false => "False"
  | VInt z => PyStr.str_int z
  | VStr s => PyStr.repr_str s
  | VList l => "[" +:+ String.concat ", " (map py_repr l) +:+ "]"
  | VTuple l =>
      match l with
      | [x] => "(" +:+ py_repr x +:+ ",)"
      | _ => "(" +:+ String.concat ", " (map py_repr l) +:+ ")"
      end
  | VDict d =>
      "{" +:+ String.concat ", "
               (map (fun i => match i with
                              | (k, x) => PyStr.repr_str k +:+ ": " +:+ py_repr x
                              end) d) +:+ "}"
  end.

(** [str(v)]: a str is itself, everything else prints as its [repr]. *)
Definition py_str (v : pyval) : string :=
  match v with
  | VStr s => s
  | _ => py_repr v
  end.

(** ** Dicts as insertion-ordered association lists *)

Section Dict.
Context {K V : Type} `{EqDecision K}.

(** [d.get(k)] *)
Fixpoint dict_get (k : K) (d : list (K * V)) : option V :=
  match d with
  | [] => None
  | (k', v) :: t => if decide (k = k') then Some v else dict_get k t
  end.

(** [d[k] = v]: an existing key keeps its place, a new one goes last. *)
Fixpoint dict_set (d : list (K * V)) (k : K) (v : V) : list (K * V) :=
  match d with
  | [] => [(k, v)]
  | (k', v') :: t =>
      if decide (k = k') then (k, v) :: t else (k', v') :: dict_set t k v
  end.

(** [k in d] *)
Definition dict_has (k : K) (d : list (K * V)) : bool :=
  match dict_get k d with Some _ => true | None => false end.

Definition dict_keys (d : list (K * V)) : list K := map fst d.

(** A well-formed dict binds each key once. *)
Definition dict_wf (d : list (K * V)) : Prop := NoDup (dict_keys d).

End Dict.

(** ** Exceptions *)

(** An instance of [Exception]: its class name and its [str]. *)
Record exc : Type := Exc { exc_type : string; exc_msg : string }.

Inductive result (A : Type) : Type :=
| Ret (a : A)
| Raise (e : exc).
Arguments Ret {A} a.
Arguments Raise {A} e.

#[global] Instance result_ret : MRet result := fun A a => Ret a.
#[global] Instance result_fmap : FMap result := fun A B f m =>
  match m with
  | Ret a => Ret (f a)
  | Raise e => Raise e
  end.
#[global] Instance result_bind : MBind result := fun A B k m =>
  match m with
  | Ret a => k a
  | Raise e => Raise e
  end.

Definition raises {A} (m : result A) : Prop := exists e, m = Raise e.
Definition returns {A} (m : result A) : Prop := exists a, m = Ret a.

(** [v.items()]: only a dict has it. *)
Definition py_items (v : pyval) : result pydict :=
  match v with
  | VDict d => Ret d
  | _ => Raise (Exc "AttributeError"
                  ("'" +:+ py_type_name v +:+ "' object has no attribute 'items'"))
  end.

(** [v.get(k, None)] on a metadata value. *)
Definition py_get (v : pyval) (k : string) : result pyval :=
  match v with
  | VDict d => Ret (default VNone (dict_get k d))
  | _ => Raise (Exc "AttributeError"
                  ("'" +:+ py_type_name v +:+ "' object has no attribute 'get'"))
  end.

(** ** cmd_ls.py: flattening *)

(** ["%s: %s" % i] for an item [i] of a dict. *)
Definition item_str (i : string * pyval) : pyval :=
  VStr (fst i +:+ ": " +:+ py_str (snd i)).

(** [", ".join(map(str, map(f, l)))] *)
Definition join_flat (f : pyval -> pyval) (l : list pyval) : pyval :=
  VStr (String.concat ", " (map (fun x => py_str (f x)) l)).

(** [flatten_v].  The dict branch of the source calls [flatten_v] on the
    fresh list of item strings; that call is unfolded here, its elements
    being strings, which [flatten_v] returns as they are.  The equation of
    the source is [flatten_v_dict_eq] below. *)
Fixpoint flatten_v (v : pyval) : pyval :=
  match v with
  | VList l | VTuple l => join_flat flatten_v l
  | VDict d => join_flat (fun x => x) (map item_str d)
  | _ => v
  end.

(** The loop of [flatten_meta_to_pyout] over the items of [meta]. *)
Fixpoint flatten_items (items : pydict) (out : pydict) : pydict :=
  match items with
  | [] => out
  | (f, v) :: rest =>
      if negb (py_truthy v) then flatten_items rest out
      else flatten_items rest (dict_set out f (flatten_v v))
  end.

(** [(meta or dict()).items()] *)
Definition items_or_empty (meta : pyval) : result pydict :=
  if py_truthy meta then py_items meta else Ret [].

(** [flatten_meta_to_pyout] *)
Definition flatten_meta_to_pyout (meta : pyval) : result pydict :=
  items ← items_or_empty meta;
  Ret (flatten_items items []).

(** [flatten_meta_to_pyout_v1], the older flattener kept in the module:
    a nested dict has its flattened inner keys promoted to
    ["<outer>_<inner>"].  [inner_v1] stands for the recursive call on a
    nested dict. *)
Fixpoint flatten_v1_items (inner_v1 : pyval -> pydict)
    (items : pydict) (out : pydict) : pydict :=
  match items with
  | [] => out
  | (f, v) :: rest =>
      if negb (py_truthy v) then flatten_v1_items inner_v1 rest out
      else
        match v with
        | VDict _ =>
            flatten_v1_items inner_v1 rest
              (fold_left
                 (fun o i => dict_set o (f +:+ "_" +:+ fst i) (flatten_v (snd i)))
                 (inner_v1 v) out)
        | _ => flatten_v1_items inner_v1 rest (dict_set out f (flatten_v v))
        end
  end.

(** [flatten_meta_to_pyout_v1] on a dict (anything falsy gives the empty
    record). *)
Fixpoint flatten_v1_dict (meta : pyval) : pydict :=
  match meta with
  | VDict items => flatten_v1_items flatten_v1_dict items []
  | _ => []
  end.

Definition flatten_meta_to_pyout_v1 (meta : pyval) : result pydict :=
  items ← items_or_empty meta;
  Ret (flatten_v1_items flatten_v1_dict items []).

(** ** validate.py *)

Module Path.

(** [os.path.basename]: what follows the last slash. *)
Fixpoint basename (p : string) : string :=
  match p with
  | EmptyString => EmptyString
  | String _ r => if PyStr.contains "/"%char p then basename r else p
  end.

(** The split of a file name at its last dot, if it has one. *)
Fixpoint split_last_dot (b : string) : option (string * string) :=
  match b with
  | EmptyString => None
  | String c r =>
      match split_last_dot r with
      | Some (pre, ext) => Some (String c pre, ext)
      | None => if Ascii.eqb c "."%char then Some (EmptyString, b) else None
      end
  end.

Fixpoint all_dots (s : string) : bool :=
  match s with
  | EmptyString => true
  | String c r => Ascii.eqb c "."%char && all_dots r
  end.

(** [os.path.splitext(p)[-1]]: from the last dot of the last component,
    unless only dots come before it there. *)
Definition splitext_ext (p : string) : string :=
  match split_last_dot (basename p) with
  | Some (pre, ext) => if all_dots pre then EmptyString else ext
  | None => EmptyString
  end.

End Path.

(** [x in l] for strings. *)
Definition str_in (x : string) (l : list string) : bool :=
  existsb (String.eqb x) l.

(** A computation that may call [lgr.warning] before it returns or raises:
    the warnings, then the outcome. *)
Definition logged (A : Type) : Type := (list string * result A)%type.

Definition quiet {A} (r : result A) : logged A := ([], r).
Definition outcome {A} (m : logged A) : result A := snd m.
Definition warnings {A} (m : logged A) : list string := fst m.

(** What [validate.py] imports: constants of [consts], the YAML loader, the
    schema models, the metadata extractors, the NWB validator, OpenCV and
    the file finders. *)
Record ValidateEnv : Type := {
  dandiset_metadata_file : string;
  VIDEO_FILE_EXTENSIONS : list string;
  (** [dandischema.models.get_schema_version()] *)
  get_schema_version : string;
  (** [open(filepath)] and [yaml_load(f, typ="safe")] *)
  load_yaml : string -> result pyval;
  (** the model [DandisetMeta] built from the entries of [meta] *)
  DandisetMeta : pyval -> result unit;
  (** [get_asset_metadata(filepath, ...)], then the model [BareAsset]
      built from its entries *)
  BareAsset_of : string -> result unit;
  (** [get_metadata(filepath)] *)
  get_metadata : string -> result pyval;
  (** [pynwb_utils.validate(filepath, devel_debug=...)] *)
  pynwb_validate : string -> bool -> result (list string);
  (** whether [import cv2] succeeds *)
  cv2_installed : bool;
  (** [cv2.VideoCapture(str(filepath))] and [cap.isOpened()] *)
  video_is_opened : string -> result bool;
  (** [cap.read()], its success flag *)
  video_read : string -> result bool;
  (** [find_files(".*", paths)] and [find_dandi_files(paths)] *)
  find_files_any : list string -> list string;
  find_dandi_files : list string -> list string
}.

Definition _required_dandiset_metadata_fields : list string :=
  ["identifier"; "name"; "description"].
Definition _required_nwb_metadata_fields : list string := ["subject_id"].

(** [isinstance(e, ValidationError)] *)
Definition is_ValidationError (e : exc) : bool :=
  String.eqb (exc_type e) "ValidationError".

(** [v == s] for a str [s]. *)
Definition py_eq_str (v : pyval) (s : string) : bool :=
  match v with
  | VStr s' => String.eqb s' s
  | _ => false
  end.

(** [isinstance(v, str) and not v.strip()] *)
Definition is_blank_str (v : pyval) : bool :=
  match v with
  | VStr s => PyStr.strip_is_empty s
  | _ => false
  end.

Definition msg_no_value (f : string) : string :=
  "Required field " +:+ PyStr.repr_str f +:+ " has no value".
Definition msg_has_value (f : string) (v : pyval) : string :=
  "Required field " +:+ PyStr.repr_str f +:+ " has value " +:+ py_repr v.

(** The loop of [_check_required_fields]: two independent [if]s per
    field, each appending to [errors]. *)
Fixpoint check_required_loop (d : pyval) (required : list string)
    (errors : list string) : result (list string) :=
  match required with
  | [] => Ret errors
  | f :: rest =>
      v ← py_get d f;
      let errors1 :=
        if negb (py_truthy v) || is_blank_str v
        then errors ++ [msg_no_value f] else errors in
      let errors2 :=
        if py_eq_str v "REQUIRED" || py_eq_str v "PLACEHOLDER"
        then errors1 ++ [msg_has_value f v] else errors1 in
      check_required_loop d rest errors2
  end.

Definition _check_required_fields (d : pyval) (required : list string)
  : result (list string) :=
  check_required_loop d required [].

Section Validate.
Variable E : ValidateEnv.

Definition unsupported_version (schema_version : pyval) : exc :=
  Exc "ValueError"
    ("Unsupported schema version: " +:+ py_str schema_version
     +:+ "; expected " +:+ get_schema_version E).

(** The [except ValidationError] / [except Exception] pair shared by the
    two model checks: strict mode re-raises, lenient mode warns and
    returns one problem string. *)
Definition on_model_error (filepath : string) (devel_debug : bool)
    (other_prefix : string) (e : exc) : logged (list string) :=
  if is_ValidationError e then
    if devel_debug then quiet (Raise e)
    else (["Validation error for " +:+ filepath +:+ ": " +:+ exc_msg e],
          Ret [exc_msg e])
  else
    if devel_debug then quiet (Raise e)
    else (["Unexpected validation error for " +:+ filepath +:+ ": "
           +:+ exc_msg e],
          Ret [other_prefix +:+ exc_msg e]).

(** The body of [validate_dandiset_yaml]. *)
Definition validate_dandiset_yaml (filepath : string)
    (schema_version : option string) (devel_debug : bool)
  : logged (list string) :=
  match load_yaml E filepath with
  | Raise e => quiet (Raise e)
  | Ret meta =>
      let version :=
        match schema_version with
        | Some s => Ret (VStr s)
        | None => py_get meta "schemaVersion"
        end in
      match version with
      | Raise e => quiet (Raise e)
      | Ret VNone =>
          quiet (_check_required_fields meta
                   _required_dandiset_metadata_fields)
      | Ret sv =>
          if negb (py_eq_str sv (get_schema_version E))
          then quiet (Raise (unsupported_version sv))
          else
            match DandisetMeta E meta with
            | Ret _ => quiet (Ret [])
            | Raise e =>
                on_model_error filepath devel_debug
                  "Failed to initialize Dandiset meta: " e
            end
      end
  end.

(** The body of [validate_asset_file]. *)
Definition validate_asset_file (filepath : string)
    (schema_version : option string) (devel_debug : bool)
  : logged (list string) :=
  match schema_version with
  | Some s =>
      if negb (String.eqb s (get_schema_version E))
      then quiet (Raise (unsupported_version (VStr s)))
      else
        match BareAsset_of E filepath with
        | Ret _ => quiet (Ret [])
        | Raise e =>
            on_model_error filepath devel_debug
              "Failed to read metadata: " e
        end
  | None =>
      match get_metadata E filepath with
      | Raise e =>
          if devel_debug then quiet (Raise e)
          else (["Failed to read metadata in " +:+ filepath +:+ ": "
                 +:+ exc_msg e],
                Ret ["Failed to read metadata: " +:+ exc_msg e])
      | Ret meta =>
          quiet (_check_required_fields meta _required_nwb_metadata_fields)
      end
  end.

(** [validate_movie_file] *)
Definition validate_movie_file (filepath : string) (devel_debug : bool)
  : logged (list string) :=
  if negb (cv2_installed E) then
    quiet (Raise (Exc "Exception"
      "do 'pip install opencv-python' to validate assisting video files"))
  else
    let bad_ext :=
      negb (str_in (Path.splitext_ext filepath) (VIDEO_FILE_EXTENSIONS E)) in
    let ext_msg :=
      "file ext must be one of supported types: " +:+ filepath in
    if bad_ext && devel_debug then quiet (Raise (Exc "Exception" ext_msg))
    else
      let w0 := if bad_ext then [ext_msg] else [] in
      let open_msg :=
        "could not open video file " +:+ filepath +:+ " to validate" in
      (* the [try] block: an exception raised in it, the strict-mode
         [raise Exception(msg)] included, lands in [except Exception] *)
      let tried : logged (option (list string)) :=
        match video_is_opened E filepath with
        | Raise e => quiet (Raise e)
        | Ret true => quiet (Ret None)
        | Ret false =>
            if devel_debug then quiet (Raise (Exc "Exception" open_msg))
            else ([open_msg], Ret (Some [open_msg]))
        end in
      match tried with
      | (w, Raise e) =>
          if devel_debug then (w0 ++ w, Raise e)
          else (w0 ++ w ++
                ["validation error " +:+ exc_msg e +:+ " for " +:+ filepath],
                Ret [exc_msg e])
      | (w, Ret (Some problems)) => (w0 ++ w, Ret problems)
      | (w, Ret None) =>
          match video_read E filepath with
          | Raise e => (w0 ++ w, Raise e)
          | Ret true => (w0 ++ w, Ret [])
          | Ret false =>
              (w0 ++ w, Ret ["no frames in video file " +:+ filepath])
          end
      end.

(** [validate_file]: the role is decided by the file name; the
    descriptor branch passes [schema_version=None] whatever was
    requested.  The two decorated validators are called here through
    their bodies, as on a cold cache; the decorator is [memoize_path]
    below. *)
Definition validate_file (filepath : string)
    (schema_version : option string) (devel_debug : bool)
  : logged (list string) :=
  if String.eqb (Path.basename filepath) (dandiset_metadata_file E) then
    validate_dandiset_yaml filepath None devel_debug
  else if str_in (Path.splitext_ext filepath) (VIDEO_FILE_EXTENSIONS E) then
    validate_movie_file filepath devel_debug
  else
    match pynwb_validate E filepath devel_debug with
    | Raise e => quiet (Raise e)
    | Ret nwb_problems =>
        match validate_asset_file filepath schema_version devel_debug with
        | (w, Ret problems) => (w, Ret (nwb_problems ++ problems))
        | (w, Raise e) => (w, Raise e)
        end
    end.

(** [validate] is a generator.  Its state is the files not yet
    visited; [validate_next] is one [next()] on it: the end of the
    iteration, a yielded pair, or the exception that escapes (after
    which the generator is finished). *)
Inductive gen_step : Type :=
| StopIteration
| Yield (path : string) (errors : list string) (rest : list string)
| Escapes (e : exc).

Definition filepaths (paths : list string) (allow_any_path : bool)
  : list string :=
  if allow_any_path then find_files_any E paths else find_dandi_files E paths.

Definition validate_next (pending : list string)
    (schema_version : option string) (devel_debug : bool) : gen_step :=
  match pending with
  | [] => StopIteration
  | path :: rest =>
      match outcome (validate_file path schema_version devel_debug) with
      | Ret errors => Yield path errors rest
      | Raise e => Escapes e
      end
  end.

(** Draining the generator: the pairs yielded, and the exception that
    ended the iteration early, if any. *)
Fixpoint validate_drain (pending : list string)
    (schema_version : option string) (devel_debug : bool)
  : list (string * list string) * option exc :=
  match pending with
  | [] => ([], None)
  | path :: rest =>
      match outcome (validate_file path schema_version devel_debug) with
      | Ret errors =>
          let '(ys, end_) := validate_drain rest schema_version devel_debug in
          ((path, errors) :: ys, end_)
      | Raise e => ([], Some e)
      end
  end.

Definition validate (paths : list string) (schema_version : option string)
    (devel_debug allow_any_path : bool)
  : list (string * list string) * option exc :=
  validate_drain (filepaths paths allow_any_path) schema_version devel_debug.

End Validate.

(** ** cmd_ls.py: the collector *)

(** What the enumerator yields: a local path, or a ready record of a
    remote asset or dandiset. *)
Inductive asset : Type :=
| APath (p : string)
| ARecord (r : pydict).

Inductive format : Type := Pyout | Json | JsonPP | JsonLines | Yaml.

#[global] Instance format_eq_dec : EqDecision format.
Proof. solve_decision. Defined.

(** [Digest.dandi_etag(value)] and [Digest.dandi_zarr(value)] *)
Record Digest : Type := { algorithm : string; value : string }.
Definition dandi_etag (v : string) : Digest :=
  {| algorithm := "dandi-etag"; value := v |}.
Definition dandi_zarr (v : string) : Digest :=
  {| algorithm := "dandi-zarr-checksum"; value := v |}.

(** The collaborators of [ls] and [get_metadata_ls]. *)
Record LsEnv : Type := {
  (** [consts.metadata_all_fields] *)
  metadata_all_fields : list string;
  (** the field names of [models.Dandiset] and [models.Asset] *)
  schema_model_fields : list string;
  ZARR_EXTENSIONS : list string;
  (** [op.isdir] *)
  isdir : string -> bool;
  (** [os.stat(asset).st_size] *)
  stat_size : string -> result Z;
  (** [get_digest(path, digest=algo)] *)
  get_digest : string -> string -> result string;
  (** [metadata.get_metadata(path, digest)] *)
  ls_get_metadata : string -> Digest -> result pyval;
  (** [nwb2asset(path, schema_version=schema, digest=digest).json_dict()] *)
  nwb2asset_json : string -> string -> Digest -> result pyval;
  (** [Dandiset(path, schema_version=schema).metadata] *)
  dandiset_metadata : string -> string -> result pyval;
  (** [get_nwb_version(path)] *)
  get_nwb_version : string -> result pyval;
  (** [cli.base.map_to_click_exceptions], the decorator of [ls], which is
      not among the sources: the exception that leaves the decorated
      function when [e] leaves its body *)
  map_to_click_exceptions : exc -> exc
}.

(** A decorator that raises, for whatever exception leaves the body, a
    [click.ClickException] with the text of that exception. *)
Definition click_exception (e : exc) : exc :=
  Exc "ClickException" (exc_msg e).

(** The calls made to the expensive collaborators, in order: what a
    call-count assertion on them observes. *)
Inductive call : Type :=
| CallGetDigest (path algo : string)
| CallGetMetadata (path : string)
| CallNwb2asset (path : string)
| CallDandiset (path : string)
| CallGetNwbVersion (path : string).

(** [errors = defaultdict(list)]: failure kind to the assets that hit it. *)
Abbreviation ledger := (list (string * list asset)).

(** [errors[kind].append(a)] *)
Definition ledger_append (errors : ledger) (kind : string) (a : asset)
  : ledger :=
  dict_set errors kind (default [] (dict_get kind errors) ++ [a]).

(** [x + 1]: defined on int and bool; for the other values the
    [TypeError] of Python. *)
Definition py_add1 (x : pyval) : result pyval :=
  match x with
  | VInt z => Ret (VInt (z + 1))
  | VBool b => Ret (VInt ((if b then 1 else 0) + 1))
  | VStr _ | VList _ | VTuple _ =>
      Raise (Exc "TypeError"
               ("can only concatenate " +:+ py_type_name x +:+ " (not "
                +:+ String "034"%char "int" +:+ String "034"%char ") to "
                +:+ py_type_name x))
  | VNone | VDict _ =>
      Raise (Exc "TypeError"
               ("unsupported operand type(s) for +: '" +:+ py_type_name x
                +:+ "' and 'int'"))
  end.

(** [_add_exc_error]: first the ledger, then the counter of the record. *)
Definition _add_exc_error (a : asset) (rec : pydict) (errors : ledger)
    (e : exc) : result pydict * ledger :=
  let errors' := ledger_append errors (exc_type e) a in
  (n ← py_add1 (default (VInt 0) (dict_get "errors" rec));
   Ret (dict_set rec "errors" n),
   errors').

(** The closure [fn] that [get_metadata_ls] returns, as the values it
    captures; the ledger it also captures is shared with [ls] and is
    threaded through [run_callback].  [keys] is the tuple [ls] passes. *)
Record callback : Type := {
  cb_path : string;
  cb_keys : list string;
  cb_flatten : bool;
  cb_schema : option string;
  cb_use_fake_digest : bool
}.

Definition get_metadata_ls (path : string) (keys : list string)
    (flatten : bool) (schema : option string) (use_fake_digest : bool)
  : callback :=
  {| cb_path := path; cb_keys := keys; cb_flatten := flatten;
     cb_schema := schema; cb_use_fake_digest := use_fake_digest |}.

(** [path.endswith(suffix)] *)
Fixpoint str_endswith (path suffix : string) : bool :=
  String.eqb path suffix ||
  match path with
  | EmptyString => false
  | String _ r => str_endswith r suffix
  end.

Definition zeros32 : string := "00000000000000000000000000000000".

(** [fields] as the loop of [ls] uses it: for the tabular sink [path] is
    put in front of a non-empty list that does not start with it. *)
Definition sink_fields (fmt : format) (fields : option (list string))
  : option (list string) :=
  if bool_decide (fmt = Pyout) then
    match fields with
    | Some (f0 :: fs) =>
        if negb (String.eqb f0 "path") then Some ("path" :: f0 :: fs)
        else fields
    | _ => fields
    end
  else fields.

Section Collector.
Variable E : LsEnv.

(** The digest: the dummy value, or [get_digest] (logged as a call). *)
Definition digest_for (path algo fake : string) (use_fake_digest : bool)
  : result string * list call :=
  if use_fake_digest then (Ret fake, [])
  else (get_digest E path algo, [CallGetDigest path algo]).

(** The [try] block of [fn]: the record fetched from the extraction
    collaborators, with the calls made. *)
Definition fetch_record (cb : callback) : result pyval * list call :=
  let path := cb_path cb in
  match cb_schema cb with
  | Some schema =>
      if isdir E path then
        (dandiset_metadata E path schema, [CallDandiset path])
      else
        match digest_for path "dandi-etag" (zeros32 +:+ "-1")
                (cb_use_fake_digest cb) with
        | (Raise e, cs) => (Raise e, cs)
        | (Ret d, cs) =>
            (nwb2asset_json E path schema (dandi_etag d),
             cs ++ [CallNwb2asset path])
        end
  | None =>
      if existsb (str_endswith path) (ZARR_EXTENSIONS E) then
        match digest_for path "zarr-checksum" (zeros32 +:+ "-0--0")
                (cb_use_fake_digest cb) with
        | (Raise e, cs) => (Raise e, cs)
        | (Ret d, cs) =>
            (ls_get_metadata E path (dandi_zarr d),
             cs ++ [CallGetMetadata path])
        end
      else
        match digest_for path "dandi-etag" (zeros32 +:+ "-1")
                (cb_use_fake_digest cb) with
        | (Raise e, cs) => (Raise e, cs)
        | (Ret d, cs) =>
            (ls_get_metadata E path (dandi_etag d),
             cs ++ [CallGetMetadata path])
        end
  end.

(** [{k: v for k, v in rec.items() if k in keys}] *)
Definition restrict_keys (keys : list string) (items : pydict) : pydict :=
  fold_left (fun o i => if str_in (fst i) keys
                        then dict_set o (fst i) (snd i) else o)
    items [].

(** First half of [fn]: the bulk extraction, skipped when only
    [nwb_version] is wanted; its failure is ledgered and counted on
    the local record.  Then the flattening, when asked. *)
Definition fn_extract (cb : callback) (errors : ledger)
  : result pyval * ledger * list call :=
  if bool_decide (cb_keys cb = ["nwb_version"]) then (Ret (VDict []), errors, [])
  else
    let '(fetched, cs) := fetch_record cb in
    let '(rec, errors1) :=
      match fetched with
      | Ret v => (Ret v, errors)
      | Raise e =>
          let '(r, errors') :=
            _add_exc_error (APath (cb_path cb)) [] errors e in
          (VDict <$> r, errors')
      end in
    let rec' :=
      if cb_flatten cb
      then v ← rec; VDict <$> flatten_meta_to_pyout v
      else rec in
    (rec', errors1, cs).

(** Second half of [fn]: the key filter, then the [nwb_version]
    fallback. *)
Definition fn_finish (cb : callback) (rec : pyval) (errors : ledger)
  : result pydict * ledger * list call :=
  let path := cb_path cb in
  let keys := cb_keys cb in
  match py_items rec with
  | Raise e => (Raise e, errors, [])
  | Ret items =>
      let rec := restrict_keys keys items in
      if negb (isdir E path)
         && negb (dict_has "nwb_version" rec)
         && negb (dict_has "bids_schema_version" rec)
         && (match keys with [] => false | _ => true end
             && str_in "nwb_version" keys)
      then
        match get_nwb_version E path with
        | Ret v =>
            (Ret (dict_set rec "nwb_version" v), errors,
             [CallGetNwbVersion path])
        | Raise e =>
            let '(r, errors') := _add_exc_error (APath path) rec errors e in
            (r, errors', [CallGetNwbVersion path])
        end
      else (Ret rec, errors, [])
  end.

(** [cb()]: the record it returns or the exception that escapes it,
    the ledger afterwards, the collaborator calls it made. *)
Definition run_callback (cb : callback) (errors : ledger)
  : result pydict * ledger * list call :=
  match fn_extract cb errors with
  | (Raise e, errors1, cs) => (Raise e, errors1, cs)
  | (Ret rec, errors1, cs) =>
      let '(r, errors2, cs') := fn_finish cb rec errors1 in
      (r, errors2, cs ++ cs')
  end.

Definition common_fields : list string := ["path"; "size"].

(** [all_fields], as a set: with a schema the model fields, without one
    [metadata_all_fields], the common fields in both cases. *)
Definition all_fields (schema : option string) : gset string :=
  match schema with
  | Some _ => list_to_set common_fields ∪ list_to_set (schema_model_fields E)
  | None => list_to_set (common_fields ++ metadata_all_fields E)
  end.

(** [async_keys]: the set of all fields, intersected with [fields] when
    given, minus the common fields; then made a tuple (in the order the
    set happens to iterate). *)
Definition async_keys (schema : option string)
    (fields : option (list string)) : list string :=
  let s := all_fields schema in
  let s := match fields with
           | Some fs => s ∩ list_to_set fs
           | None => s
           end in
  elements (s ∖ list_to_set common_fields).

(** A record handed to the sink: its string-keyed entries, and the entry
    under the one key that is not a string, the tuple [async_keys], bound
    to the callback (tabular sink only). *)
Record AssetRecord : Type := {
  rec_entries : pydict;
  rec_deferred : option (list string * callback)
}.

(** [not rec] *)
Definition rec_is_empty (r : AssetRecord) : bool :=
  match rec_entries r, rec_deferred r with
  | [], None => true
  | _, _ => false
  end.

(** The state of the loop: records passed to [out], the ledger, the
    collaborator calls so far. *)
Record LsState : Type := {
  emitted : list AssetRecord;
  errors : ledger;
  calls : list call
}.

(** [not fields or "size" in fields] *)
Definition wants_size (fields : option (list string)) : bool :=
  match fields with
  | None | Some [] => true
  | Some fs => str_in "size" fs
  end.

(** The start of the [try] block for a path asset: the record with
    [path], and with [size] when it is wanted and the path is no
    directory; [os.stat] may raise. *)
Definition sized_record (fields : option (list string)) (p : string)
  : result pydict :=
  let rec0 := [("path", VStr p)] in
  if wants_size fields && negb (isdir E p)
  then sz ← stat_size E p; Ret (dict_set rec0 "size" (VInt sz))
  else Ret rec0.

(** The [try] block for a path asset: the record as far as it got, the
    exception if one left the block, ledger and calls.  The callback
    always returns a dict, so the [if cb_res is None: raise] of the source
    is never taken and has no counterpart here. *)
Definition resolve_path (fmt : format) (fields : option (list string))
    (schema : option string) (use_fake_digest : bool) (keys : list string)
    (p : string) (errors : ledger)
  : AssetRecord * option exc * ledger * list call :=
  let rec0 := [("path", VStr p)] in
  match sized_record fields p with
  | Raise e => ({| rec_entries := rec0; rec_deferred := None |},
                Some e, errors, [])
  | Ret rec1 =>
      match keys with
      | [] => ({| rec_entries := rec1; rec_deferred := None |},
               None, errors, [])
      | _ =>
          let cb := get_metadata_ls p keys (bool_decide (fmt = Pyout))
                      schema use_fake_digest in
          if bool_decide (fmt = Pyout) then
            ({| rec_entries := rec1; rec_deferred := Some (keys, cb) |},
             None, errors, [])
          else
            match run_callback cb errors with
            | (Raise e, errors1, cs) =>
                ({| rec_entries := rec1; rec_deferred := None |},
                 Some e, errors1, cs)
            | (Ret cb_res, errors1, cs) =>
                ({| rec_entries :=
                      fold_left (fun o i => dict_set o (fst i) (snd i))
                        cb_res rec1;
                    rec_deferred := None |},
                 None, errors1, cs)
            end
      end
  end.

Definition conversion_not_implemented (found : pyval) (schema : string)
  : exc :=
  Exc "NotImplementedError"
    ("Record conversion between schema versions is not implemented.  "
     +:+ "Found schemaVersion=" +:+ py_str found +:+ " where " +:+ schema
     +:+ " was requested").

(** One turn of the loop of [ls]: the new state, or the exception that
    leaves the loop together with the state reached. *)
Definition ls_step (fmt : format) (fields : option (list string))
    (schema : option string) (use_fake_digest : bool) (keys : list string)
    (a : asset) (st : LsState) : LsState * option exc :=
  let resolved : result AssetRecord * ledger * list call :=
    match a with
    | APath p =>
        match resolve_path fmt fields schema use_fake_digest keys p
                (errors st) with
        | (rec, None, errors1, cs) => (Ret rec, errors1, cs)
        | (rec, Some e, errors1, cs) =>
            let '(r, errors2) :=
              _add_exc_error a (rec_entries rec) errors1 e in
            ((fun entries => {| rec_entries := entries;
                                rec_deferred := rec_deferred rec |}) <$> r,
             errors2, cs)
        end
    | ARecord r =>
        let found := default VNone (dict_get "schemaVersion" r) in
        match schema with
        | Some s =>
            if negb (py_eq_str found s)
            then (Raise (conversion_not_implemented found s), errors st, [])
            else (Ret {| rec_entries := r; rec_deferred := None |},
                  errors st, [])
        | None => (Ret {| rec_entries := r; rec_deferred := None |},
                   errors st, [])
        end
    end in
  match resolved with
  | (Raise e, errors1, cs) =>
      ({| emitted := emitted st; errors := errors1;
          calls := calls st ++ cs |}, Some e)
  | (Ret rec, errors1, cs) =>
      if rec_is_empty rec then
        ({| emitted := emitted st;
            errors := ledger_append errors1 "Empty record" a;
            calls := calls st ++ cs |}, None)
      else
        ({| emitted := emitted st ++ [rec]; errors := errors1;
            calls := calls st ++ cs |}, None)
  end.

Fixpoint ls_loop (fmt : format) (fields : option (list string))
    (schema : option string) (use_fake_digest : bool) (keys : list string)
    (assets : list asset) (st : LsState) : LsState * option exc :=
  match assets with
  | [] => (st, None)
  | a :: rest =>
      match ls_step fmt fields schema use_fake_digest keys a st with
      | (st', Some e) => (st', Some e)
      | (st', None) =>
          ls_loop fmt fields schema use_fake_digest keys rest st'
      end
  end.

(** Leaving the [with out:] block when the loop has ended.  The tabular
    sink has by then run the callbacks it was handed, each of which
    writes to the ledger it shares with [ls]; the other sinks were handed
    none.  The callbacks are taken here one after the other, in the order
    of their records: on the pool of the sink the entries of the ledger
    may come in another order.  An exception that escapes a callback
    there is taken to stay with the sink. *)
Fixpoint sink_close (recs : list AssetRecord) (errors : ledger) : ledger :=
  match recs with
  | [] => errors
  | r :: rest =>
      match rec_deferred r with
      | Some (_, cb) => sink_close rest (run_callback cb errors).1.2
      | None => sink_close rest errors
      end
  end.

(** The end-of-run warning: one ["kind: n paths"] line per ledger key,
    when the ledger is not empty. *)
Definition ls_summary (errors : ledger) : option string :=
  match errors with
  | [] => None
  | _ =>
      Some ("Failed to operate on some paths (empty records were listed):"
            +:+ String "010"%char " "
            +:+ String.concat (String "010"%char " ")
                  (map (fun kv => fst kv +:+ ": "
                                  +:+ PyStr.str_int (Z.of_nat (length (snd kv)))
                                  +:+ " paths") errors))
  end.

(** The outcome of a run of [ls]: the state in which the loop ended, the
    exception that left [ls], the summary it logged. *)
Record LsRun : Type := {
  run_state : LsState;
  run_raised : option exc;
  run_summary : option string
}.

(** [ls] as it is defined, under its decorator, from the check of the
    field names on.  [fields] is the list given with [-F], split and
    mapped to full names ([None] without [-F]); [fmt] is the format with
    ["auto"] already resolved; [assets] is what [assets_gen()] yields.
    An exception that leaves the body leaves [ls] as the decorator maps
    it; the summary is made of the ledger as it is once the sink is
    closed. *)
Definition ls (assets : list asset) (schema : option string)
    (use_fake_digest : bool) (fields : option (list string)) (fmt : format)
  : LsRun :=
  let init := {| emitted := []; errors := []; calls := [] |} in
  let unknown : gset string :=
    match fields with
    | Some fs => list_to_set fs ∖ all_fields schema
    | None => ∅
    end in
  if negb (bool_decide (unknown = ∅)) then
    {| run_state := init;
       run_raised :=
         Some (map_to_click_exceptions E
                 (Exc "UsageError"
                    ("Following fields are not known: "
                     +:+ String.concat ", " (elements unknown))));
       run_summary := None |}
  else
    let fields' := sink_fields fmt fields in
    let keys := async_keys schema fields' in
    match ls_loop fmt fields' schema use_fake_digest keys assets init with
    | (st, Some e) =>
        {| run_state := st;
           run_raised := Some (map_to_click_exceptions E e);
           run_summary := None |}
    | (st, None) =>
        {| run_state := st; run_raised := None;
           run_summary := ls_summary (sink_close (emitted st) (errors st)) |}
    end.

End Collector.

(** ** The validation cache *)

(** The state of a memoized validator: per path, the modification
    timestamp seen at the last computation with the result computed then;
    and, for counting, how many times the underlying validator ran. *)
Record MemoState (R : Type) : Type := {
  cache : gmap string (Z * R);
  recomputed : nat
}.
Arguments cache {R} _.
Arguments recomputed {R} _.

Definition memo_empty {R : Type} : MemoState R :=
  {| cache := ∅; recomputed := 0 |}.

(** Modelled from the spec: the decorator [validate_cache.memoize_path] of
    [pynwb_utils], which is not among the sources.  The cache key is the
    path with the file's modification timestamp: on each call the current
    timestamp is compared with the cached one; if they are equal the
    cached result is returned, otherwise the result is recomputed and the
    entry replaced.  A call that raises stores nothing.  [validator] is
    the decorated function at its other arguments, in the world of the
    call; [mtime] gives the timestamps in that world. *)
Definition memoize_path {R : Type} (validator : string -> result R)
    (mtime : string -> Z) (path : string) (st : MemoState R)
  : result R * MemoState R :=
  let recompute :=
    match validator path with
    | Ret r =>
        (Ret r, {| cache := <[path := (mtime path, r)]> (cache st);
                   recomputed := S (recomputed st) |})
    | Raise e =>
        (Raise e, {| cache := cache st; recomputed := S (recomputed st) |})
    end in
  match cache st !! path with
  | Some (t, r) => if decide (t = mtime path) then (Ret r, st) else recompute
  | None => recompute
  end.

(** The two decorated validators. *)
Definition validate_dandiset_yaml_memo (E : ValidateEnv) (mtime : string -> Z)
    (schema_version : option string) (devel_debug : bool)
  : string -> MemoState (list string)
    -> result (list string) * MemoState (list string) :=
  memoize_path
    (fun p => outcome (validate_dandiset_yaml E p schema_version devel_debug))
    mtime.

Definition validate_asset_file_memo (E : ValidateEnv) (mtime : string -> Z)
    (schema_version : option string) (devel_debug : bool)
  : string -> MemoState (list string)
    -> result (list string) * MemoState (list string) :=
  memoize_path
    (fun p => outcome (validate_asset_file E p schema_version devel_debug))
    mtime.

(** * Statement vocabulary and concrete worlds *)

(** The two conditions the loop of [_check_required_fields] tests, and
    what it appends for one field. *)
Definition has_no_value (v : pyval) : bool :=
  negb (py_truthy v) || is_blank_str v.
Definition is_placeholder (v : pyval) : bool :=
  py_eq_str v "REQUIRED" || py_eq_str v "PLACEHOLDER".

Definition field_problems (d : pydict) (f : string) : list string :=
  let v := default VNone (dict_get f d) in
  if has_no_value v then [msg_no_value f]
  else if is_placeholder v then [msg_has_value f v]
  else [].

(** White space, character by character: tab to carriage return, the
    separators FS to US, the space, NEL, the no-break space, the Ogham
    space, the spaces U+2000 to U+200A, the line and paragraph
    separators, the narrow no-break space, the mathematical space and the
    ideographic space. *)
Definition whitespace : list N :=
  [9; 10; 11; 12; 13; 28; 29; 30; 31; 32; 133; 160; 5760;
   8192; 8193; 8194; 8195; 8196; 8197; 8198; 8199; 8200; 8201; 8202;
   8232; 8233; 8239; 8287; 12288]%N.

(** A string with nothing but white space in it; the empty string is
    one. *)
Definition blank (s : string) : bool :=
  forallb (fun n => bool_decide (n ∈ whitespace)) (PyStr.code_points s).

(** A value that stands for no value: [None], [False], zero, an empty
    list, tuple or dict, a blank string. *)
Definition valueless (v : pyval) : bool :=
  match v with
  | VNone | VBool false | VInt 0%Z | VList [] | VTuple [] | VDict [] => true
  | VStr s => blank s
  | _ => false
  end.

(** What the required-field check owes to field [f] of the mapping [d], in
    the words of the specification: one string saying that the field has
    no value when it is missing or valueless, one string naming the field
    and the token when the value is a placeholder token, nothing
    otherwise. *)
Definition expected_problems (d : pydict) (f : string) : list string :=
  match dict_get f d with
  | None => ["Required field " +:+ PyStr.repr_str f +:+ " has no value"]
  | Some v =>
      if valueless v
      then ["Required field " +:+ PyStr.repr_str f +:+ " has no value"]
      else
        match v with
        | VStr s =>
            if decide (s = "REQUIRED")
            then ["Required field " +:+ PyStr.repr_str f
                  +:+ " has value 'REQUIRED'"]
            else if decide (s = "PLACEHOLDER")
            then ["Required field " +:+ PyStr.repr_str f
                  +:+ " has value 'PLACEHOLDER'"]
            else []
        | _ => []
        end
  end.

(** The joined ["key: value"] items of a dict: what [flatten_v] makes of
    it. *)
Definition joined_items (d : pydict) : pyval :=
  VStr (String.concat ", "
          (map (fun i => fst i +:+ ": " +:+ py_str (snd i)) d)).

(** The role [validate_file] gives a file, from its name alone. *)
Inductive role : Type := Descriptor | Video | Generic.

Definition role_of (E : ValidateEnv) (filepath : string) : role :=
  if String.eqb (Path.basename filepath) (dandiset_metadata_file E)
  then Descriptor
  else if str_in (Path.splitext_ext filepath) (VIDEO_FILE_EXTENSIONS E)
       then Video else Generic.

Definition opencv_missing : exc :=
  Exc "Exception"
    "do 'pip install opencv-python' to validate assisting video files".

(** What no handler of [validate_file] catches in lenient mode: for a
    file, the exceptions that leave [validate_file], each with its cause. *)
Inductive escapes_lenient (E : ValidateEnv) (schema_version : option string)
    (p : string) : exc → Prop :=
| esc_descriptor_unreadable e :
    role_of E p = Descriptor → load_yaml E p = Raise e →
    escapes_lenient E schema_version p e
| esc_descriptor_not_mapping meta e :
    role_of E p = Descriptor → load_yaml E p = Ret meta →
    py_get meta "schemaVersion" = Raise e →
    escapes_lenient E schema_version p e
| esc_descriptor_version meta own :
    role_of E p = Descriptor → load_yaml E p = Ret meta →
    py_get meta "schemaVersion" = Ret own → own ≠ VNone →
    py_eq_str own (get_schema_version E) = false →
    escapes_lenient E schema_version p (unsupported_version E own)
| esc_no_opencv :
    role_of E p = Video → cv2_installed E = false →
    escapes_lenient E schema_version p opencv_missing
| esc_frame_read e :
    role_of E p = Video → cv2_installed E = true →
    video_is_opened E p = Ret true → video_read E p = Raise e →
    escapes_lenient E schema_version p e
| esc_pynwb e :
    role_of E p = Generic → pynwb_validate E p false = Raise e →
    escapes_lenient E schema_version p e
| esc_asset_version nwb_problems sv :
    role_of E p = Generic → pynwb_validate E p false = Ret nwb_problems →
    schema_version = Some sv → sv ≠ get_schema_version E →
    escapes_lenient E schema_version p (unsupported_version E (VStr sv))
| esc_legacy_not_mapping nwb_problems meta e :
    role_of E p = Generic → pynwb_validate E p false = Ret nwb_problems →
    schema_version = None → get_metadata E p = Ret meta →
    _check_required_fields meta _required_nwb_metadata_fields = Raise e →
    escapes_lenient E schema_version p e.

(** A space, a tab and a no-break space. *)
Definition blank_text : string :=
  " " +:+ String "009"%char (String "194"%char (String "160"%char EmptyString)).

(** A dataset whose descriptor declares no schema version and whose model
    would reject it; version 0.6.0 is the supported one. *)
Definition legacy_dataset : ValidateEnv := {|
  dandiset_metadata_file := "dandiset.yaml";
  VIDEO_FILE_EXTENSIONS := [".mp4"; ".avi"; ".wmv"; ".mov"; ".flv"; ".mkv"];
  get_schema_version := "0.6.0";
  load_yaml := fun _ =>
    Ret (VDict [("identifier", VStr "000027"); ("name", VStr "Test");
                ("description", VStr "A dataset")]);
  DandisetMeta := fun _ => Raise (Exc "ValidationError" "1 validation error");
  BareAsset_of := fun _ => Raise (Exc "ValidationError" "2 validation errors");
  get_metadata := fun _ => Ret (VDict [("subject_id", VStr "mouse1")]);
  pynwb_validate := fun _ _ => Ret [];
  cv2_installed := true;
  video_is_opened := fun _ => Ret true;
  video_read := fun _ => Ret true;
  find_files_any := fun paths => paths;
  find_dandi_files := fun paths => paths
|}.

(** A dataset whose descriptor is no valid YAML and one of whose assets
    cannot be read. *)
Definition broken_dataset : ValidateEnv := {|
  dandiset_metadata_file := "dandiset.yaml";
  VIDEO_FILE_EXTENSIONS := [".mp4"; ".avi"; ".wmv"; ".mov"; ".flv"; ".mkv"];
  get_schema_version := "0.6.0";
  load_yaml := fun _ =>
    Raise (Exc "ScannerError" "mapping values are not allowed here");
  DandisetMeta := fun _ => Ret tt;
  BareAsset_of := fun _ => Ret tt;
  get_metadata := fun p =>
    if String.eqb p "ds/sub-2.nwb"
    then Raise (Exc "OSError" "Unable to open file")
    else Ret (VDict [("subject_id", VStr "mouse1")]);
  pynwb_validate := fun _ _ => Ret [];
  cv2_installed := true;
  video_is_opened := fun _ => Ret true;
  video_read := fun _ => Ret true;
  find_files_any := fun paths => paths;
  find_dandi_files := fun paths => paths
|}.

(** A listing world: every file is 10 bytes, the bulk extraction fails,
    the NWB version can be read. *)
Definition failing_extraction : LsEnv := {|
  metadata_all_fields := ["nwb_version"; "session_id"];
  schema_model_fields := ["schemaVersion"; "contentSize"];
  ZARR_EXTENSIONS := [".zarr"; ".ngff"];
  isdir := fun _ => false;
  stat_size := fun _ => Ret 10%Z;
  get_digest := fun _ _ => Ret "d41d8cd98f00b204e9800998ecf8427e-1";
  ls_get_metadata := fun _ _ => Raise (Exc "ValueError" "not an NWB file");
  nwb2asset_json := fun _ _ _ => Raise (Exc "ValueError" "not an NWB file");
  dandiset_metadata := fun _ _ => Ret VNone;
  get_nwb_version := fun _ => Ret (VStr "2.0.0");
  map_to_click_exceptions := click_exception
|}.

(** A listing world where the bulk extraction succeeds, without the NWB
    version, and the reader of the NWB version fails. *)
Definition failing_version_reader : LsEnv := {|
  metadata_all_fields := ["nwb_version"; "session_id"];
  schema_model_fields := ["schemaVersion"; "contentSize"];
  ZARR_EXTENSIONS := [".zarr"; ".ngff"];
  isdir := fun _ => false;
  stat_size := fun _ => Ret 10%Z;
  get_digest := fun _ _ => Ret "d41d8cd98f00b204e9800998ecf8427e-1";
  ls_get_metadata := fun _ _ => Ret (VDict [("session_id", VStr "s1")]);
  nwb2asset_json := fun _ _ _ => Ret (VDict []);
  dandiset_metadata := fun _ _ => Ret VNone;
  get_nwb_version := fun _ => Raise (Exc "ValueError" "not an NWB file");
  map_to_click_exceptions := click_exception
|}.

(** A listing world whose extraction returns a nested [subject] entry. *)
Definition nested_subject : LsEnv := {|
  metadata_all_fields := ["subject"; "nwb_version"];
  schema_model_fields := [];
  ZARR_EXTENSIONS := [".zarr"; ".ngff"];
  isdir := fun _ => false;
  stat_size := fun _ => Ret 10%Z;
  get_digest := fun _ _ => Ret "d41d8cd98f00b204e9800998ecf8427e-1";
  ls_get_metadata := fun _ _ =>
    Ret (VDict [("subject", VDict [("age", VStr "P30D"); ("sex", VStr "M")]);
                ("nwb_version", VStr "2.0.0")]);
  nwb2asset_json := fun _ _ _ => Ret (VDict []);
  dandiset_metadata := fun _ _ => Ret VNone;
  get_nwb_version := fun _ => Ret (VStr "2.0.0");
  map_to_click_exceptions := click_exception
|}.

(** The two memoized validators, under one name. *)
Inductive memoized : Type := MemoDandisetYaml | MemoAssetFile.

Definition memo_call (which : memoized) (E : ValidateEnv)
    (mtime : string -> Z) (schema_version : option string)
    (devel_debug : bool)
  : string -> MemoState (list string)
    -> result (list string) * MemoState (list string) :=
  match which with
  | MemoDandisetYaml =>
      validate_dandiset_yaml_memo E mtime schema_version devel_debug
  | MemoAssetFile =>
      validate_asset_file_memo E mtime schema_version devel_debug
  end.

(** The function under the decorator. *)
Definition memo_body (which : memoized) (E : ValidateEnv)
    (schema_version : option string) (devel_debug : bool) (path : string)
  : result (list string) :=
  match which with
  | MemoDandisetYaml =>
      outcome (validate_dandiset_yaml E path schema_version devel_debug)
  | MemoAssetFile =>
      outcome (validate_asset_file E path schema_version devel_debug)
  end.





(** The ledger lists asset [a] under [kind]. *)
Definition ledger_lists (errors : ledger) (kind : string) (a : asset) : Prop :=
  ∃ l, dict_get kind errors = Some l ∧ a ∈ l.


(** A listing world with one file that does not exist: [os.stat] raises
    [FileNotFoundError] on it; the other files are empty. *)
Definition one_missing_file : LsEnv := {|
  metadata_all_fields := ["nwb_version"; "session_id"];
  schema_model_fields := ["schemaVersion"; "contentSize"];
  ZARR_EXTENSIONS := [".zarr"; ".ngff"];
  isdir := fun _ => false;
  stat_size := fun p =>
    if String.eqb p "missing.nwb"
    then Raise (Exc "FileNotFoundError"
                  "[Errno 2] No such file or directory: 'missing.nwb'")
    else Ret 0%Z;
  get_digest := fun _ _ => Ret "d41d8cd98f00b204e9800998ecf8427e-1";
  ls_get_metadata := fun _ _ => Ret (VDict []);
  nwb2asset_json := fun _ _ _ => Ret (VDict []);
  dandiset_metadata := fun _ _ => Ret VNone;
  get_nwb_version := fun _ => Ret (VStr "2.0.0");
  map_to_click_exceptions := click_exception
|}.

(** A listing world of dandiset directories without descriptor: the
    metadata of the dandiset is [None]. *)
Definition bare_directory : LsEnv := {|
  metadata_all_fields := ["nwb_version"; "session_id"];
  schema_model_fields := ["schemaVersion"; "contentSize"];
  ZARR_EXTENSIONS := [".zarr"; ".ngff"];
  isdir := fun _ => true;
  stat_size := fun _ => Ret 4096%Z;
  get_digest := fun _ _ => Ret "d41d8cd98f00b204e9800998ecf8427e-1";
  ls_get_metadata := fun _ _ => Ret (VDict []);
  nwb2asset_json := fun _ _ _ => Ret (VDict []);
  dandiset_metadata := fun _ _ => Ret VNone;
  get_nwb_version := fun _ => Ret (VStr "2.0.0");
  map_to_click_exceptions := click_exception
|}.

(** A field of a mapping holds a usable value: it is there, it is not
    valueless and it is not a placeholder token. *)
Definition field_is_valid (d : pydict) (f : string) : Prop :=
  ∃ v, dict_get f d = Some v ∧ valueless v = false
       ∧ v ≠ VStr "REQUIRED" ∧ v ≠ VStr "PLACEHOLDER".

(** Lists, tuples and dicts: what a flat sink cannot show. *)
Definition is_container (v : pyval) : bool :=
  match v with
  | VList _ | VTuple _ | VDict _ => true
  | _ => false
  end.

(** An entry whose value is a dict with something in it. *)
Definition is_nested_entry (i : string * pyval) : bool :=
  match snd i with
  | VDict (_ :: _) => true
  | _ => false
  end.

(** The number of assets a ledger lists, over all kinds. *)
Definition ledger_size (errors : ledger) : nat :=
  list_sum (map (fun kv => length (snd kv)) errors).

(** The ready record with no entry: the one asset that is ledgered as
    empty instead of being emitted. *)
Definition is_empty_asset (a : asset) : bool :=
  match a with
  | ARecord [] => true
  | _ => false
  end.

(** The record the sink receives for an asset: a ready record as it is, a
    path record with the path under [path]. *)
Definition emitted_for (a : asset) (rec : AssetRecord) : Prop :=
  match a with
  | APath p => dict_get "path" (rec_entries rec) = Some (VStr p)
  | ARecord r => rec = {| rec_entries := r; rec_deferred := None |}
  end.

(** ** cmd_ls.py: the command in front of the loop *)

(** [s.lower()] for a string of ASCII characters. *)
Definition lower_char (c : ascii) : ascii :=
  let n := N_of_ascii c in
  if N.leb 65 n && N.leb n 90 then ascii_of_N (n + 32) else c.

Fixpoint ascii_lower (s : string) : string :=
  match s with
  | EmptyString => EmptyString
  | String c r => String (lower_char c) (ascii_lower r)
  end.

(** [s.split(",")]: never empty; the empty string gives one empty field. *)
Fixpoint split_comma (s : string) : list string :=
  match s with
  | EmptyString => [EmptyString]
  | String c r =>
      if Ascii.eqb c ","%char then EmptyString :: split_comma r
      else
        match split_comma r with
        | h :: t => String c h :: t
        | [] => [String c EmptyString]
        end
  end.

(** What navigating a URL gives: whether the URL is that of a dandiset,
    the dandiset, and the assets the URL stands for (taken as already
    listed).  Reading raw metadata is a request to the archive and may
    raise. *)
Record RemoteDandiset : Type := {
  rd_identifier : string;
  rd_version_json_dict : pydict;
  rd_raw_metadata : result pyval
}.

Record RemoteAsset : Type := {
  ra_json_dict : pydict;
  ra_raw_metadata : result pyval
}.

Record Navigated : Type := {
  nav_is_dandiset_url : bool;
  nav_dandiset : RemoteDandiset;
  nav_assets : list RemoteAsset
}.

(** What the front of [ls] imports besides the collaborators of the
    loop. *)
Record CliEnv : Type := {
  (** [support.pyout.PYOUT_SHORT_NAMES]: full name to short name *)
  PYOUT_SHORT_NAMES : list (string * string);
  (** [support.pyout.PYOUT_SHORT_NAMES_rev]: short name to full name *)
  PYOUT_SHORT_NAMES_rev : list (string * string);
  (** [s.lower()] for a string that has characters outside ASCII: the
      case mapping of the Unicode database *)
  unicode_lower : string -> string;
  (** [utils.is_url] *)
  is_url : string -> bool;
  (** [find_files(r"\.nwb\Z", path)] *)
  find_nwb_files : string -> list string;
  (** [parse_dandi_url(path)] and [navigate(strict=True)] *)
  navigate : string -> result Navigated
}.

(** The choices of [--metadata] and of [--format]. *)
Inductive metadata_mode : Type := MetaApi | MetaAll | MetaAssets.
Inductive format_option : Type := Auto | Given (f : format).

(** [display_known_fields]: the lines it prints. *)
Definition known_field_line (short_names : list (string * string))
    (field : string) : string :=
  match dict_get field short_names with
  | Some short => "- " +:+ field +:+ " or " +:+ short
  | None => "- " +:+ field
  end.

Definition display_known_fields (short_names : list (string * string))
    (all_fields_sorted : list string) : list string :=
  "Known fields:" :: map (known_field_line short_names) all_fields_sorted.

(** The order of [sorted] on strings. *)
Definition str_le (a b : string) : Prop := String.leb a b = true.

#[global] Instance str_le_dec (a b : string) : Decision (str_le a b).
Proof. unfold str_le. apply _. Defined.

(** [all_fields] as the tuple [ls] builds: the set, sorted. *)
Definition all_fields_sorted (E : LsEnv) (schema : option string)
  : list string :=
  merge_sort str_le (elements (all_fields E schema)).

(** The [-F] value once read: a blank value asks for the list of known
    fields; otherwise the names between the commas, a short name (looked up
    in lower case) replaced by its full name. *)
Inductive parsed_fields : Type :=
| ListKnownFields
| Fields (fs : option (list string)).

(** [s.lower()] *)
Definition str_lower (C : CliEnv) (s : string) : string :=
  if PyStr.is_ascii s then ascii_lower s else unicode_lower C s.

Definition full_name (C : CliEnv) (f : string) : string :=
  default f (dict_get (str_lower C f) (PYOUT_SHORT_NAMES_rev C)).

Definition parse_fields (C : CliEnv) (fields : option string)
  : parsed_fields :=
  match fields with
  | None => Fields None
  | Some s =>
      if PyStr.strip_is_empty s then ListKnownFields
      else Fields (Some (map (full_name C) (split_comma s)))
  end.

(** The format, with ["auto"] resolved: [yaml] when a URL is among the
    paths or there is one path and no recursion, [pyout] otherwise. *)
Definition resolve_format (C : CliEnv) (fmt : format_option)
    (paths : list string) (recursive : bool) : format :=
  match fmt with
  | Given f => f
  | Auto =>
      if existsb (is_url C) paths
         || (Nat.eqb (length paths) 1 && negb recursive)
      then Yaml else Pyout
  end.

(** The record of a dandiset: [path], then the entries of the version,
    then [metadata]. *)
Definition dandiset_record (d : RemoteDandiset) (raw : pyval) : pydict :=
  dict_set
    (fold_left (fun o i => dict_set o (fst i) (snd i))
       (rd_version_json_dict d) [("path", VStr (rd_identifier d))])
    "metadata" raw.

(** The records of remote assets, up to the first whose raw metadata
    cannot be read. *)
Fixpoint remote_asset_records (metadata : metadata_mode)
    (assets : list RemoteAsset) : list asset * option exc :=
  match assets with
  | [] => ([], None)
  | a :: rest =>
      let rec : result pydict :=
        match metadata with
        | MetaApi => Ret (ra_json_dict a)
        | MetaAll | MetaAssets =>
            raw ← ra_raw_metadata a;
            Ret (dict_set (ra_json_dict a) "metadata" raw)
        end in
      match rec with
      | Raise e => ([], Some e)
      | Ret r =>
          let '(ys, stop) := remote_asset_records metadata rest in
          (ARecord r :: ys, stop)
      end
  end.

(** What [assets_gen] yields for one path, and the exception that ends
    the generator there, if any. *)
Definition assets_of_path (C : CliEnv) (metadata : metadata_mode)
    (recursive : bool) (path : string) : list asset * option exc :=
  if is_url C path then
    match navigate C path with
    | Raise e => ([], Some e)
    | Ret nav =>
        let '(first, stop) :=
          if nav_is_dandiset_url nav then
            match rd_raw_metadata (nav_dandiset nav) with
            | Raise e => ([], Some e)
            | Ret raw =>
                ([ARecord (dandiset_record (nav_dandiset nav) raw)], None)
            end
          else ([], None) in
        match stop with
        | Some e => (first, Some e)
        | None =>
            if negb (nav_is_dandiset_url nav) || recursive then
              let '(ys, stop') :=
                remote_asset_records metadata (nav_assets nav) in
              (first ++ ys, stop')
            else (first, None)
        end
    end
  else
    (APath path
     :: (if recursive then map APath (find_nwb_files C path) else []),
     None).

(** [assets_gen()]: the assets yielded, in order, and the exception that
    ended the generator early, if any. *)
Fixpoint assets_gen (C : CliEnv) (metadata : metadata_mode)
    (recursive : bool) (paths : list string) : list asset * option exc :=
  match paths with
  | [] => ([], None)
  | path :: rest =>
      match assets_of_path C metadata recursive path with
      | (ys, Some e) => (ys, Some e)
      | (ys, None) =>
          let '(zs, stop) := assets_gen C metadata recursive rest in
          (ys ++ zs, stop)
      end
  end.

(** A run of the command: what was printed by [display_known_fields],
    and the run of the loop. *)
Record CommandRun : Type := {
  printed : list string;
  loop_run : LsRun
}.

Definition nothing_done : LsRun :=
  {| run_state := {| emitted := []; errors := []; calls := [] |};
     run_raised := None; run_summary := None |}.

(** Enumerating [url] fails with [e]: the navigation raises, or the
    reading of the raw metadata of the dandiset or of one of the assets
    does. *)
Definition enumeration_fails (C : CliEnv) (metadata : metadata_mode)
    (url : string) (e : exc) : Prop :=
  is_url C url = true
  ∧ (navigate C url = Raise e
     ∨ ∃ nav, navigate C url = Ret nav
         ∧ ((nav_is_dandiset_url nav = true
             ∧ rd_raw_metadata (nav_dandiset nav) = Raise e)
            ∨ (metadata ≠ MetaApi
               ∧ ∃ a, a ∈ nav_assets nav ∧ ra_raw_metadata a = Raise e))).

(** The field names [ls] rejects. *)
Definition unknown_fields (E : LsEnv) (schema : option string)
    (fields : option (list string)) : gset string :=
  match fields with
  | Some fs => list_to_set fs ∖ all_fields E schema
  | None => ∅
  end.

(** The command [ls] as a whole.  A blank [-F] prints the known fields
    and returns.  Unknown names print them too, and [ls] raises.  Else the
    loop consumes the generator: an exception of the generator leaves
    the body after the assets yielded before it were processed, unless the
    loop raised first; then there is no summary.  Like every exception of
    the body it leaves [ls] as the decorator maps it. *)
Definition ls_command (E : LsEnv) (C : CliEnv) (paths : list string)
    (schema : option string) (metadata : metadata_mode)
    (use_fake_digest : bool) (fields : option string) (fmt : format_option)
    (recursive : bool) : CommandRun :=
  let listing :=
    display_known_fields (PYOUT_SHORT_NAMES C) (all_fields_sorted E schema) in
  match parse_fields C fields with
  | ListKnownFields => {| printed := listing; loop_run := nothing_done |}
  | Fields fs =>
      let '(assets, stop) := assets_gen C metadata recursive paths in
      let run :=
        ls E assets schema use_fake_digest fs
          (resolve_format C fmt paths recursive) in
      {| printed :=
           if bool_decide (unknown_fields E schema fs = ∅) then []
           else listing;
         loop_run :=
           match run_raised run, stop with
           | None, Some e =>
               {| run_state := run_state run;
                  run_raised := Some (map_to_click_exceptions E e);
                  run_summary := None |}
           | _, _ => run
           end |}
  end.

(** A command world with two short names, where anything with a scheme
    is a URL and no URL can be reached. *)
Definition offline : CliEnv := {|
  PYOUT_SHORT_NAMES :=
    [("number_of_electrodes", "#electrodes"); ("nwb_version", "NWB")];
  PYOUT_SHORT_NAMES_rev :=
    [("#electrodes", "number_of_electrodes"); ("nwb", "nwb_version")];
  unicode_lower := fun s => s;
  is_url := fun p => String.eqb (String.substring 0 8 p) "https://";
  find_nwb_files := fun p =>
    if String.eqb p "data" then ["data/sub-1.nwb"; "data/sub-2.nwb"] else [];
  navigate := fun _ => Raise (Exc "ConnectionError" "archive unreachable")
|}.

(** * Properties *)

(** ** Dicts *)

Section DictFacts.
Context {K V : Type} `{EqDecision K}.
Implicit Types (d : list (K * V)) (k : K) (v : V).

Lemma dict_get_set_eq d k v : dict_get k (dict_set d k v) = Some v.
Proof.
  induction d as [|[k' v'] d IH]; simpl.
  - by rewrite decide_True.
  - destruct (decide (k = k')) as [->|Hne]; simpl.
    + by rewrite decide_True.
    + by rewrite decide_False.
Qed.

Lemma dict_get_set_ne d k k' v :
  k' ≠ k → dict_get k' (dict_set d k v) = dict_get k' d.
Proof.
  intros Hne. induction d as [|[k0 v0] d IH]; simpl.
  - by rewrite decide_False.
  - destruct (decide (k = k0)) as [->|Hk]; simpl.
    + by rewrite !decide_False.
    + destruct (decide (k' = k0)); [done | apply IH].
Qed.

Lemma dict_get_None d k : dict_get k d = None ↔ k ∉ dict_keys d.
Proof.
  induction d as [|[k' v'] d IH]; simpl.
  - split; [intros _; apply not_elem_of_nil | done].
  - rewrite not_elem_of_cons. destruct (decide (k = k')) as [->|Hne].
    + split; [done | intros [? _]; done].
    + rewrite IH. tauto.
Qed.

Lemma dict_get_Some_elem d k v : dict_get k d = Some v → (k, v) ∈ d.
Proof.
  induction d as [|[k' v'] d IH]; simpl; [done|].
  destruct (decide (k = k')) as [->|Hne].
  - intros [= ->]. apply elem_of_cons; by left.
  - intros Hg. apply elem_of_cons; right; auto.
Qed.

Lemma dict_get_wf d k v : dict_wf d → (k, v) ∈ d → dict_get k d = Some v.
Proof.
  unfold dict_wf, dict_keys.
  induction d as [|[k' v'] d IH]; simpl; intros Hwf Hin.
  - by apply elem_of_nil in Hin.
  - apply NoDup_cons in Hwf as [Hnotin Hwf].
    apply elem_of_cons in Hin as [[= -> ->]|Hin].
    + by rewrite decide_True.
    + destruct (decide (k = k')) as [->|Hne]; [|by apply IH].
      exfalso. apply Hnotin.
      apply (list_elem_of_fmap_2 fst) in Hin. exact Hin.
Qed.

Lemma dict_keys_set d k v :
  ∀ k', k' ∈ dict_keys (dict_set d k v) ↔ k' = k ∨ k' ∈ dict_keys d.
Proof.
  intros k'. unfold dict_keys.
  induction d as [|[k0 v0] d IH]; simpl.
  - rewrite list_elem_of_singleton. split; [auto|].
    intros [?|Hn]; [done | by apply elem_of_nil in Hn].
  - destruct (decide (k = k0)) as [->|Hne]; simpl.
    + rewrite !elem_of_cons. tauto.
    + rewrite !elem_of_cons, IH. tauto.
Qed.

Lemma dict_has_true d k : dict_has k d = true ↔ k ∈ dict_keys d.
Proof.
  unfold dict_has. destruct (dict_get k d) eqn:Hg.
  - split; [intros _ | done].
    destruct (decide (k ∈ dict_keys d)) as [|Hn]; [done|].
    apply dict_get_None in Hn. congruence.
  - split; [done|]. intros Hin. apply dict_get_None in Hg. done.
Qed.

End DictFacts.

(** ** Strings *)

Lemma append_inj_l (p a b : string) : p +:+ a = p +:+ b → a = b.
Proof.
  induction p as [|c p IH]; simpl; [done|].
  intros [= Heq]. by apply IH.
Qed.

Lemma is_space_whitespace (n : N) :
  PyStr.is_space n = bool_decide (n ∈ whitespace).
Proof.
  destruct (bool_decide (n ∈ whitespace)) eqn:Hw.
  - apply bool_decide_eq_true in Hw. unfold whitespace in Hw.
    repeat (apply elem_of_cons in Hw as [->|Hw]; [reflexivity|]).
    by apply elem_of_nil in Hw.
  - apply bool_decide_eq_false in Hw.
    destruct (PyStr.is_space n) eqn:Hs; [|done]. exfalso. apply Hw.
    unfold PyStr.is_space in Hs.
    repeat rewrite orb_true_iff in Hs. repeat rewrite andb_true_iff in Hs.
    repeat rewrite N.leb_le in Hs. repeat rewrite N.eqb_eq in Hs.
    assert (n = 9 ∨ n = 10 ∨ n = 11 ∨ n = 12 ∨ n = 13 ∨ n = 28 ∨ n = 29
            ∨ n = 30 ∨ n = 31 ∨ n = 32 ∨ n = 133 ∨ n = 160 ∨ n = 5760
            ∨ n = 8192 ∨ n = 8193 ∨ n = 8194 ∨ n = 8195 ∨ n = 8196
            ∨ n = 8197 ∨ n = 8198 ∨ n = 8199 ∨ n = 8200 ∨ n = 8201
            ∨ n = 8202 ∨ n = 8232 ∨ n = 8233 ∨ n = 8239 ∨ n = 8287
            ∨ n = 12288)%N as Hn by lia.
    repeat (destruct Hn as [->|Hn]; [compute_done|]). subst. compute_done.
Qed.

Lemma strip_is_empty_blank (s : string) : PyStr.strip_is_empty s = blank s.
Proof.
  unfold PyStr.strip_is_empty, blank.
  induction (PyStr.code_points s) as [|n l IH]; simpl; [done|].
  by rewrite is_space_whitespace, IH.
Qed.

Lemma blank_Forall (s : string) :
  blank s = true ↔ Forall (fun n => n ∈ whitespace) (PyStr.code_points s).
Proof.
  unfold blank. rewrite forallb_forall, Forall_forall. split.
  - intros H n Hn. eapply bool_decide_eq_true, H. by apply list_elem_of_In.
  - intros H n Hn. apply bool_decide_eq_true, H. by apply list_elem_of_In.
Qed.

(** ** Required fields *)

Lemma has_no_value_valueless (v : pyval) : has_no_value v = valueless v.
Proof.
  unfold has_no_value.
  destruct v as [|[]|[]|s|[]|[]|[]]; simpl; try done.
  rewrite strip_is_empty_blank.
  destruct (String.eqb_spec s "") as [->|_]; simpl; done.
Qed.

Lemma has_no_value_not_placeholder (v : pyval) :
  has_no_value v = true → is_placeholder v = false.
Proof.
  unfold has_no_value, is_placeholder.
  destruct v as [| | |s| | |]; simpl; try done.
  destruct (String.eqb_spec s "REQUIRED") as [->|_]; [done|].
  destruct (String.eqb_spec s "PLACEHOLDER") as [->|_]; done.
Qed.

Lemma check_required_loop_spec (d : pydict) (required acc : list string) :
  check_required_loop (VDict d) required acc
  = Ret (acc ++ concat (map (field_problems d) required)).
Proof.
  revert acc. induction required as [|f rest IH]; intros acc; simpl.
  - by rewrite app_nil_r.
  - rewrite IH. unfold field_problems at 2.
    fold (has_no_value (default VNone (dict_get f d))).
    fold (is_placeholder (default VNone (dict_get f d))).
    destruct (has_no_value _) eqn:Hnv.
    + rewrite (has_no_value_not_placeholder _ Hnv). simpl.
      by rewrite <- app_assoc.
    + destruct (is_placeholder _); simpl; by rewrite <- ?app_assoc.
Qed.

(** What the loop appends for a field is what the specification's words
    owe to it. *)
Lemma field_problems_expected (d : pydict) (f : string) :
  field_problems d f = expected_problems d f.
Proof.
  unfold field_problems, expected_problems.
  destruct (dict_get f d) as [v|]; simpl; [|done].
  rewrite has_no_value_valueless. destruct (valueless v); [done|].
  unfold is_placeholder. destruct v as [| | |s| | |]; simpl; try done.
  destruct (decide (s = "REQUIRED")) as [->|H1]; [reflexivity|].
  destruct (decide (s = "PLACEHOLDER")) as [->|H2]; [reflexivity|].
  apply String.eqb_neq in H1, H2. by rewrite H1, H2.
Qed.

Lemma check_required_fields_expected (d : pydict) (required : list string) :
  _check_required_fields (VDict d) required
  = Ret (concat (map (expected_problems d) required)).
Proof.
  unfold _check_required_fields. rewrite check_required_loop_spec. simpl.
  do 2 f_equal. apply map_ext. apply field_problems_expected.
Qed.

Lemma expected_problems_length (d : pydict) (f : string) :
  (length (expected_problems d f) ≤ 1)%nat.
Proof.
  unfold expected_problems.
  destruct (dict_get f d) as [v|]; [|simpl; lia].
  destruct (valueless v); [simpl; lia|].
  destruct v; simpl; try lia.
  repeat (destruct (decide _); simpl; try lia).
Qed.

Lemma expected_problems_nil (d : pydict) (f : string) :
  expected_problems d f = [] ↔ field_is_valid d f.
Proof.
  unfold expected_problems, field_is_valid.
  destruct (dict_get f d) as [v|]; [|split; [done | by intros (v & ? & _)]].
  destruct (valueless v) eqn:Hv.
  { split; [done|]. intros (v' & [= <-] & Hv' & _). congruence. }
  destruct v as [| | |s| | |];
    try (split; [intros _; eexists; by repeat split | done]).
  destruct (decide (s = "REQUIRED")) as [->|H1].
  { split; [done|]. by intros (v' & [= <-] & _ & Hr & _). }
  destruct (decide (s = "PLACEHOLDER")) as [->|H2].
  { split; [done|]. by intros (v' & [= <-] & _ & _ & Hp). }
  split; [|done]. intros _. eexists. repeat split; [done| |]; congruence.
Qed.

Lemma concat_expected_problems (d : pydict) (required : list string) :
  (length (concat (map (expected_problems d) required)) ≤ length required)%nat
  ∧ (concat (map (expected_problems d) required) = []
     ↔ ∀ f, f ∈ required → field_is_valid d f).
Proof.
  induction required as [|f rest [IHlen IHnil]]; simpl.
  - split; [lia|]. split; [|done]. intros _ f Hf. by apply elem_of_nil in Hf.
  - rewrite length_app. pose proof (expected_problems_length d f).
    split; [lia|]. split.
    + intros Hnil. apply app_eq_nil in Hnil as [Hf Hrest].
      intros g Hg. apply elem_of_cons in Hg as [->|Hg].
      * by apply expected_problems_nil.
      * by apply IHnil.
    + intros Hall.
      assert (expected_problems d f = []) as ->.
      { apply expected_problems_nil, Hall, elem_of_cons. by left. }
      simpl. apply IHnil. intros g Hg. apply Hall, elem_of_cons. by right.
Qed.

Lemma valueless_cases (v : pyval) :
  valueless v = true
  ↔ v = VNone ∨ v = VBool false ∨ v = VInt 0 ∨ v = VList [] ∨ v = VTuple []
    ∨ v = VDict []
    ∨ ∃ s, v = VStr s ∧ Forall (fun n => n ∈ whitespace) (PyStr.code_points s).
Proof.
  split.
  - destruct v as [|[]|[]|s|[]|[]|[]]; simpl; try done; intros Hv;
      try (by repeat (first [left; reflexivity | right])).
    do 6 right. exists s. split; [done|]. by apply blank_Forall.
  - intros [->|[->|[->|[->|[->|[->|(s & -> & Hs)]]]]]]; try done.
    simpl. by apply blank_Forall.
Qed.

(** C8.  On a mapping [_check_required_fields] returns, field by field in
    the order of [required], what the specification owes to each field:
    one string saying that the field has no value when the field is
    missing or its value is falsy or a string of white space only; one
    string of another wording, naming the field and the literal, when the
    value is the token REQUIRED or PLACEHOLDER; nothing when the value is
    usable.  So there is at most one string per field, the strings are
    spelled as shown, and white space is what [str.strip] removes,
    the no-break space included. *)
Theorem check_required_fields_one_problem_per_field
    (d : pydict) (required : list string) :
  _check_required_fields (VDict d) required
  = Ret (concat (map (expected_problems d) required))
  ∧ (∀ f, (length (expected_problems d f) ≤ 1)%nat)
  ∧ (∀ f, expected_problems d f = [] ↔ field_is_valid d f)
  ∧ (∀ v, valueless v = true
          ↔ v = VNone ∨ v = VBool false ∨ v = VInt 0 ∨ v = VList []
            ∨ v = VTuple [] ∨ v = VDict []
            ∨ ∃ s, v = VStr s
                   ∧ Forall (fun n => n ∈ whitespace) (PyStr.code_points s))
  ∧ (∀ f rest,
       "Required field " +:+ PyStr.repr_str f +:+ " has no value"
       ≠ "Required field " +:+ PyStr.repr_str f +:+ " has value " +:+ rest)
  ∧ _check_required_fields
      (VDict [("identifier", VStr "REQUIRED"); ("name", VStr blank_text);
              ("description", VStr "A dataset");
              ("subject_id", VStr "PLACEHOLDER"); ("lab", VStr "")])
      ["identifier"; "name"; "description"; "subject_id"; "lab"; "species"]
    = Ret ["Required field 'identifier' has value 'REQUIRED'";
           "Required field 'name' has no value";
           "Required field 'subject_id' has value 'PLACEHOLDER'";
           "Required field 'lab' has no value";
           "Required field 'species' has no value"].
Proof.
  split; [apply check_required_fields_expected|].
  split; [apply expected_problems_length|].
  split; [apply expected_problems_nil|].
  split; [apply valueless_cases|].
  split; [|vm_compute; reflexivity].
  intros f rest Heq.
  apply append_inj_l, append_inj_l in Heq. cbn in Heq.
  injection Heq as _ _ _ _ _ Heq. discriminate Heq.
Qed.

(** ** Flattening *)

(** The equation of the source for a dict: [flatten_v] of the list of its
    item strings. *)
Lemma flatten_v_dict_eq (d : pydict) :
  flatten_v (VDict d) = flatten_v (VList (map item_str d)).
Proof.
  simpl. unfold join_flat. f_equal. f_equal.
  rewrite !map_map. apply map_ext. by intros [k v].
Qed.

Lemma flatten_v_dict_joined (d : pydict) : flatten_v (VDict d) = joined_items d.
Proof.
  simpl. unfold join_flat, joined_items. f_equal. f_equal.
  rewrite map_map. apply map_ext. by intros [k v].
Qed.

Lemma flatten_meta_to_pyout_dict (meta : pydict) :
  flatten_meta_to_pyout (VDict meta) = Ret (flatten_items meta []).
Proof. by destruct meta. Qed.

Lemma flatten_items_other (items out : pydict) (f : string) :
  f ∉ dict_keys items →
  dict_get f (flatten_items items out) = dict_get f out.
Proof.
  revert out. induction items as [|[k v] items IH]; intros out Hn; [done|].
  simpl in *. apply not_elem_of_cons in Hn as [Hne Hn].
  destruct (py_truthy v); simpl.
  - rewrite IH by done. by apply dict_get_set_ne.
  - by apply IH.
Qed.

Lemma flatten_items_entry (items out : pydict) (f : string) (v : pyval) :
  dict_wf items → (f, v) ∈ items →
  dict_get f (flatten_items items out)
  = if py_truthy v then Some (flatten_v v) else dict_get f out.
Proof.
  unfold dict_wf. revert out.
  induction items as [|[k x] items IH]; intros out Hwf Hin.
  - by apply elem_of_nil in Hin.
  - simpl in Hwf. apply NoDup_cons in Hwf as [Hfresh Hwf].
    apply elem_of_cons in Hin as [[= <- <-]|Hin]; simpl.
    + destruct (py_truthy v); simpl.
      * rewrite flatten_items_other by done. apply dict_get_set_eq.
      * by apply flatten_items_other.
    + assert (f ≠ k) as Hne.
      { intros ->. apply Hfresh.
        apply (list_elem_of_fmap_2 fst) in Hin. exact Hin. }
      destruct (py_truthy x); simpl.
      * rewrite IH by done. destruct (py_truthy v); [done|].
        by apply dict_get_set_ne.
      * by apply IH.
Qed.

(** C6.  [flatten_v] joins the flattened, stringified elements of a list
    or tuple with [", "]; turns a dict into its ["key: value"] strings and
    flattens that list; leaves a scalar as it is; and
    [flatten_meta_to_pyout] keeps an entry, flattened, exactly when its
    value is truthy: an entry with a falsy value (empty string, list or
    dict, zero, None) has no key in the output. *)
Theorem flatten_contract (meta : pydict) :
  dict_wf meta →
  (∀ l, flatten_v (VList l)
        = VStr (String.concat ", " (map (fun x => py_str (flatten_v x)) l)))
  ∧ (∀ l, flatten_v (VTuple l)
          = VStr (String.concat ", " (map (fun x => py_str (flatten_v x)) l)))
  ∧ (∀ d, flatten_v (VDict d) = flatten_v (VList (map item_str d)))
  ∧ (∀ k v, item_str (k, v) = VStr (k +:+ ": " +:+ py_str v))
  ∧ (∀ v, match v with
          | VList _ | VTuple _ | VDict _ => True
          | _ => flatten_v v = v
          end)
  ∧ flatten_v (VList [VStr "a"; VStr "b"]) = VStr "a, b"
  ∧ flatten_v (VDict [("x", VInt 1); ("y", VInt 2)]) = VStr "x: 1, y: 2"
  ∧ (py_truthy (VStr "") = false ∧ py_truthy (VList []) = false
     ∧ py_truthy (VDict []) = false ∧ py_truthy (VInt 0) = false
     ∧ py_truthy VNone = false)
  ∧ ∃ out, flatten_meta_to_pyout (VDict meta) = Ret out
      ∧ ∀ f v, (f, v) ∈ meta →
          if py_truthy v then dict_get f out = Some (flatten_v v)
          else f ∉ dict_keys out.
Proof.
  intros Hwf.
  split; [done|]. split; [done|].
  split; [apply flatten_v_dict_eq|].
  split; [done|].
  split; [by intros []|].
  split; [done|]. split; [done|]. split; [done|].
  exists (flatten_items meta []). split; [apply flatten_meta_to_pyout_dict|].
  intros f v Hin. pose proof (flatten_items_entry meta [] f v Hwf Hin) as Hg.
  destruct (py_truthy v); [done|]. by apply dict_get_None.
Qed.

Lemma flatten_contract_witness :
  dict_wf [("keywords", VList []); ("lab", VStr "x")]
  ∧ ∃ out, flatten_meta_to_pyout
             (VDict [("keywords", VList []); ("lab", VStr "x")]) = Ret out
      ∧ "keywords" ∉ dict_keys out.
Proof.
  assert (dict_wf [("keywords", VList []); ("lab", VStr "x")]) as Hwf.
  { unfold dict_wf. simpl. compute_done. }
  split; [exact Hwf|].
  destruct (flatten_contract _ Hwf)
    as (_ & _ & _ & _ & _ & _ & _ & _ & out & Hout & Hent).
  exists out. split; [exact Hout|].
  apply (Hent "keywords" (VList [])). apply elem_of_cons. by left.
Defined.

(** ** The flattener of the tabular sink *)

Lemma fold_set_keys_mono (f : string) (inner out : pydict) (k : string) :
  k ∈ dict_keys out →
  k ∈ dict_keys
        (fold_left
           (fun o i => dict_set o (f +:+ "_" +:+ fst i) (flatten_v (snd i)))
           inner out).
Proof.
  revert out. induction inner as [|[vf vv] inner IH]; intros out Hk; [done|].
  simpl. apply IH. apply dict_keys_set. by right.
Qed.

Lemma fold_set_keys_in (f : string) (inner out : pydict) (vf : string) :
  vf ∈ dict_keys inner →
  (f +:+ "_" +:+ vf)
  ∈ dict_keys
      (fold_left
         (fun o i => dict_set o (f +:+ "_" +:+ fst i) (flatten_v (snd i)))
         inner out).
Proof.
  revert out. induction inner as [|[k vv] inner IH]; intros out Hin.
  - by apply elem_of_nil in Hin.
  - simpl in *. apply elem_of_cons in Hin as [->|Hin].
    + apply fold_set_keys_mono. apply dict_keys_set. by left.
    + by apply IH.
Qed.

Lemma flatten_v1_items_mono (inner_v1 : pyval → pydict)
    (items out : pydict) (k : string) :
  k ∈ dict_keys out → k ∈ dict_keys (flatten_v1_items inner_v1 items out).
Proof.
  revert out. induction items as [|[f v] items IH]; intros out Hk; [done|].
  simpl. destruct (py_truthy v); simpl; [|by apply IH].
  destruct v; apply IH; try (apply dict_keys_set; by right).
  by apply fold_set_keys_mono.
Qed.

Lemma flatten_v1_items_promotes (inner_v1 : pyval → pydict)
    (items out : pydict) (f : string) (inner : pydict) (vf : string) :
  (f, VDict inner) ∈ items → inner ≠ [] →
  vf ∈ dict_keys (inner_v1 (VDict inner)) →
  (f +:+ "_" +:+ vf) ∈ dict_keys (flatten_v1_items inner_v1 items out).
Proof.
  intros Hin Hne Hvf. revert out.
  induction items as [|[k v] items IH]; intros out.
  - by apply elem_of_nil in Hin.
  - apply elem_of_cons in Hin as [[= <- <-]|Hin].
    + simpl. destruct inner as [|i inner]; [done|]. simpl.
      apply flatten_v1_items_mono. by apply (fold_set_keys_in f _ out vf).
    + simpl. destruct (py_truthy v); simpl; [|by apply IH].
      destruct v; by apply IH.
Qed.

(** C7, as the code has it.  [flatten_meta_to_pyout], the flattener that
    [get_metadata_ls] applies for the tabular sink, collapses a non-empty
    nested dict into one string of ["key: value"] items under the outer
    key.  The promotion of the inner keys to ["<outer>_<inner>"] is what
    [flatten_meta_to_pyout_v1] does, which the collector does not call. *)
Theorem flatten_meta_to_pyout_collapses_nested
    (meta : pydict) (f : string) (inner : pydict) :
  dict_wf meta → (f, VDict inner) ∈ meta → inner ≠ [] →
  (∃ out, flatten_meta_to_pyout (VDict meta) = Ret out
     ∧ dict_get f out = Some (joined_items inner))
  ∧ (∃ out1, flatten_meta_to_pyout_v1 (VDict meta) = Ret out1
       ∧ ∀ vf, vf ∈ dict_keys (flatten_v1_dict (VDict inner)) →
               (f +:+ "_" +:+ vf) ∈ dict_keys out1).
Proof.
  intros Hwf Hin Hne. split.
  - exists (flatten_items meta []).
    split; [apply flatten_meta_to_pyout_dict|].
    rewrite (flatten_items_entry meta [] f (VDict inner) Hwf Hin).
    destruct inner; [done|]. simpl py_truthy. cbv iota.
    f_equal. apply flatten_v_dict_joined.
  - exists (flatten_v1_items flatten_v1_dict meta []). split.
    + by destruct meta.
    + intros vf Hvf. by apply (flatten_v1_items_promotes _ _ _ f inner vf).
Qed.

Lemma flatten_meta_to_pyout_collapses_nested_witness :
  dict_wf [("subject", VDict [("age", VStr "P30D")])]
  ∧ ∃ out, flatten_meta_to_pyout
             (VDict [("subject", VDict [("age", VStr "P30D")])]) = Ret out
      ∧ dict_get "subject" out = Some (VStr "age: P30D").
Proof.
  assert (dict_wf [("subject", VDict [("age", VStr "P30D")])]) as Hwf.
  { unfold dict_wf. simpl. compute_done. }
  split; [exact Hwf|].
  refine (proj1 (flatten_meta_to_pyout_collapses_nested
                   _ "subject" [("age", VStr "P30D")] Hwf _ _)).
  - apply elem_of_cons. by left.
  - discriminate.
Defined.

(** C7 as stated fails.  The record flattened for the tabular sink keeps
    one key, [subject], bound to the joined string; no [subject_age] or
    [subject_sex] key appears, neither from [flatten_meta_to_pyout] nor
    from the callback that [ls] hands to the tabular sink. *)
Lemma flatten_meta_to_pyout_does_not_promote :
  flatten_meta_to_pyout
    (VDict [("subject", VDict [("age", VStr "P30D"); ("sex", VStr "M")])])
  = Ret [("subject", VStr "age: P30D, sex: M")]
  ∧ dict_has "subject_age" [("subject", VStr "age: P30D, sex: M")] = false
  ∧ (run_callback nested_subject
       (get_metadata_ls "sub-1.nwb" ["subject"] true None true) []).1.1
    = Ret [("subject", VStr "age: P30D, sex: M")].
Proof. repeat split; vm_compute; reflexivity. Qed.

(** ** Schema versions *)

Lemma py_eq_str_VStr (a b : string) : py_eq_str (VStr a) b = false ↔ a ≠ b.
Proof.
  simpl. destruct (String.eqb_spec a b); split; congruence.
Qed.

Lemma memoize_path_cold_raise {R : Type} (validator : string → result R)
    (mtime : string → Z) (path : string) (st : MemoState R) (e : exc) :
  cache st !! path = None → validator path = Raise e →
  (memoize_path validator mtime path st).1 = Raise e.
Proof. intros Hc Hv. unfold memoize_path. by rewrite Hc, Hv. Qed.

(** C3.  A requested schema version other than the supported one makes
    both validators raise [ValueError], in lenient and in strict mode
    alike: the outcome is that exception, never a problem list.  (For the
    descriptor the file is read first; if reading it raises, that
    exception propagates instead.)  The raise also passes through the
    memoizing decorator. *)
Theorem schema_version_mismatch_raises
    (E : ValidateEnv) (path sv : string) (devel_debug : bool) :
  sv ≠ get_schema_version E →
  validate_asset_file E path (Some sv) devel_debug
  = quiet (Raise (unsupported_version E (VStr sv)))
  ∧ raises (outcome (validate_dandiset_yaml E path (Some sv) devel_debug))
  ∧ (∀ meta, load_yaml E path = Ret meta →
       validate_dandiset_yaml E path (Some sv) devel_debug
       = quiet (Raise (unsupported_version E (VStr sv))))
  ∧ exc_type (unsupported_version E (VStr sv)) = "ValueError"
  ∧ (∀ mtime,
       (validate_asset_file_memo E mtime (Some sv) devel_debug path
          memo_empty).1
       = Raise (unsupported_version E (VStr sv))
       ∧ raises (validate_dandiset_yaml_memo E mtime (Some sv) devel_debug
                   path memo_empty).1).
Proof.
  intros Hne.
  assert (String.eqb sv (get_schema_version E) = false) as Hb
    by (by apply String.eqb_neq).
  assert (validate_asset_file E path (Some sv) devel_debug
          = quiet (Raise (unsupported_version E (VStr sv)))) as Ha.
  { unfold validate_asset_file. by rewrite Hb. }
  assert (∀ meta, load_yaml E path = Ret meta →
            validate_dandiset_yaml E path (Some sv) devel_debug
            = quiet (Raise (unsupported_version E (VStr sv)))) as Hd.
  { intros meta Hm. unfold validate_dandiset_yaml. rewrite Hm.
    simpl. by rewrite Hb. }
  assert (raises (outcome (validate_dandiset_yaml E path (Some sv)
                             devel_debug))) as Hr.
  { destruct (load_yaml E path) as [meta|e] eqn:Hm.
    - rewrite (Hd meta eq_refl). by eexists.
    - unfold validate_dandiset_yaml. rewrite Hm. by eexists. }
  repeat split; try done.
  - apply memoize_path_cold_raise; [apply lookup_empty | by rewrite Ha].
  - destruct Hr as [e He]. exists e.
    by apply memoize_path_cold_raise; [apply lookup_empty|].
Qed.

Lemma schema_version_mismatch_raises_witness :
  "0.4.4" ≠ get_schema_version legacy_dataset
  ∧ validate_asset_file legacy_dataset "sub-1.nwb" (Some "0.4.4") false
    = quiet (Raise (Exc "ValueError"
               "Unsupported schema version: 0.4.4; expected 0.6.0")).
Proof.
  assert ("0.4.4" ≠ get_schema_version legacy_dataset) as Hne by discriminate.
  split; [exact Hne|].
  exact (proj1 (schema_version_mismatch_raises
                  legacy_dataset "sub-1.nwb" "0.4.4" false Hne)).
Defined.

(** C4 as stated fails.  A version other than the supported one is
    requested for a descriptor that declares none: nothing is raised, the
    versioned model (which would reject the file here) is not consulted,
    and the required-field check finds no problem. *)
Lemma validate_file_descriptor_ignores_requested_version :
  Path.basename "ds/dandiset.yaml" = dandiset_metadata_file legacy_dataset
  ∧ "0.4.4" ≠ get_schema_version legacy_dataset
  ∧ validate_file legacy_dataset "ds/dandiset.yaml" (Some "0.4.4") false
    = quiet (Ret [])
  ∧ validate_file legacy_dataset "ds/dandiset.yaml" (Some "0.4.4") true
    = quiet (Ret []).
Proof. repeat split; try discriminate; vm_compute; reflexivity. Qed.

(** C4, as the code has it.  For the descriptor [validate_file] passes
    no version on: the result is the same whatever version was requested.
    The version that counts is the descriptor's own [schemaVersion] entry:
    without one only the required fields are checked; one that differs
    from the supported version raises [ValueError] at once, in both modes;
    one that equals it has the descriptor validated against the versioned
    model. *)
Theorem validate_file_descriptor_uses_own_version
    (E : ValidateEnv) (p : string) (requested : option string)
    (devel_debug : bool) (meta : pydict) :
  Path.basename p = dandiset_metadata_file E →
  load_yaml E p = Ret (VDict meta) →
  let own := default VNone (dict_get "schemaVersion" meta) in
  let res := validate_file E p requested devel_debug in
  res = validate_file E p None devel_debug
  ∧ (own = VNone →
     res = quiet (_check_required_fields (VDict meta)
                    _required_dandiset_metadata_fields))
  ∧ (own ≠ VNone → py_eq_str own (get_schema_version E) = false →
     res = quiet (Raise (unsupported_version E own)))
  ∧ (py_eq_str own (get_schema_version E) = true →
     match DandisetMeta E (VDict meta) with
     | Ret _ => res = quiet (Ret [])
     | Raise e =>
         if devel_debug then res = quiet (Raise e)
         else ∃ w s, res = ([w], Ret [s])
     end).
Proof.
  intros Hbase Hload own res.
  assert (res = validate_dandiset_yaml E p None devel_debug) as Hres.
  { unfold res, validate_file. rewrite Hbase. by rewrite String.eqb_refl. }
  split.
  { rewrite Hres. unfold validate_file. rewrite Hbase.
    by rewrite String.eqb_refl. }
  rewrite Hres. unfold validate_dandiset_yaml. rewrite Hload. simpl.
  fold own. repeat split.
  - by intros ->.
  - intros Hnn Hneq. rewrite Hneq. simpl. by destruct own.
  - intros Heq. rewrite Heq. simpl.
    destruct own; try done.
    destruct (DandisetMeta E (VDict meta)) as [u|e]; [done|].
    unfold on_model_error.
    destruct devel_debug; [by destruct (is_ValidationError e)|].
    destruct (is_ValidationError e); by do 2 eexists.
Qed.

Lemma validate_file_descriptor_uses_own_version_witness :
  Path.basename "ds/dandiset.yaml" = dandiset_metadata_file legacy_dataset
  ∧ validate_file legacy_dataset "ds/dandiset.yaml" (Some "0.4.4") false
    = validate_file legacy_dataset "ds/dandiset.yaml" None false.
Proof.
  split; [reflexivity|].
  exact (proj1 (validate_file_descriptor_uses_own_version
                  legacy_dataset "ds/dandiset.yaml" (Some "0.4.4") false
                  _ eq_refl eq_refl)).
Defined.

(** ** Lenient validation of a batch *)

Section ValidateFacts.
Variable E : ValidateEnv.

Lemma validate_file_by_role (p : string) (sv : option string) (dd : bool) :
  validate_file E p sv dd
  = match role_of E p with
    | Descriptor => validate_dandiset_yaml E p None dd
    | Video => validate_movie_file E p dd
    | Generic =>
        match pynwb_validate E p dd with
        | Raise e => quiet (Raise e)
        | Ret nwb_problems =>
            match validate_asset_file E p sv dd with
            | (w, Ret problems) => (w, Ret (nwb_problems ++ problems))
            | (w, Raise e) => (w, Raise e)
            end
        end
    end.
Proof.
  unfold validate_file, role_of.
  destruct (String.eqb _ _); [done|]. by destruct (str_in _ _).
Qed.

Lemma check_required_fields_of_mapping (meta : pyval) (k : string)
    (v : pyval) (required : list string) :
  py_get meta k = Ret v → returns (_check_required_fields meta required).
Proof.
  destruct meta; try discriminate. intros _.
  eexists. apply (check_required_loop_spec d required []).
Qed.

Lemma on_model_error_lenient (p prefix : string) (e : exc) :
  ∃ w s, on_model_error p false prefix e = ([w], Ret [s]).
Proof.
  unfold on_model_error. destruct (is_ValidationError e); by do 2 eexists.
Qed.

(** Every exception that leaves [validate_file] in lenient mode has one
    of the causes listed by [escapes_lenient]. *)
Lemma validate_file_escape_cause (p : string) (sv : option string) (e : exc) :
  outcome (validate_file E p sv false) = Raise e → escapes_lenient E sv p e.
Proof.
  rewrite validate_file_by_role. destruct (role_of E p) eqn:Hrole.
  - unfold validate_dandiset_yaml.
    destruct (load_yaml E p) as [meta|e0] eqn:Hload.
    2:{ intros [= <-]. by apply esc_descriptor_unreadable. }
    destruct (py_get meta "schemaVersion") as [own|e1] eqn:Hget.
    2:{ intros [= <-]. by eapply esc_descriptor_not_mapping. }
    destruct own as [| b | z | s | l | l | d].
    { intros Hr. simpl in Hr.
      destruct (check_required_fields_of_mapping meta _ _
                  _required_dandiset_metadata_fields Hget) as [l Hl].
      congruence. }
    all: cbv beta iota;
      match goal with
      | |- context [py_eq_str ?o (get_schema_version E)] =>
          destruct (py_eq_str o (get_schema_version E)) eqn:Heq
      end; simpl;
      [ destruct (DandisetMeta E meta) as [u|e2]; [done|];
        destruct (on_model_error_lenient p
                    "Failed to initialize Dandiset meta: " e2)
          as (w & x & ->); done
      | intros [= <-]; by eapply esc_descriptor_version ].
  - unfold validate_movie_file.
    destruct (cv2_installed E) eqn:Hcv; simpl.
    2:{ intros [= <-]. by apply esc_no_opencv. }
    rewrite andb_false_r.
    destruct (video_is_opened E p) as [[|]|e0] eqn:Hopen; simpl; try done.
    destruct (video_read E p) as [[|]|e1] eqn:Hread; simpl; try done.
    intros [= <-]. by apply esc_frame_read.
  - destruct (pynwb_validate E p false) as [nwb|e0] eqn:Hnwb.
    2:{ intros [= <-]. by apply esc_pynwb. }
    unfold validate_asset_file. destruct sv as [s|].
    + destruct (String.eqb_spec s (get_schema_version E)) as [->|Hne]; simpl.
      * destruct (BareAsset_of E p) as [u|e1]; [done|].
        destruct (on_model_error_lenient p "Failed to read metadata: " e1)
          as (w & x & ->). done.
      * intros [= <-]. by eapply esc_asset_version.
    + destruct (get_metadata E p) as [meta|e1] eqn:Hmeta; [|done].
      simpl.
      destruct (_check_required_fields meta _required_nwb_metadata_fields)
        as [l|e2] eqn:Hchk; [done|].
      intros [= <-]. by eapply esc_legacy_not_mapping.
Qed.

(** Conversely each of these causes does end the validation of the
    file with that exception. *)
Lemma validate_file_escape_happens (p : string) (sv : option string)
    (e : exc) :
  escapes_lenient E sv p e → outcome (validate_file E p sv false) = Raise e.
Proof.
  intros Hesc. rewrite validate_file_by_role.
  destruct Hesc as [e Hrole Hload | meta e Hrole Hload Hget
                   | meta own Hrole Hload Hget Hown Hneq
                   | Hrole Hcv | e Hrole Hcv Hopen Hread
                   | e Hrole Hnwb | nwb s Hrole Hnwb -> Hne
                   | nwb meta e Hrole Hnwb -> Hmeta Hchk];
    rewrite Hrole.
  - unfold validate_dandiset_yaml. by rewrite Hload.
  - unfold validate_dandiset_yaml. by rewrite Hload, Hget.
  - unfold validate_dandiset_yaml. rewrite Hload, Hget.
    destruct own; try done; by rewrite Hneq.
  - unfold validate_movie_file. by rewrite Hcv.
  - unfold validate_movie_file. rewrite Hcv. simpl.
    rewrite andb_false_r, Hopen. simpl. by rewrite Hread.
  - by rewrite Hnwb.
  - rewrite Hnwb. unfold validate_asset_file.
    apply String.eqb_neq in Hne. by rewrite Hne.
  - rewrite Hnwb. unfold validate_asset_file. rewrite Hmeta. simpl.
    by rewrite Hchk.
Qed.

(** One [next()] at a time: draining the generator is a [validate_next]
    on the pending files, then the draining of the rest. *)
Lemma validate_drain_next (pending : list string) (sv : option string)
    (dd : bool) :
  validate_drain E pending sv dd
  = match validate_next E pending sv dd with
    | StopIteration => ([], None)
    | Yield p errs rest =>
        ((p, errs) :: (validate_drain E rest sv dd).1,
         (validate_drain E rest sv dd).2)
    | Escapes e => ([], Some e)
    end.
Proof.
  destruct pending as [|p rest]; [done|]. simpl.
  destruct (outcome (validate_file E p sv dd)); [|done].
  by destruct (validate_drain E rest sv dd).
Qed.

Lemma validate_drain_spec (files : list string) (sv : option string)
    (dd : bool) :
  let run := validate_drain E files sv dd in
  map fst run.1 `prefix_of` files
  ∧ (∀ p errs, (p, errs) ∈ run.1 →
       outcome (validate_file E p sv dd) = Ret errs)
  ∧ (run.2 = None → map fst run.1 = files)
  ∧ (∀ e, run.2 = Some e →
       ∃ p, files !! length run.1 = Some p
            ∧ outcome (validate_file E p sv dd) = Raise e).
Proof.
  induction files as [|p rest IH]; simpl.
  - repeat split; try done.
    intros p errs Hin. by apply elem_of_nil in Hin.
  - destruct (outcome (validate_file E p sv dd)) as [errs|e] eqn:Hout.
    + destruct (validate_drain E rest sv dd) as [ys halted].
      simpl in *. destruct IH as (Hpre & Hall & Hnone & Hsome).
      repeat split.
      * by apply prefix_cons.
      * intros q errs' Hin.
        apply elem_of_cons in Hin as [[= -> ->]|Hin]; [done | by apply Hall].
      * intros Hh. f_equal. by apply Hnone.
      * intros e Hh. by apply Hsome.
    + simpl. repeat split; try done.
      * apply prefix_nil.
      * intros q errs Hin. by apply elem_of_nil in Hin.
      * intros e' [= <-]. by exists p.
Qed.

End ValidateFacts.

(** C5: what the code does where the claim fails.  In lenient mode the
    descriptor of the dataset cannot be parsed.  Its exception is not
    caught: the sequence ends there, with no pair for the descriptor and
    none for the file that comes after it.  The asset that cannot be read
    shows what the claim describes and the sibling validator does: its
    exception is logged as a warning and comes back as a one-element
    problem list, and the sequence goes on. *)
Theorem lenient_validate_halts_on_unreadable_descriptor :
  validate broken_dataset ["ds/sub-1.nwb"; "ds/dandiset.yaml"; "ds/sub-2.nwb"]
    None false false
  = ([("ds/sub-1.nwb", [])],
     Some (Exc "ScannerError" "mapping values are not allowed here"))
  ∧ validate broken_dataset ["ds/sub-2.nwb"; "ds/sub-1.nwb"] None false false
    = ([("ds/sub-2.nwb", ["Failed to read metadata: Unable to open file"]);
        ("ds/sub-1.nwb", [])], None)
  ∧ warnings (validate_file broken_dataset "ds/sub-2.nwb" None false)
    = ["Failed to read metadata in ds/sub-2.nwb: Unable to open file"].
Proof. vm_compute. repeat split; reflexivity. Qed.

(** ** The validation cache *)

Section MemoFacts.
Context {R : Type}.
Implicit Types (validator : string → result R) (mtime : string → Z)
  (st : MemoState R).

Lemma memoize_path_hit validator mtime path st r :
  cache st !! path = Some (mtime path, r) →
  memoize_path validator mtime path st = (Ret r, st).
Proof. intros Hc. unfold memoize_path. rewrite Hc. by rewrite decide_True. Qed.

Lemma memoize_path_stale validator mtime path st t r :
  cache st !! path = Some (t, r) → t ≠ mtime path →
  memoize_path validator mtime path st
  = match validator path with
    | Ret r' =>
        (Ret r', {| cache := <[path := (mtime path, r')]> (cache st);
                    recomputed := S (recomputed st) |})
    | Raise e =>
        (Raise e, {| cache := cache st; recomputed := S (recomputed st) |})
    end.
Proof.
  intros Hc Hne. unfold memoize_path. rewrite Hc. by rewrite decide_False.
Qed.

Lemma memoize_path_stores validator mtime path st r st1 :
  memoize_path validator mtime path st = (Ret r, st1) →
  cache st1 !! path = Some (mtime path, r).
Proof.
  unfold memoize_path.
  assert (∀ x : result R * MemoState R,
            x = match validator path with
                | Ret r' =>
                    (Ret r',
                     {| cache := <[path := (mtime path, r')]> (cache st);
                        recomputed := S (recomputed st) |})
                | Raise e =>
                    (Raise e, {| cache := cache st;
                                 recomputed := S (recomputed st) |})
                end →
            x = (Ret r, st1) → cache st1 !! path = Some (mtime path, r))
    as Hrecompute.
  { intros x -> Hx. destruct (validator path) as [r'|e]; [|done].
    injection Hx as -> <-. simpl. apply lookup_insert_eq. }
  destruct (cache st !! path) as [[t r0]|] eqn:Hc.
  - destruct (decide (t = mtime path)) as [->|Hne].
    + intros [= -> ->]. exact Hc.
    + by apply Hrecompute.
  - by apply Hrecompute.
Qed.

(** After a call that returned: a call at the same timestamp returns the
    same result and leaves the state, counter included, as it is,
    whatever the validator would compute now; a call at another
    timestamp runs the validator once and stores what it returns. *)
Lemma memoize_path_again validator validator' mtime mtime' path st r st1 :
  memoize_path validator mtime path st = (Ret r, st1) →
  (mtime' path = mtime path →
   memoize_path validator' mtime' path st1 = (Ret r, st1))
  ∧ (mtime' path ≠ mtime path →
     ∃ st2, memoize_path validator' mtime' path st1 = (validator' path, st2)
       ∧ recomputed st2 = S (recomputed st1)
       ∧ ∀ r', validator' path = Ret r' →
           cache st2 !! path = Some (mtime' path, r')
           ∧ ∀ validator'',
               memoize_path validator'' mtime' path st2 = (Ret r', st2)).
Proof.
  intros Hfirst. apply memoize_path_stores in Hfirst as Hc. split.
  - intros Heq. apply memoize_path_hit. by rewrite Heq.
  - intros Hne.
    rewrite (memoize_path_stale validator' mtime' path st1 _ _ Hc)
      by congruence.
    destruct (validator' path) as [r'|e] eqn:Hv.
    + eexists. split; [reflexivity|]. split; [done|].
      intros r'' [= <-]. simpl. split; [apply lookup_insert_eq|].
      intros validator''. apply memoize_path_hit. simpl.
      apply lookup_insert_eq.
    + eexists. split; [reflexivity|]. split; [done|]. done.
Qed.

End MemoFacts.

(** C10.  For either memoized validator, after a call that returned a
    result: calling again while the file's modification timestamp is the
    same returns the same result without running the validator (the count
    of runs and the cache are unchanged, even if the validator would now
    answer differently); calling after the timestamp has changed runs the
    validator exactly once, returns what it computes and replaces the
    cache entry, so that the call after that is again served from the
    cache. *)
Theorem memoized_validators_follow_mtime
    (which : memoized) (E E' E'' : ValidateEnv) (mtime mtime' : string → Z)
    (sv : option string) (dd : bool) (path : string)
    (st st1 : MemoState (list string)) (r : list string) :
  memo_call which E mtime sv dd path st = (Ret r, st1) →
  (mtime' path = mtime path →
   memo_call which E' mtime' sv dd path st1 = (Ret r, st1))
  ∧ (mtime' path ≠ mtime path →
     ∃ st2,
       memo_call which E' mtime' sv dd path st1
       = (memo_body which E' sv dd path, st2)
       ∧ recomputed st2 = S (recomputed st1)
       ∧ ∀ r', memo_body which E' sv dd path = Ret r' →
           cache st2 !! path = Some (mtime' path, r')
           ∧ memo_call which E'' mtime' sv dd path st2 = (Ret r', st2)).
Proof.
  intros Hfirst. destruct which; simpl in *.
  - unfold validate_dandiset_yaml_memo in *.
    destruct (memoize_path_again _
                (fun p => outcome (validate_dandiset_yaml E' p sv dd))
                _ mtime' _ _ _ _ Hfirst) as [Hsame Hchanged].
    split; [exact Hsame|]. intros Hne.
    destruct (Hchanged Hne) as (st2 & Hcall & Hcount & Hentry).
    exists st2. split; [exact Hcall|]. split; [exact Hcount|].
    intros r' Hr'. destruct (Hentry r' Hr') as [Hc Hnext].
    split; [exact Hc | apply Hnext].
  - unfold validate_asset_file_memo in *.
    destruct (memoize_path_again _
                (fun p => outcome (validate_asset_file E' p sv dd))
                _ mtime' _ _ _ _ Hfirst) as [Hsame Hchanged].
    split; [exact Hsame|]. intros Hne.
    destruct (Hchanged Hne) as (st2 & Hcall & Hcount & Hentry).
    exists st2. split; [exact Hcall|]. split; [exact Hcount|].
    intros r' Hr'. destruct (Hentry r' Hr') as [Hc Hnext].
    split; [exact Hc | apply Hnext].
Qed.

Lemma memoized_validators_follow_mtime_witness :
  memo_call MemoAssetFile legacy_dataset (fun _ => 100%Z) None false
    "sub-1.nwb" memo_empty
  = (Ret [], {| cache := {["sub-1.nwb" := (100%Z, [])]}; recomputed := 1 |})
  ∧ memo_call MemoAssetFile legacy_dataset (fun _ => 100%Z) None false
      "sub-1.nwb"
      {| cache := {["sub-1.nwb" := (100%Z, [])]}; recomputed := 1 |}
    = (Ret [], {| cache := {["sub-1.nwb" := (100%Z, [])]}; recomputed := 1 |}).
Proof.
  assert (memo_call MemoAssetFile legacy_dataset (fun _ => 100%Z) None false
            "sub-1.nwb" memo_empty
          = (Ret [], {| cache := {["sub-1.nwb" := (100%Z, [])]};
                        recomputed := 1 |})) as Hfirst.
  { simpl. unfold validate_asset_file_memo, memoize_path. simpl.
    rewrite lookup_empty. reflexivity. }
  split; [exact Hfirst|].
  exact (proj1 (memoized_validators_follow_mtime MemoAssetFile
                  legacy_dataset legacy_dataset legacy_dataset
                  (fun _ => 100%Z) (fun _ => 100%Z) None false "sub-1.nwb"
                  _ _ _ Hfirst) eq_refl).
Defined.

(** ** The collector *)

Section CollectorFacts.
Variable E : LsEnv.


Lemma async_keys_spec schema fields (k : string) :
  k ∈ async_keys E schema fields
  ↔ k ∈ all_fields E schema ∧ (k ∉ common_fields)
    ∧ (match fields with Some F => k ∈ F | None => True end).
Proof.
  unfold async_keys. rewrite elem_of_elements.
  destruct fields as [F|]; set_solver.
Qed.

Lemma async_keys_sink fmt schema fields :
  async_keys E schema (sink_fields fmt fields) = async_keys E schema fields.
Proof.
  unfold sink_fields. destruct (bool_decide (fmt = Pyout)); [|done].
  destruct fields as [[|f0 fs]|]; try done.
  destruct (negb (String.eqb f0 "path")); [|done].
  unfold async_keys. f_equal. unfold common_fields. set_solver.
Qed.







Lemma digest_for_call path algo fake :
  (digest_for E path algo fake false).2 = [CallGetDigest path algo].
Proof. done. Qed.



(** A callback reads nothing of the ledger: what it returns and what it
    calls do not depend on it. *)
Lemma fn_extract_indep cb errors0 :
  (fn_extract E cb errors0).1.1 = (fn_extract E cb []).1.1
  ∧ (fn_extract E cb errors0).2 = (fn_extract E cb []).2.
Proof.
  unfold fn_extract.
  destruct (bool_decide (cb_keys cb = ["nwb_version"])); [done|].
  destruct (fetch_record E cb) as [[v|e] cs]; simpl; done.
Qed.

Lemma fn_finish_indep cb rec errors0 :
  (fn_finish E cb rec errors0).1.1 = (fn_finish E cb rec []).1.1
  ∧ (fn_finish E cb rec errors0).2 = (fn_finish E cb rec []).2.
Proof.
  unfold fn_finish. destruct (py_items rec) as [items|e]; [|done].
  destruct (negb (isdir E (cb_path cb)) && _ && _ && _); [|done].
  destruct (get_nwb_version E (cb_path cb)) as [v|e]; done.
Qed.

Lemma run_callback_indep cb errors0 :
  (run_callback E cb errors0).1.1 = (run_callback E cb []).1.1
  ∧ (run_callback E cb errors0).2 = (run_callback E cb []).2.
Proof.
  unfold run_callback.
  destruct (fn_extract_indep cb errors0) as [Hr Hc].
  destruct (fn_extract E cb errors0) as [[r1 e1] c1].
  destruct (fn_extract E cb []) as [[r2 e2] c2]. simpl in Hr, Hc. subst.
  destruct r2 as [rec|e]; [|done].
  destruct (fn_finish_indep cb rec e1) as [Hr Hc].
  destruct (fn_finish_indep cb rec e2) as [Hr' Hc'].
  destruct (fn_finish E cb rec e1) as [[r3 e3] c3].
  destruct (fn_finish E cb rec e2) as [[r4 e4] c4].
  simpl in *. split; congruence.
Qed.



End CollectorFacts.

Section LedgerFacts.

Lemma ledger_append_lists (errors0 : ledger) (kind : string) (a : asset) :
  ledger_lists (ledger_append errors0 kind a) kind a.
Proof.
  unfold ledger_lists, ledger_append. eexists.
  split; [apply dict_get_set_eq|]. apply elem_of_app. right.
  apply list_elem_of_singleton. done.
Qed.

Lemma ledger_append_keeps (errors0 : ledger) (kind kind' : string)
    (a a' : asset) :
  ledger_lists errors0 kind a →
  ledger_lists (ledger_append errors0 kind' a') kind a.
Proof.
  intros (l & Hl & Hin). unfold ledger_lists, ledger_append.
  destruct (decide (kind = kind')) as [<-|Hne].
  - rewrite dict_get_set_eq, Hl. simpl. eexists. split; [done|].
    apply elem_of_app. by left.
  - rewrite dict_get_set_ne by done. by exists l.
Qed.

Lemma add_exc_error_ledger (a : asset) (rec : pydict) (errors0 : ledger)
    (e : exc) :
  (_add_exc_error a rec errors0 e).2 = ledger_append errors0 (exc_type e) a.
Proof. done. Qed.

(** On a record without an [errors] entry the counter starts at 1. *)
Lemma add_exc_error_fresh (a : asset) (rec : pydict) (errors0 : ledger)
    (e : exc) :
  dict_get "errors" rec = None →
  _add_exc_error a rec errors0 e
  = (Ret (dict_set rec "errors" (VInt 1)),
     ledger_append errors0 (exc_type e) a).
Proof. intros Hn. unfold _add_exc_error. by rewrite Hn. Qed.

End LedgerFacts.

Section DictMore.
Context {K V : Type} `{EqDecision K}.

Lemma dict_set_nonempty (d : list (K * V)) (k : K) (v : V) :
  dict_set d k v ≠ [].
Proof. destruct d as [|[k' v'] d]; simpl; [done|]. by destruct (decide _). Qed.

Lemma fold_dict_set_keys {A : Type} (key : A → K) (val : A → V)
    (items : list A) (d : list (K * V)) (k : K) :
  k ∈ dict_keys d →
  k ∈ dict_keys (fold_left (fun o i => dict_set o (key i) (val i)) items d).
Proof.
  revert d. induction items as [|i items IH]; intros d Hk; [done|].
  simpl. apply IH. apply dict_keys_set. by right.
Qed.

End DictMore.

Section LoopFacts.
Variable E : LsEnv.
Variables (fmt : format) (fields : option (list string))
  (schema : option string) (use_fake_digest : bool) (keys : list string).

Let resolve := resolve_path E fmt fields schema use_fake_digest keys.
Let step := ls_step E fmt fields schema use_fake_digest keys.
Let loop := ls_loop E fmt fields schema use_fake_digest keys.

Lemma sized_record_facts (p : string) (rec1 : pydict) :
  sized_record E fields p = Ret rec1 →
  "path" ∈ dict_keys rec1 ∧ dict_get "errors" rec1 = None.
Proof.
  unfold sized_record.
  destruct (wants_size fields && negb (isdir E p)).
  - destruct (stat_size E p) as [sz|e]; [|done]. intros [= <-].
    split; [simpl; apply elem_of_cons; by left | done].
  - intros [= <-]. split; [apply elem_of_cons; by left | done].
Qed.

(** The four ways the [try] block of a path asset ends. *)
Lemma resolve_path_cases (p : string) (errors0 : ledger) :
  (∃ e, sized_record E fields p = Raise e
        ∧ resolve p errors0
          = ({| rec_entries := [("path", VStr p)]; rec_deferred := None |},
             Some e, errors0, []))
  ∨ (∃ rec1, sized_record E fields p = Ret rec1 ∧ keys = []
       ∧ resolve p errors0
         = ({| rec_entries := rec1; rec_deferred := None |},
            None, errors0, []))
  ∨ (∃ rec1, sized_record E fields p = Ret rec1 ∧ keys ≠ [] ∧ fmt = Pyout
       ∧ resolve p errors0
         = ({| rec_entries := rec1;
               rec_deferred :=
                 Some (keys, get_metadata_ls p keys true schema
                               use_fake_digest) |},
            None, errors0, []))
  ∨ (∃ rec1, sized_record E fields p = Ret rec1 ∧ keys ≠ [] ∧ fmt ≠ Pyout
       ∧ let cb := get_metadata_ls p keys false schema use_fake_digest in
         resolve p errors0
         = match run_callback E cb errors0 with
           | (Raise e, errors1, cs) =>
               ({| rec_entries := rec1; rec_deferred := None |},
                Some e, errors1, cs)
           | (Ret cb_res, errors1, cs) =>
               ({| rec_entries :=
                     fold_left (fun o i => dict_set o (fst i) (snd i))
                       cb_res rec1;
                   rec_deferred := None |},
                None, errors1, cs)
           end).
Proof.
  unfold resolve, resolve_path.
  destruct (sized_record E fields p) as [rec1|e]; [|left; by eexists].
  right. destruct keys as [|k ks] eqn:Hkeys; [left; by eexists|].
  right. destruct (bool_decide (fmt = Pyout)) eqn:Hfmt.
  - apply bool_decide_eq_true in Hfmt. left. by eexists.
  - apply bool_decide_eq_false in Hfmt. right. by eexists.
Qed.

Lemma fn_extract_ledger cb errors0 kind a :
  ledger_lists errors0 kind a →
  ledger_lists (fn_extract E cb errors0).1.2 kind a.
Proof.
  intros Hl. unfold fn_extract.
  destruct (bool_decide (cb_keys cb = ["nwb_version"])); [done|].
  destruct (fetch_record E cb) as [[v|e] cs]; simpl; [done|].
  by apply ledger_append_keeps.
Qed.

Lemma fn_finish_ledger cb rec errors0 kind a :
  ledger_lists errors0 kind a →
  ledger_lists (fn_finish E cb rec errors0).1.2 kind a.
Proof.
  intros Hl. unfold fn_finish.
  destruct (py_items rec) as [items|e]; [|done].
  destruct (negb (isdir E (cb_path cb)) && _ && _ && _); [|done].
  destruct (get_nwb_version E (cb_path cb)) as [v|e]; simpl; [done|].
  by apply ledger_append_keeps.
Qed.

Lemma run_callback_ledger cb errors0 kind a :
  ledger_lists errors0 kind a →
  ledger_lists (run_callback E cb errors0).1.2 kind a.
Proof.
  intros Hl. unfold run_callback.
  pose proof (fn_extract_ledger cb errors0 kind a Hl) as H1.
  destruct (fn_extract E cb errors0) as [[[rec|e] errors1] cs];
    simpl in H1; [|done].
  pose proof (fn_finish_ledger cb rec errors1 kind a H1) as H2.
  by destruct (fn_finish E cb rec errors1) as [[r errors2] cs'].
Qed.

Lemma rec_not_empty (entries : pydict) d :
  entries ≠ [] →
  rec_is_empty {| rec_entries := entries; rec_deferred := d |} = false.
Proof. by destruct entries. Qed.

Lemma keys_nonempty (d : pydict) (k : string) : k ∈ dict_keys d → d ≠ [].
Proof. intros Hk ->. by apply elem_of_nil in Hk. Qed.

(** A turn of the loop on a path asset never raises and always hands a
    record with a [path] entry to the sink. *)
Lemma ls_step_path (p : string) (st : LsState) :
  ∃ rec errors1 cs,
    step (APath p) st
    = ({| emitted := emitted st ++ [rec]; errors := errors1;
          calls := calls st ++ cs |}, None)
    ∧ "path" ∈ dict_keys (rec_entries rec)
    ∧ (∀ kind a, ledger_lists (errors st) kind a →
                 ledger_lists errors1 kind a)
    ∧ (rec_deferred rec = None
       ∨ (keys ≠ []
          ∧ rec_deferred rec
            = Some (keys, get_metadata_ls p keys true schema
                            use_fake_digest)))
    ∧ (cs = []
       ∨ (keys ≠ []
          ∧ cs = (run_callback E
                    (get_metadata_ls p keys false schema use_fake_digest)
                    (errors st)).2)).
Proof.
  unfold step, ls_step.
  destruct (resolve_path_cases p (errors st))
    as [(e & Hs & Hr) | [(rec1 & Hs & Hk & Hr)
       | [(rec1 & Hs & Hk & Hf & Hr) | (rec1 & Hs & Hk & Hf & Hr)]]].
  - unfold resolve in Hr. rewrite Hr. cbn [rec_entries rec_deferred].
    rewrite add_exc_error_fresh by done. cbn [fmap result_fmap].
    do 3 eexists. split; [reflexivity|].
    split; [apply elem_of_cons; by left|].
    split; [intros kind a; apply ledger_append_keeps|].
    split; by left.
  - unfold resolve in Hr. rewrite Hr.
    destruct (sized_record_facts p rec1 Hs) as [Hpath _].
    rewrite rec_not_empty by (by eapply keys_nonempty).
    do 3 eexists. split; [reflexivity|]. split; [exact Hpath|].
    split; [done|]. split; by left.
  - unfold resolve in Hr. rewrite Hr.
    destruct (sized_record_facts p rec1 Hs) as [Hpath _].
    rewrite rec_not_empty by (by eapply keys_nonempty).
    do 3 eexists. split; [reflexivity|]. split; [exact Hpath|].
    split; [done|]. split; [right; by split | by left].
  - unfold resolve in Hr. cbv zeta in Hr. rewrite Hr.
    destruct (sized_record_facts p rec1 Hs) as [Hpath Hnoerr].
    pose proof (run_callback_ledger
                  (get_metadata_ls p keys false schema use_fake_digest)
                  (errors st)) as Hmono.
    destruct (run_callback E _ (errors st)) as [[[cb_res|e] errors1] cs].
    + assert ("path" ∈ dict_keys
                (fold_left (fun o i => dict_set o i.1 i.2) cb_res rec1))
        as Hpath' by (by apply fold_dict_set_keys).
      rewrite rec_not_empty by (by eapply keys_nonempty).
      do 3 eexists. split; [reflexivity|]. split; [exact Hpath'|].
      split; [exact Hmono|]. split; [by left | right; by split].
    + cbn [rec_entries rec_deferred].
      rewrite add_exc_error_fresh by done. cbn [fmap result_fmap].
      rewrite rec_not_empty by apply dict_set_nonempty.
      do 3 eexists. split; [reflexivity|].
      split; [apply dict_keys_set; by right|].
      split; [intros kind a Hl; by apply ledger_append_keeps, Hmono|].
      split; [by left | right; by split].
Qed.

(** A turn of the loop on a ready record makes no call and touches the
    ledger only to list the record as empty. *)
Lemma ls_step_record (r : pydict) (st : LsState) :
  ∃ st' oe,
    step (ARecord r) st = (st', oe)
    ∧ calls st' = calls st
    ∧ (emitted st' = emitted st
       ∨ emitted st'
         = emitted st ++ [{| rec_entries := r; rec_deferred := None |}])
    ∧ (∀ kind a, ledger_lists (errors st) kind a →
                 ledger_lists (errors st') kind a).
Proof.
  unfold step, ls_step.
  assert (∀ oe : option exc,
    ∃ (st' : LsState) (oe' : option exc),
      (if rec_is_empty {| rec_entries := r; rec_deferred := None |}
       then ({| emitted := emitted st;
                errors := ledger_append (errors st) "Empty record"
                            (ARecord r);
                calls := calls st ++ [] |}, oe)
       else ({| emitted := emitted st
                           ++ [{| rec_entries := r; rec_deferred := None |}];
                errors := errors st; calls := calls st ++ [] |}, oe))
      = (st', oe')
      ∧ calls st' = calls st
      ∧ (emitted st' = emitted st
         ∨ emitted st'
           = emitted st ++ [{| rec_entries := r; rec_deferred := None |}])
      ∧ (∀ kind a, ledger_lists (errors st) kind a →
                   ledger_lists (errors st') kind a)) as Hok.
  { intros oe. destruct (rec_is_empty _); do 2 eexists;
      (split; [reflexivity|]); simpl; rewrite app_nil_r;
      (split; [done|]).
    - split; [by left|]. intros kind a. apply ledger_append_keeps.
    - split; [by right | done]. }
  destruct schema as [s|]; [|apply (Hok None)].
  destruct (negb (py_eq_str _ s)); [|apply (Hok None)].
  do 2 eexists. split; [reflexivity|]. simpl. rewrite app_nil_r.
  split; [done|]. split; [by left | done].
Qed.



End LoopFacts.


(** ** Failure isolation and empty records *)

Section IsolationFacts.
Variable E : LsEnv.
Variables (fmt : format) (fields : option (list string))
  (schema : option string) (use_fake_digest : bool) (keys : list string).

Let step := ls_step E fmt fields schema use_fake_digest keys.
Let loop := ls_loop E fmt fields schema use_fake_digest keys.

Lemma sized_record_raises (p : string) (e : exc) :
  wants_size fields = true → isdir E p = false → stat_size E p = Raise e →
  sized_record E fields p = Raise e.
Proof. intros Hw Hd Hs. unfold sized_record. by rewrite Hw, Hd, Hs. Qed.

(** The cheap pass fails: the asset is ledgered under the type name of
    the exception and its record, with the counter at 1, is emitted. *)
Lemma ls_step_stat_failure (p : string) (e : exc) (st : LsState) :
  sized_record E fields p = Raise e →
  step (APath p) st
  = ({| emitted :=
          emitted st
          ++ [{| rec_entries := [("path", VStr p); ("errors", VInt 1)];
                 rec_deferred := None |}];
        errors := ledger_append (errors st) (exc_type e) (APath p);
        calls := calls st |}, None).
Proof.
  intros Hs. unfold step, ls_step, resolve_path. rewrite Hs.
  cbn [rec_entries rec_deferred].
  rewrite add_exc_error_fresh by done. cbn [fmap result_fmap].
  by rewrite app_nil_r.
Qed.

(** An exception escapes the callback that [ls] runs itself: same
    treatment, on the record as the cheap pass left it. *)
Lemma ls_step_callback_escape (p : string) (e : exc) (st : LsState)
    (rec1 : pydict) (errors1 : ledger) (cs : list call) :
  fmt ≠ Pyout → keys ≠ [] → sized_record E fields p = Ret rec1 →
  run_callback E (get_metadata_ls p keys false schema use_fake_digest)
    (errors st) = (Raise e, errors1, cs) →
  step (APath p) st
  = ({| emitted :=
          emitted st
          ++ [{| rec_entries := dict_set rec1 "errors" (VInt 1);
                 rec_deferred := None |}];
        errors := ledger_append errors1 (exc_type e) (APath p);
        calls := calls st ++ cs |}, None).
Proof.
  intros Hf Hk Hs Hcb. unfold step, ls_step, resolve_path. rewrite Hs.
  destruct keys as [|k ks] eqn:Hkeys; [done|].
  rewrite bool_decide_false by done. rewrite Hcb.
  cbn [rec_entries rec_deferred].
  destruct (sized_record_facts E fields p rec1 Hs) as [_ Hnoerr].
  rewrite add_exc_error_fresh by done. cbn [fmap result_fmap].
  by rewrite rec_not_empty by apply dict_set_nonempty.
Qed.

(** A failure of the bulk extraction is caught inside the callback and
    ledgered there, under its type name, with the path. *)
Lemma run_callback_ledgers_bulk_failure (cb : callback) (e : exc)
    (errors0 : ledger) :
  cb_keys cb ≠ ["nwb_version"] → (fetch_record E cb).1 = Raise e →
  ledger_lists (run_callback E cb errors0).1.2 (exc_type e)
    (APath (cb_path cb)).
Proof.
  intros Hk Hf.
  assert (ledger_lists (fn_extract E cb errors0).1.2 (exc_type e)
            (APath (cb_path cb))) as H1.
  { unfold fn_extract. rewrite bool_decide_false by done.
    destruct (fetch_record E cb) as [fetched cs]. simpl in Hf. subst fetched.
    simpl. apply ledger_append_lists. }
  unfold run_callback.
  destruct (fn_extract E cb errors0) as [[[rec|e'] errors1] cs];
    simpl in H1; [|done].
  pose proof (fn_finish_ledger E cb rec errors1 _ _ H1) as H2.
  by destruct (fn_finish E cb rec errors1) as [[r errors2] cs'].
Qed.

(** Over path assets the loop ends normally with one record each. *)
Lemma ls_loop_paths (assets : list asset) (st : LsState) :
  (∀ a, a ∈ assets → ∃ p, a = APath p) →
  (loop assets st).2 = None
  ∧ length (emitted (loop assets st).1)
    = length (emitted st) + length assets.
Proof.
  revert st. induction assets as [|a rest IH]; intros st Hall.
  - simpl. split; [done | lia].
  - destruct (Hall a) as [p ->]; [apply elem_of_cons; by left|].
    unfold loop in *. simpl.
    destruct (ls_step_path E fmt fields schema use_fake_digest keys p st)
      as (rec & errors1 & cs & Hstep & _).
    rewrite Hstep.
    destruct (IH {| emitted := emitted st ++ [rec]; errors := errors1;
                    calls := calls st ++ cs |}) as [Hnone Hlen].
    { intros a Ha. apply Hall. apply elem_of_cons. by right. }
    split; [exact Hnone|]. rewrite Hlen. simpl.
    rewrite length_app. simpl. lia.
Qed.

Lemma ls_step_ledger_keeps (a : asset) (st : LsState) (kind : string)
    (x : asset) :
  ledger_lists (errors st) kind x →
  ledger_lists (errors (step a st).1) kind x.
Proof.
  intros Hl. destruct a as [p|r].
  - destruct (ls_step_path E fmt fields schema use_fake_digest keys p st)
      as (rec & errors1 & cs & Hstep & _ & Hmono & _).
    unfold step. rewrite Hstep. simpl. by apply Hmono.
  - destruct (ls_step_record E fmt fields schema use_fake_digest keys r st)
      as (st' & oe & Hstep & _ & _ & Hmono).
    unfold step. rewrite Hstep. simpl. by apply Hmono.
Qed.

Lemma ls_loop_ledger_keeps (assets : list asset) (st : LsState)
    (kind : string) (x : asset) :
  ledger_lists (errors st) kind x →
  ledger_lists (errors (loop assets st).1) kind x.
Proof.
  revert st. induction assets as [|a rest IH]; intros st Hl; [done|].
  unfold loop in *. simpl.
  pose proof (ls_step_ledger_keeps a st kind x Hl) as Hstep.
  unfold step in Hstep.
  destruct (ls_step E fmt fields schema use_fake_digest keys a st)
    as [st' [e|]]; simpl in *; [done | by apply IH].
Qed.

End IsolationFacts.


Lemma ls_loop_cons (E : LsEnv) (fmt : format)
    (fields : option (list string)) (schema : option string)
    (use_fake_digest : bool) (keys : list string) (a : asset)
    (rest : list asset) (st : LsState) :
  ls_loop E fmt fields schema use_fake_digest keys (a :: rest) st
  = match ls_step E fmt fields schema use_fake_digest keys a st with
    | (st', Some e) => (st', Some e)
    | (st', None) =>
        ls_loop E fmt fields schema use_fake_digest keys rest st'
    end.
Proof. reflexivity. Qed.

(** ** The loop of [ls]: what a turn can do *)

Section StepOutcomes.
Variable E : LsEnv.
Variables (fmt : format) (fields : option (list string))
  (schema : option string) (use_fake_digest : bool) (keys : list string).

Let step := ls_step E fmt fields schema use_fake_digest keys.
Let loop := ls_loop E fmt fields schema use_fake_digest keys.

Lemma sized_record_path (p : string) (rec1 : pydict) :
  sized_record E fields p = Ret rec1 → dict_get "path" rec1 = Some (VStr p).
Proof.
  unfold sized_record. destruct (wants_size fields && negb (isdir E p)).
  - destruct (stat_size E p) as [sz|e]; [|done]. by intros [= <-].
  - by intros [= <-].
Qed.

(** The five ways a turn on a path asset ends, each with the state it
    leaves: the cheap pass fails; no expensive key; the callback is
    deferred; the callback ran and returned; the callback ran and an
    exception escaped it. *)
Lemma ls_step_path_outcomes (p : string) (st : LsState) :
  (∃ e, sized_record E fields p = Raise e
     ∧ step (APath p) st
       = ({| emitted :=
               emitted st
               ++ [{| rec_entries := [("path", VStr p); ("errors", VInt 1)];
                      rec_deferred := None |}];
             errors := ledger_append (errors st) (exc_type e) (APath p);
             calls := calls st |}, None))
  ∨ (∃ rec1, sized_record E fields p = Ret rec1 ∧ keys = []
       ∧ step (APath p) st
         = ({| emitted := emitted st
                          ++ [{| rec_entries := rec1; rec_deferred := None |}];
               errors := errors st; calls := calls st |}, None))
  ∨ (∃ rec1, sized_record E fields p = Ret rec1 ∧ keys ≠ [] ∧ fmt = Pyout
       ∧ step (APath p) st
         = ({| emitted :=
                 emitted st
                 ++ [{| rec_entries := rec1;
                        rec_deferred :=
                          Some (keys, get_metadata_ls p keys true schema
                                        use_fake_digest) |}];
               errors := errors st; calls := calls st |}, None))
  ∨ (∃ rec1 cb_res errors1 cs,
       sized_record E fields p = Ret rec1 ∧ keys ≠ [] ∧ fmt ≠ Pyout
       ∧ run_callback E (get_metadata_ls p keys false schema use_fake_digest)
           (errors st) = (Ret cb_res, errors1, cs)
       ∧ step (APath p) st
         = ({| emitted :=
                 emitted st
                 ++ [{| rec_entries :=
                          fold_left (fun o i => dict_set o (fst i) (snd i))
                            cb_res rec1;
                        rec_deferred := None |}];
               errors := errors1; calls := calls st ++ cs |}, None))
  ∨ (∃ rec1 e errors1 cs,
       sized_record E fields p = Ret rec1 ∧ keys ≠ [] ∧ fmt ≠ Pyout
       ∧ run_callback E (get_metadata_ls p keys false schema use_fake_digest)
           (errors st) = (Raise e, errors1, cs)
       ∧ step (APath p) st
         = ({| emitted :=
                 emitted st
                 ++ [{| rec_entries := dict_set rec1 "errors" (VInt 1);
                        rec_deferred := None |}];
               errors := ledger_append errors1 (exc_type e) (APath p);
               calls := calls st ++ cs |}, None)).
Proof.
  destruct (resolve_path_cases E fmt fields schema use_fake_digest keys p
              (errors st))
    as [(e & Hs & Hr) | [(rec1 & Hs & Hk & Hr)
       | [(rec1 & Hs & Hk & Hf & Hr) | (rec1 & Hs & Hk & Hf & Hr)]]].
  - left. exists e. split; [done|]. by apply ls_step_stat_failure.
  - right. left. exists rec1. split; [done|]. split; [done|].
    unfold step, ls_step. rewrite Hr.
    destruct (sized_record_facts E fields p rec1 Hs) as [Hpath _].
    rewrite rec_not_empty by (by eapply keys_nonempty).
    by rewrite app_nil_r.
  - right. right. left. exists rec1. do 3 (split; [done|]).
    unfold step, ls_step. rewrite Hr.
    destruct (sized_record_facts E fields p rec1 Hs) as [Hpath _].
    rewrite rec_not_empty by (by eapply keys_nonempty).
    by rewrite app_nil_r.
  - right. right. right. cbv zeta in Hr.
    destruct (run_callback E _ (errors st)) as [[[cb_res|e] errors1] cs]
      eqn:Hcb.
    + left. exists rec1, cb_res, errors1, cs. do 4 (split; [done|]).
      unfold step, ls_step. rewrite Hr.
      destruct (sized_record_facts E fields p rec1 Hs) as [Hpath _].
      assert ("path" ∈ dict_keys
                (fold_left (fun o i => dict_set o i.1 i.2) cb_res rec1))
        as Hpath' by (by apply fold_dict_set_keys).
      by rewrite rec_not_empty by (by eapply keys_nonempty).
    + right. exists rec1, e, errors1, cs. do 4 (split; [done|]).
      by apply ls_step_callback_escape.
Qed.

(** The three ways a turn on a ready record ends: a schema is requested
    and the record's version is another one; the record is empty; the
    record is passed on. *)
Lemma ls_step_record_outcomes (r : pydict) (st : LsState) :
  (∃ s, schema = Some s
     ∧ py_eq_str (default VNone (dict_get "schemaVersion" r)) s = false
     ∧ step (ARecord r) st
       = ({| emitted := emitted st; errors := errors st; calls := calls st |},
          Some (conversion_not_implemented
                  (default VNone (dict_get "schemaVersion" r)) s)))
  ∨ (r = []
     ∧ step (ARecord r) st
       = ({| emitted := emitted st;
             errors := ledger_append (errors st) "Empty record" (ARecord r);
             calls := calls st |}, None))
  ∨ (r ≠ []
     ∧ step (ARecord r) st
       = ({| emitted := emitted st
                        ++ [{| rec_entries := r; rec_deferred := None |}];
             errors := errors st; calls := calls st |}, None)).
Proof.
  unfold step, ls_step.
  assert (∀ oe : option exc,
    (r = []
     ∧ (if rec_is_empty {| rec_entries := r; rec_deferred := None |}
        then ({| emitted := emitted st;
                 errors := ledger_append (errors st) "Empty record"
                             (ARecord r);
                 calls := calls st ++ [] |}, oe)
        else ({| emitted := emitted st
                            ++ [{| rec_entries := r; rec_deferred := None |}];
                 errors := errors st; calls := calls st ++ [] |}, oe))
       = ({| emitted := emitted st;
             errors := ledger_append (errors st) "Empty record" (ARecord r);
             calls := calls st |}, oe))
    ∨ (r ≠ []
       ∧ (if rec_is_empty {| rec_entries := r; rec_deferred := None |}
          then ({| emitted := emitted st;
                   errors := ledger_append (errors st) "Empty record"
                               (ARecord r);
                   calls := calls st ++ [] |}, oe)
          else ({| emitted := emitted st
                              ++ [{| rec_entries := r;
                                     rec_deferred := None |}];
                   errors := errors st; calls := calls st ++ [] |}, oe))
         = ({| emitted := emitted st
                          ++ [{| rec_entries := r; rec_deferred := None |}];
               errors := errors st; calls := calls st |}, oe))) as Hok.
  { intros oe. destruct r as [|i r]; simpl; rewrite app_nil_r;
      [left | right]; by split. }
  destruct schema as [s|]; [|right; apply (Hok None)].
  destruct (py_eq_str _ s) eqn:Heq; simpl.
  - right. apply (Hok None).
  - left. exists s. split; [done|]. split; [done|]. by rewrite app_nil_r.
Qed.

(** Only a ready record of another schema version makes a turn raise. *)
Lemma ls_step_raise_cause (a : asset) (st st' : LsState) (e : exc) :
  step a st = (st', Some e) →
  ∃ r s, a = ARecord r ∧ schema = Some s
    ∧ py_eq_str (default VNone (dict_get "schemaVersion" r)) s = false
    ∧ e = conversion_not_implemented
            (default VNone (dict_get "schemaVersion" r)) s.
Proof.
  destruct a as [p|r].
  - destruct (ls_step_path E fmt fields schema use_fake_digest keys p st)
      as (rec & errors1 & cs & Hstep & _).
    unfold step. rewrite Hstep. done.
  - destruct (ls_step_record_outcomes r st)
      as [(s & Hs & Heq & Hstep) | [[_ Hstep] | [_ Hstep]]];
      rewrite Hstep; intros [= <- <-]. by exists r, s.
Qed.

Lemma ls_loop_raise_cause (assets : list asset) (st : LsState) (e : exc) :
  (loop assets st).2 = Some e →
  ∃ r s, ARecord r ∈ assets ∧ schema = Some s
    ∧ py_eq_str (default VNone (dict_get "schemaVersion" r)) s = false
    ∧ e = conversion_not_implemented
            (default VNone (dict_get "schemaVersion" r)) s.
Proof.
  revert st. induction assets as [|a rest IH]; intros st; [done|].
  unfold loop in *. rewrite ls_loop_cons.
  destruct (ls_step E fmt fields schema use_fake_digest keys a st)
    as [st' [e'|]] eqn:Hstep.
  - simpl. intros [= ->].
    destruct (ls_step_raise_cause a st st' e Hstep)
      as (r & s & -> & Hs & Heq & He).
    exists r, s. split; [apply elem_of_cons; by left | done].
  - intros Hl. destruct (IH st' Hl) as (r & s & Hin & Hrest).
    exists r, s. split; [apply elem_of_cons; by right | done].
Qed.

End StepOutcomes.



Lemma restrict_keys_sub (keys : list string) (items : pydict) (k : string) :
  k ∈ dict_keys (restrict_keys keys items) → k ∈ keys.
Proof.
  unfold restrict_keys.
  assert (∀ acc,
            (∀ k, k ∈ dict_keys acc → k ∈ keys) →
            ∀ k, k ∈ dict_keys
                       (fold_left
                          (fun o i => if str_in (fst i) keys
                                      then dict_set o (fst i) (snd i) else o)
                          items acc) → k ∈ keys) as Hgen.
  { induction items as [|[f v] items IH]; intros acc Hacc; [done|].
    simpl. apply IH. destruct (str_in f keys) eqn:Hf; [|done].
    intros k' Hk'. apply dict_keys_set in Hk' as [->|Hk']; [|by apply Hacc].
    unfold str_in in Hf. apply existsb_exists in Hf as (x & Hx & Heq).
    apply String.eqb_eq in Heq as <-. by apply list_elem_of_In. }
  apply Hgen. intros k' Hk'. by apply elem_of_nil in Hk'.
Qed.

Lemma fn_finish_keys (E : LsEnv) (cb : callback) (rec0 : pyval)
    (errors0 : ledger) (rec : pydict) (k : string) :
  (fn_finish E cb rec0 errors0).1.1 = Ret rec → k ∈ dict_keys rec →
  k ∈ cb_keys cb ∨ k = "errors".
Proof.
  unfold fn_finish. destruct (py_items rec0) as [items|e]; [|done].
  destruct (negb (isdir E (cb_path cb)) && _ && _ && _) eqn:Hc.
  - apply andb_true_iff in Hc as [_ Hc].
    apply andb_true_iff in Hc as [_ Hin].
    assert ("nwb_version" ∈ cb_keys cb) as Hk.
    { unfold str_in in Hin. apply existsb_exists in Hin as (x & Hx & Heq).
      apply String.eqb_eq in Heq as <-. by apply list_elem_of_In. }
    destruct (get_nwb_version E (cb_path cb)) as [v|e]; simpl.
    + intros [= <-] Hin'. apply dict_keys_set in Hin' as [->|Hin'];
        [by left|]. left. by eapply restrict_keys_sub.
    + unfold _add_exc_error.
      destruct (py_add1 _) as [n|e']; simpl; [|done].
      intros [= <-] Hin'. apply dict_keys_set in Hin' as [->|Hin'];
        [by right|]. left. by eapply restrict_keys_sub.
  - simpl. intros [= <-] Hin'. left. by eapply restrict_keys_sub.
Qed.

Lemma run_callback_keys (E : LsEnv) (cb : callback) (errors0 : ledger)
    (rec : pydict) (k : string) :
  (run_callback E cb errors0).1.1 = Ret rec → k ∈ dict_keys rec →
  k ∈ cb_keys cb ∨ k = "errors".
Proof.
  unfold run_callback.
  destruct (fn_extract E cb errors0) as [[[rec0|e] errors1] cs]; [|done].
  pose proof (fn_finish_keys E cb rec0 errors1 rec k) as Hf.
  destruct (fn_finish E cb rec0 errors1) as [[r errors2] cs']. exact Hf.
Qed.

Section EagerCalls.
Variable E : LsEnv.
Variables (fmt : format) (fields : option (list string))
  (schema : option string) (use_fake_digest : bool) (keys : list string).

Let step := ls_step E fmt fields schema use_fake_digest keys.
Let loop := ls_loop E fmt fields schema use_fake_digest keys.



End EagerCalls.




(** Which collaborators run depends on the request: with only
    [nwb_version] requested the bulk extraction is skipped; with only
    [session_id] requested the digest and the extraction run and the
    reader of the NWB version does not. *)
Example ls_calls_scenario :
  calls (run_state (ls failing_extraction [APath "sub-1.nwb"] None false
                      (Some ["nwb_version"]) Json))
  = [CallGetNwbVersion "sub-1.nwb"]
  ∧ calls (run_state (ls failing_extraction [APath "sub-1.nwb"] None false
                        (Some ["session_id"]) Json))
    = [CallGetDigest "sub-1.nwb" "dandi-etag"; CallGetMetadata "sub-1.nwb"]
  ∧ calls (run_state (ls failing_extraction [APath "sub-1.nwb"] None false
                        (Some ["size"]) Json))
    = [].
Proof. vm_compute. repeat split; reflexivity. Qed.



(** The scenario of the spec: an existing empty file and a missing one,
    [path] and [size] requested.  Two records; the first has size 0 and no
    error; the second has no size and its counter at 1; the ledger lists the
    missing path under [FileNotFoundError]. *)
Example ls_missing_path_scenario :
  let run := ls one_missing_file [APath "empty.nwb"; APath "missing.nwb"]
               None false (Some ["path"; "size"]) Json in
  map rec_entries (emitted (run_state run))
  = [[("path", VStr "empty.nwb"); ("size", VInt 0)];
     [("path", VStr "missing.nwb"); ("errors", VInt 1)]]
  ∧ errors (run_state run) = [("FileNotFoundError", [APath "missing.nwb"])]
  ∧ run_raised run = None.
Proof. vm_compute. repeat split; reflexivity. Qed.

(** An exception that escapes the callback: the metadata of the dandiset
    is [None], whose [items] the key filter asks for.  It is caught at the
    boundary in [ls]. *)
Example ls_callback_escape_scenario :
  let run := ls bare_directory [APath "ds"] (Some "0.6.0") false None Json in
  map rec_entries (emitted (run_state run))
  = [[("path", VStr "ds"); ("errors", VInt 1)]]
  ∧ errors (run_state run) = [("AttributeError", [APath "ds"])]
  ∧ run_raised run = None.
Proof. vm_compute. repeat split; reflexivity. Qed.

(** C1: what the code does where the claim fails.  The bulk extraction
    of the one asset fails inside the callback.  The loop ends normally,
    the asset is ledgered under [ValueError] and its record is emitted,
    with its size and the NWB version that the fallback read; but the
    record has no [errors] entry: the counter that [_add_exc_error] set on
    the callback's own record is dropped by the key filter that follows.
    When it is the reader of the NWB version that fails, after the
    filter, the same helper leaves the counter on the record that is
    emitted. *)
Theorem bulk_failure_record_has_no_error_counter :
  (let run := ls failing_extraction [APath "sub-1.nwb"] None true None Json in
   run_raised run = None
   ∧ errors (run_state run) = [("ValueError", [APath "sub-1.nwb"])]
   ∧ map rec_entries (emitted (run_state run))
     = [[("path", VStr "sub-1.nwb"); ("size", VInt 10);
         ("nwb_version", VStr "2.0.0")]]
   ∧ Forall (fun r => dict_get "errors" (rec_entries r) = None)
       (emitted (run_state run)))
  ∧ (let run :=
       ls failing_version_reader [APath "sub-1.nwb"] None true None Json in
     run_raised run = None
     ∧ errors (run_state run) = [("ValueError", [APath "sub-1.nwb"])]
     ∧ map rec_entries (emitted (run_state run))
       = [[("path", VStr "sub-1.nwb"); ("size", VInt 10);
           ("session_id", VStr "s1"); ("errors", VInt 1)]]).
Proof.
  split; vm_compute; repeat split; try reflexivity.
  repeat constructor.
Qed.

(** * Further properties *)

(** ** Required fields: when a mapping is clean *)

(** [_check_required_fields] on a mapping always returns; it reports at
    most one problem per required field, and none at all exactly when
    every required field holds a usable value: present, not valueless
    (white space being what [str.strip] removes), not a placeholder
    token. *)
Theorem check_required_fields_clean_iff (d : pydict) (required : list string) :
  ∃ problems,
    _check_required_fields (VDict d) required = Ret problems
    ∧ (length problems ≤ length required)%nat
    ∧ (problems = [] ↔ ∀ f, f ∈ required → field_is_valid d f).
Proof.
  exists (concat (map (expected_problems d) required)).
  split; [apply check_required_fields_expected|].
  apply concat_expected_problems.
Qed.

(** On anything that is not a mapping the first required field raises
    [AttributeError]; with no required field nothing is looked up and the
    result is the empty list. *)
Theorem check_required_fields_not_a_mapping
    (meta : pyval) (f : string) (rest : list string) :
  _check_required_fields meta [] = Ret []
  ∧ ((∀ d, meta ≠ VDict d) →
     _check_required_fields meta (f :: rest)
     = Raise (Exc "AttributeError"
                ("'" +:+ py_type_name meta
                 +:+ "' object has no attribute 'get'"))).
Proof.
  split; [done|]. intros Hnd.
  destruct meta; try done. by destruct (Hnd d).
Qed.

(** ** The validators: bounds, and strict against lenient *)

Lemma check_required_fields_returns_bound (meta : pyval)
    (required problems : list string) :
  _check_required_fields meta required = Ret problems →
  (length problems ≤ length required)%nat.
Proof.
  destruct meta as [| | | | | |d];
    try (destruct required; [intros [= <-]; simpl; lia | done]).
  rewrite check_required_fields_expected. intros [= <-].
  apply concat_expected_problems.
Qed.

Lemma on_model_error_bound (p prefix : string) (dd : bool) (e : exc)
    (problems : list string) :
  outcome (on_model_error p dd prefix e) = Ret problems →
  (length problems ≤ 1)%nat.
Proof.
  unfold on_model_error.
  destruct (is_ValidationError e), dd; simpl; try done;
    intros [= <-]; simpl; lia.
Qed.

(** Whatever the file and the mode, a validator that returns reports at
    most one problem for a video, at most one for an asset, and at most
    three for a descriptor. *)
Theorem validators_problem_bounds
    (E : ValidateEnv) (p : string) (sv : option string) (dd : bool)
    (problems : list string) :
  (outcome (validate_movie_file E p dd) = Ret problems →
   (length problems ≤ 1)%nat)
  ∧ (outcome (validate_asset_file E p sv dd) = Ret problems →
     (length problems ≤ 1)%nat)
  ∧ (outcome (validate_dandiset_yaml E p sv dd) = Ret problems →
     (length problems ≤ 3)%nat).
Proof.
  split; [|split].
  - unfold validate_movie_file.
    destruct (cv2_installed E); simpl; [|done].
    destruct (negb (str_in _ _) && dd); [done|].
    destruct (video_is_opened E p) as [[|]|e]; simpl.
    + destruct (video_read E p) as [[|]|e]; simpl; try done;
        intros [= <-]; simpl; lia.
    + destruct dd; simpl; [done|]. intros [= <-]. simpl. lia.
    + destruct dd; simpl; [done|]. intros [= <-]. simpl. lia.
  - unfold validate_asset_file. destruct sv as [s|].
    + destruct (negb (String.eqb s _)); [done|].
      destruct (BareAsset_of E p) as [u|e].
      * intros [= <-]. simpl. lia.
      * apply on_model_error_bound.
    + destruct (get_metadata E p) as [meta|e].
      * simpl. intros Hr.
        by apply check_required_fields_returns_bound in Hr.
      * destruct dd; simpl; [done|]. intros [= <-]. simpl. lia.
  - unfold validate_dandiset_yaml.
    destruct (load_yaml E p) as [meta|e]; [|done].
    destruct (match sv with
              | Some s => Ret (VStr s)
              | None => py_get meta "schemaVersion"
              end) as [own|e]; [|done].
    assert (∀ r : logged (list string),
              (outcome r = Ret problems → (length problems ≤ 1)%nat) →
              outcome r = Ret problems → (length problems ≤ 3)%nat) as Hweak
      by (intros r Hr Ho; specialize (Hr Ho); lia).
    destruct own as [| b | z | s | l | l | d].
    { simpl. intros Hr.
      by apply check_required_fields_returns_bound in Hr. }
    all: cbv beta iota;
      match goal with
      | |- context [negb (py_eq_str ?o ?cur)] =>
          destruct (negb (py_eq_str o cur))
      end; [done|];
      match goal with
      | |- context [DandisetMeta ?env ?m] =>
          destruct (DandisetMeta env m) as [u|e]
      end;
      [ intros [= <-]; simpl; lia
      | apply Hweak, on_model_error_bound ].
Qed.

Ltac case_version :=
  match goal with
  | |- context [negb (py_eq_str ?o ?cur)] => destruct (negb (py_eq_str o cur))
  end.
Ltac case_model :=
  match goal with
  | |- context [DandisetMeta ?env ?m] =>
      let u := fresh "u" in let e := fresh "e" in
      destruct (DandisetMeta env m) as [u|e]
  end.

Lemma on_model_error_strict (p prefix : string) (e : exc) :
  on_model_error p true prefix e = quiet (Raise e).
Proof. unfold on_model_error. by destruct (is_ValidationError e). Qed.

(** Strict mode logs nothing, and whenever it returns a problem list
    lenient mode returns the same list, also without a warning: the mode
    only decides what happens to an exception. *)
Theorem strict_result_is_lenient_result
    (E : ValidateEnv) (p : string) (sv : option string)
    (problems : list string) :
  (warnings (validate_dandiset_yaml E p sv true) = []
   ∧ warnings (validate_asset_file E p sv true) = []
   ∧ warnings (validate_movie_file E p true) = [])
  ∧ (outcome (validate_dandiset_yaml E p sv true) = Ret problems →
     validate_dandiset_yaml E p sv false = quiet (Ret problems))
  ∧ (outcome (validate_asset_file E p sv true) = Ret problems →
     validate_asset_file E p sv false = quiet (Ret problems))
  ∧ (outcome (validate_movie_file E p true) = Ret problems →
     validate_movie_file E p false = quiet (Ret problems)).
Proof.
  split; [split; [|split]|split; [|split]].
  - unfold validate_dandiset_yaml.
    destruct (load_yaml E p) as [meta|e]; [|done].
    destruct (match sv with
              | Some s => Ret (VStr s)
              | None => py_get meta "schemaVersion"
              end) as [own|e]; [|done].
    destruct own; try done;
      (case_version; [done|]; case_model; [done|];
       by rewrite on_model_error_strict).
  - unfold validate_asset_file. destruct sv as [s|].
    + destruct (negb (String.eqb s _)); [done|].
      destruct (BareAsset_of E p) as [u|e]; [done|].
      by rewrite on_model_error_strict.
    + by destruct (get_metadata E p).
  - unfold validate_movie_file.
    destruct (cv2_installed E); simpl; [|done].
    rewrite andb_true_r.
    destruct (negb (str_in _ _)); simpl; [done|].
    destruct (video_is_opened E p) as [[|]|e]; simpl; try done.
    by destruct (video_read E p) as [[|]|e].
  - unfold validate_dandiset_yaml.
    destruct (load_yaml E p) as [meta|e]; [|done].
    destruct (match sv with
              | Some s => Ret (VStr s)
              | None => py_get meta "schemaVersion"
              end) as [own|e]; [|done].
    destruct own; try done; try (simpl; by intros ->);
      (case_version; [done|]; case_model; [by intros [= <-]|];
       by rewrite on_model_error_strict).
  - unfold validate_asset_file. destruct sv as [s|].
    + destruct (negb (String.eqb s _)); [done|].
      destruct (BareAsset_of E p) as [u|e]; [by intros [= <-]|].
      by rewrite on_model_error_strict.
    + destruct (get_metadata E p); [simpl; by intros ->|done].
  - unfold validate_movie_file.
    destruct (cv2_installed E); simpl; [|done].
    rewrite andb_true_r, andb_false_r.
    destruct (negb (str_in _ _)); simpl; [done|].
    destruct (video_is_opened E p) as [[|]|e]; simpl; try done.
    destruct (video_read E p) as [[|]|e]; simpl; try done;
      by intros [= <-].
Qed.

(** A video, through [validate_file].  The dispatcher hands a file to
    [validate_movie_file] only when its extension is a video extension, so
    the extension check of the validator never fires; with OpenCV
    installed the result is decided by the opening and the first frame: a
    video that opens and yields a frame is clean in both modes, one that
    opens without a frame has the one "no frames" problem in both modes,
    and one that does not open is a problem in lenient mode and an
    exception in strict mode. *)
Theorem video_validation_table
    (E : ValidateEnv) (p : string) (sv : option string) (dd : bool) :
  role_of E p = Video → cv2_installed E = true →
  (video_is_opened E p = Ret true → video_read E p = Ret true →
   validate_file E p sv dd = quiet (Ret []))
  ∧ (video_is_opened E p = Ret true → video_read E p = Ret false →
     validate_file E p sv dd
     = quiet (Ret ["no frames in video file " +:+ p]))
  ∧ (video_is_opened E p = Ret false →
     validate_file E p sv false
     = (["could not open video file " +:+ p +:+ " to validate"],
        Ret ["could not open video file " +:+ p +:+ " to validate"])
     ∧ validate_file E p sv true
       = quiet (Raise (Exc "Exception"
                         ("could not open video file " +:+ p
                          +:+ " to validate")))).
Proof.
  intros Hrole Hcv.
  assert (str_in (Path.splitext_ext p) (VIDEO_FILE_EXTENSIONS E) = true)
    as Hext.
  { unfold role_of in Hrole. destruct (String.eqb _ _); [done|].
    by destruct (str_in _ _). }
  rewrite !validate_file_by_role, Hrole. unfold validate_movie_file.
  rewrite Hcv, Hext. simpl. split; [|split].
  - intros -> ->. by destruct dd.
  - intros -> ->. by destruct dd.
  - intros ->. by split.
Qed.

Lemma video_validation_table_witness :
  role_of legacy_dataset "session/clip.mp4" = Video
  ∧ validate_file legacy_dataset "session/clip.mp4" None false
    = quiet (Ret []).
Proof.
  split; [reflexivity|].
  exact (proj1 (video_validation_table legacy_dataset "session/clip.mp4"
                  None false eq_refl eq_refl) eq_refl eq_refl).
Defined.

(** In either mode [validate] yields the pairs of the files that come
    before the first file whose validation raises, in discovery order and
    each with the problems [validate_file] returns for it; it ends with
    that file's exception, or normally when no file raises. *)
Theorem validate_stops_at_first_raise
    (E : ValidateEnv) (paths : list string) (sv : option string)
    (dd allow_any_path : bool) :
  let files := filepaths E paths allow_any_path in
  let run := validate E paths sv dd allow_any_path in
  map fst run.1 = take (length run.1) files
  ∧ (∀ p errs, (p, errs) ∈ run.1 →
       outcome (validate_file E p sv dd) = Ret errs)
  ∧ match run.2 with
    | None => length run.1 = length files
    | Some e =>
        ∃ p, files !! length run.1 = Some p
             ∧ outcome (validate_file E p sv dd) = Raise e
    end.
Proof.
  intros files run.
  pose proof (validate_drain_spec E files sv dd)
    as (Hpre & Hall & Hnone & Hsome).
  change (validate_drain E files sv dd) with run in Hpre, Hall, Hnone, Hsome.
  split.
  { destruct Hpre as [k Hk].
    transitivity (take (length (map fst run.1)) (map fst run.1 ++ k)).
    - by rewrite take_app_length.
    - rewrite length_map. f_equal. by symmetry. }
  split; [exact Hall|].
  destruct (run.2) as [e|]; [by apply Hsome|].
  transitivity (length (map fst run.1)); [by rewrite length_map|].
  f_equal. by apply Hnone.
Qed.

(** Lenient mode, exception by exception.  An exception leaves
    [validate_file] in lenient mode exactly for the causes that
    [escapes_lenient] lists: a descriptor that cannot be read or is no
    mapping, a version mismatch, missing OpenCV, a failing frame read, a
    raise of the NWB validator, legacy metadata that is no mapping.
    [validate] ends at the first file that has one, and yields a pair for
    every file when none has.  What the handlers catch -- a failure of the
    legacy or the asset metadata extraction, of a schema model, of the
    opening of a video -- is logged as a warning and comes back as a
    one-element problem list. *)
Theorem lenient_escapes_characterised
    (E : ValidateEnv) (paths : list string) (sv : option string)
    (allow_any_path : bool) :
  let files := filepaths E paths allow_any_path in
  let run := validate E paths sv false allow_any_path in
  (∀ p e, escapes_lenient E sv p e
          ↔ outcome (validate_file E p sv false) = Raise e)
  ∧ (∀ e, run.2 = Some e →
       ∃ p, files !! length run.1 = Some p ∧ escapes_lenient E sv p e)
  ∧ ((∀ p, p ∈ files → ¬ ∃ e, escapes_lenient E sv p e) →
     run.2 = None ∧ map fst run.1 = files)
  ∧ (∀ p e, get_metadata E p = Raise e →
       validate_asset_file E p None false
       = (["Failed to read metadata in " +:+ p +:+ ": " +:+ exc_msg e],
          Ret ["Failed to read metadata: " +:+ exc_msg e]))
  ∧ (∀ p e, BareAsset_of E p = Raise e →
       ∃ w s, validate_asset_file E p (Some (get_schema_version E)) false
              = ([w], Ret [s]))
  ∧ (∀ p meta e,
       load_yaml E p = Ret (VDict meta) →
       dict_get "schemaVersion" meta = Some (VStr (get_schema_version E)) →
       DandisetMeta E (VDict meta) = Raise e →
       ∃ w s, validate_dandiset_yaml E p None false = ([w], Ret [s]))
  ∧ (∀ p e, cv2_installed E = true → video_is_opened E p = Raise e →
       ∃ ws, validate_movie_file E p false
             = (ws ++ ["validation error " +:+ exc_msg e +:+ " for " +:+ p],
                Ret [exc_msg e])).
Proof.
  intros files run.
  pose proof (validate_drain_spec E files sv false)
    as (Hpre & Hall & Hnone & Hsome).
  change (validate_drain E files sv false) with run in Hpre, Hall, Hnone, Hsome.
  split.
  { intros p e. split.
    - apply validate_file_escape_happens.
    - apply validate_file_escape_cause. }
  split.
  { intros e He. destruct (Hsome e He) as (p & Hp & Hr).
    exists p. split; [done|]. by apply validate_file_escape_cause. }
  split.
  { intros Hno. assert (run.2 = None) as Hn.
    { destruct (run.2) as [e|] eqn:He; [|done].
      destruct (Hsome e eq_refl) as (p & Hp & Hr).
      exfalso. apply (Hno p); [by eapply list_elem_of_lookup_2|]. exists e.
      by apply validate_file_escape_cause. }
    split; [done | by apply Hnone]. }
  split.
  { intros p e He. unfold validate_asset_file. by rewrite He. }
  split.
  { intros p e He. unfold validate_asset_file.
    rewrite String.eqb_refl. simpl. rewrite He.
    apply on_model_error_lenient. }
  split.
  { intros p meta e Hload Hown He. unfold validate_dandiset_yaml.
    rewrite Hload. simpl. rewrite Hown. simpl.
    rewrite String.eqb_refl. simpl. rewrite He.
    apply on_model_error_lenient. }
  intros p e Hcv Hopen. unfold validate_movie_file.
  rewrite Hcv. simpl. rewrite andb_false_r, Hopen. simpl.
  eexists. reflexivity.
Qed.

(** ** Flattening: what comes out *)

Lemma flatten_v_not_container (v : pyval) :
  is_container (flatten_v v) = false.
Proof. by destruct v. Qed.

(** [flatten_v] never returns a list, tuple or dict: a container becomes a
    string, anything else is returned as it is.  Flattening twice is
    flattening once. *)
Theorem flatten_v_flat_and_idempotent (v : pyval) :
  is_container (flatten_v v) = false
  ∧ flatten_v (flatten_v v) = flatten_v v
  ∧ (is_container v = true → ∃ s, flatten_v v = VStr s)
  ∧ (is_container v = false → flatten_v v = v).
Proof.
  destruct v; simpl; repeat split; try done; intros _; by eexists.
Qed.

Lemma dict_set_fresh {K V : Type} `{EqDecision K}
    (d : list (K * V)) (k : K) (v : V) :
  k ∉ dict_keys d → dict_set d k v = d ++ [(k, v)].
Proof.
  induction d as [|[k' v'] d IH]; simpl; intros Hn; [done|].
  apply not_elem_of_cons in Hn as [Hne Hn].
  rewrite decide_False by done. f_equal. by apply IH.
Qed.

Lemma flatten_items_fresh (items out : pydict) :
  NoDup (dict_keys items) →
  (∀ k, k ∈ dict_keys items → k ∉ dict_keys out) →
  flatten_items items out
  = out ++ map (fun i => (fst i, flatten_v (snd i)))
             (List.filter (fun i => py_truthy (snd i)) items).
Proof.
  revert out. induction items as [|[f v] items IH]; intros out Hnd Hfresh.
  - simpl. by rewrite app_nil_r.
  - simpl in Hnd. apply NoDup_cons in Hnd as [Hf Hnd]. simpl.
    destruct (py_truthy v); simpl.
    + rewrite IH; [| done |].
      * rewrite dict_set_fresh by (apply Hfresh, elem_of_cons; by left).
        by rewrite <- app_assoc.
      * intros k Hk Hin. apply dict_keys_set in Hin as [->|Hin]; [done|].
        revert Hin. apply Hfresh, elem_of_cons. by right.
    + apply IH; [done|]. intros k Hk. apply Hfresh, elem_of_cons. by right.
Qed.

(** On a well-formed mapping [flatten_meta_to_pyout] returns exactly the
    entries with a truthy value, in their original order, each value
    flattened; so every value of the result is flat and no key is added,
    renamed or repeated. *)
Theorem flatten_meta_to_pyout_keeps_truthy (meta : pydict) :
  dict_wf meta →
  let kept := List.filter (fun i => py_truthy (snd i)) meta in
  flatten_meta_to_pyout (VDict meta)
  = Ret (map (fun i => (fst i, flatten_v (snd i))) kept)
  ∧ Forall (fun i => is_container (snd i) = false)
      (map (fun i => (fst i, flatten_v (snd i))) kept)
  ∧ dict_wf (map (fun i => (fst i, flatten_v (snd i))) kept)
  ∧ (∀ k, k ∈ dict_keys (map (fun i => (fst i, flatten_v (snd i))) kept) →
          k ∈ dict_keys meta).
Proof.
  intros Hwf kept.
  assert (dict_keys (map (fun i : string * pyval => (i.1, flatten_v i.2)) kept)
          = dict_keys kept) as Hkeys.
  { unfold dict_keys. rewrite map_map. by apply map_ext. }
  assert (∀ k, k ∈ dict_keys kept → k ∈ dict_keys meta) as Hsub.
  { intros k Hk. unfold dict_keys in *.
    apply list_elem_of_fmap in Hk as (i & -> & Hi).
    apply list_elem_of_In, filter_In in Hi as [Hi _].
    apply list_elem_of_fmap. exists i. split; [done|].
    by apply list_elem_of_In. }
  split.
  { rewrite flatten_meta_to_pyout_dict, flatten_items_fresh; [done|done|].
    intros k _. apply not_elem_of_nil. }
  split.
  { apply Forall_forall. intros i Hi.
    apply list_elem_of_fmap in Hi as ([f v] & -> & _). simpl.
    apply flatten_v_not_container. }
  split.
  { unfold dict_wf. rewrite Hkeys. unfold dict_wf, dict_keys in *.
    clear Hkeys Hsub. subst kept.
    induction meta as [|[f v] meta IH]; simpl; [constructor|].
    simpl in Hwf. apply NoDup_cons in Hwf as [Hf Hwf].
    destruct (py_truthy v); simpl; [|by apply IH].
    apply NoDup_cons. split; [|by apply IH].
    intros Hin. apply Hf.
    apply list_elem_of_fmap in Hin as (i & -> & Hi).
    apply list_elem_of_In, filter_In in Hi as [Hi _].
    apply list_elem_of_fmap. exists i. split; [done|].
    by apply list_elem_of_In. }
  intros k. rewrite Hkeys. apply Hsub.
Qed.

Lemma flatten_meta_to_pyout_keeps_truthy_witness :
  dict_wf [("lab", VStr "x"); ("keywords", VList []);
           ("related", VList [VStr "a"; VStr "b"])]
  ∧ flatten_meta_to_pyout
      (VDict [("lab", VStr "x"); ("keywords", VList []);
              ("related", VList [VStr "a"; VStr "b"])])
    = Ret [("lab", VStr "x"); ("related", VStr "a, b")].
Proof.
  assert (dict_wf [("lab", VStr "x"); ("keywords", VList []);
                   ("related", VList [VStr "a"; VStr "b"])]) as Hwf.
  { unfold dict_wf. simpl. compute_done. }
  split; [exact Hwf|].
  exact (proj1 (flatten_meta_to_pyout_keeps_truthy _ Hwf)).
Defined.

(** What is not a non-empty mapping: both flatteners turn any falsy value
    ([None], an empty dict, list or string, zero) into the empty record,
    and raise [AttributeError] on a truthy value that has no [items]. *)
Theorem flatteners_on_non_mappings (meta : pyval) :
  (py_truthy meta = false →
   flatten_meta_to_pyout meta = Ret []
   ∧ flatten_meta_to_pyout_v1 meta = Ret [])
  ∧ (py_truthy meta = true → (∀ d, meta ≠ VDict d) →
     flatten_meta_to_pyout meta
     = Raise (Exc "AttributeError"
                ("'" +:+ py_type_name meta
                 +:+ "' object has no attribute 'items'"))
     ∧ flatten_meta_to_pyout_v1 meta
       = Raise (Exc "AttributeError"
                  ("'" +:+ py_type_name meta
                   +:+ "' object has no attribute 'items'"))).
Proof.
  unfold flatten_meta_to_pyout, flatten_meta_to_pyout_v1, items_or_empty.
  split.
  - intros ->. done.
  - intros -> Hnd. destruct meta; try done. by destruct (Hnd d).
Qed.

Lemma flatten_v1_items_flat (inner_v1 : pyval → pydict) (items out : pydict) :
  (∀ i, i ∈ items → is_nested_entry i = false) →
  flatten_v1_items inner_v1 items out = flatten_items items out.
Proof.
  revert out. induction items as [|[f v] items IH]; intros out Hflat; [done|].
  assert (∀ i, i ∈ items → is_nested_entry i = false) as Hrest.
  { intros i Hi. apply Hflat, elem_of_cons. by right. }
  specialize (Hflat (f, v)). simpl in *.
  destruct (py_truthy v) eqn:Ht; simpl; [|by apply IH].
  destruct v as [| | | | | |d]; try by apply IH.
  destruct d as [|i d]; [done|].
  discriminate Hflat. apply elem_of_cons. by left.
Qed.

(** On a record without nested mapping the two flatteners agree: the
    older one differs from the current one only in what it does with a
    non-empty dict value. *)
Theorem flatteners_agree_on_flat_records (meta : pydict) :
  (∀ i, i ∈ meta → is_nested_entry i = false) →
  flatten_meta_to_pyout_v1 (VDict meta) = flatten_meta_to_pyout (VDict meta).
Proof.
  intros Hflat. unfold flatten_meta_to_pyout_v1, flatten_meta_to_pyout.
  destruct (items_or_empty (VDict meta)) as [items|e] eqn:Hi; [|done].
  simpl. f_equal. apply flatten_v1_items_flat.
  destruct meta as [|i meta]; simpl in Hi.
  - injection Hi as <-. intros i Hin. by apply elem_of_nil in Hin.
  - injection Hi as <-. exact Hflat.
Qed.

Lemma flatteners_agree_on_flat_records_witness :
  flatten_meta_to_pyout_v1
    (VDict [("lab", VStr "x"); ("related", VList [VStr "a"; VStr "b"])])
  = flatten_meta_to_pyout
      (VDict [("lab", VStr "x"); ("related", VList [VStr "a"; VStr "b"])]).
Proof.
  apply flatteners_agree_on_flat_records.
  intros i Hi. apply elem_of_cons in Hi as [->|Hi]; [done|].
  apply elem_of_cons in Hi as [->|Hi]; [done|].
  by apply elem_of_nil in Hi.
Defined.

(** ** The ledger and the counter *)

Lemma ledger_size_append (errors0 : ledger) (kind : string) (a : asset) :
  ledger_size (ledger_append errors0 kind a) = S (ledger_size errors0).
Proof.
  unfold ledger_append, ledger_size.
  induction errors0 as [|[k l] rest IH]; simpl; [done|].
  destruct (decide (kind = k)) as [->|Hne]; simpl.
  - rewrite length_app. simpl. lia.
  - rewrite IH. lia.
Qed.


(** [_add_exc_error] lists the asset once more in the ledger, under the
    type name of the exception and after what was there, and adds one to
    the counter of the record: 1 on a record without counter, [n + 1] on a
    counter [n]; the other entries of the record are left alone.  A counter
    that is no number makes the addition raise [TypeError], after the
    ledger was written. *)
Theorem add_exc_error_counts
    (a : asset) (rec : pydict) (errors0 : ledger) (e : exc) :
  let res := _add_exc_error a rec errors0 e in
  ledger_size res.2 = S (ledger_size errors0)
  ∧ ledger_lists res.2 (exc_type e) a
  ∧ (∀ kind x, ledger_lists errors0 kind x → ledger_lists res.2 kind x)
  ∧ match dict_get "errors" rec with
    | None => res.1 = Ret (dict_set rec "errors" (VInt 1))
    | Some (VInt n) => res.1 = Ret (dict_set rec "errors" (VInt (n + 1)))
    | Some (VBool b) =>
        res.1 = Ret (dict_set rec "errors" (VInt ((if b then 1 else 0) + 1)))
    | Some _ => ∃ msg, res.1 = Raise (Exc "TypeError" msg)
    end
  ∧ (∀ rec' k, res.1 = Ret rec' → k ≠ "errors" →
               dict_get k rec' = dict_get k rec).
Proof.
  intros res. unfold res, _add_exc_error. simpl.
  split; [apply ledger_size_append|].
  split; [apply ledger_append_lists|].
  split; [intros kind x; apply ledger_append_keeps|].
  split.
  - destruct (dict_get "errors" rec) as [[| | | | | |]|]; simpl;
      try done; by eexists.
  - intros rec' k Hr Hk.
    destruct (py_add1 (default (VInt 0) (dict_get "errors" rec)))
      as [n|e']; simpl in Hr; [|done].
    injection Hr as <-. by apply dict_get_set_ne.
Qed.

(** ** The callback: what it can return *)

(** Whatever the extraction collaborators return, the record a callback
    returns holds only requested keys, and possibly the [errors]
    counter. *)
Theorem callback_returns_only_requested_keys
    (E : LsEnv) (cb : callback) (errors0 : ledger) (rec : pydict) :
  (run_callback E cb errors0).1.1 = Ret rec →
  ∀ k, k ∈ dict_keys rec → k ∈ cb_keys cb ∨ k = "errors".
Proof. intros Hr k. by apply (run_callback_keys E cb errors0). Qed.

Lemma callback_returns_only_requested_keys_witness :
  (run_callback nested_subject
     (get_metadata_ls "sub-1.nwb" ["subject"] false None true) []).1.1
  = Ret [("subject", VDict [("age", VStr "P30D"); ("sex", VStr "M")])]
  ∧ ∀ k, k ∈ ["subject"] → k ∈ ["subject"] ∨ k = "errors".
Proof.
  assert ((run_callback nested_subject
             (get_metadata_ls "sub-1.nwb" ["subject"] false None true) []).1.1
          = Ret [("subject", VDict [("age", VStr "P30D"); ("sex", VStr "M")])])
    as Hr by (vm_compute; reflexivity).
  split; [exact Hr|].
  exact (callback_returns_only_requested_keys nested_subject _ [] _ Hr).
Defined.

(** A failure of the bulk extraction, seen from the caller of the
    callback: the asset is ledgered under the type name of the exception,
    but when [errors] is no requested key the counter set on the local
    record is filtered out, so the callback returns a record without it:
    empty, or with just the NWB version that the fallback read. *)
Theorem bulk_failure_is_ledgered_not_counted
    (E : LsEnv) (cb : callback) (errors0 : ledger) (e : exc) :
  cb_keys cb ≠ ["nwb_version"] → "errors" ∉ cb_keys cb →
  (fetch_record E cb).1 = Raise e →
  (∀ e', get_nwb_version E (cb_path cb) ≠ Raise e') →
  ∃ rec,
    (run_callback E cb errors0).1.1 = Ret rec
    ∧ (rec = [] ∨ ∃ v, rec = [("nwb_version", v)])
    ∧ ("errors" ∉ dict_keys rec)
    ∧ ledger_lists (run_callback E cb errors0).1.2 (exc_type e)
        (APath (cb_path cb)).
Proof.
  intros Hk Herr Hf Hnwb.
  pose proof (run_callback_ledgers_bulk_failure E cb e errors0 Hk Hf) as Hl.
  assert (∃ rec, (run_callback E cb errors0).1.1 = Ret rec
                 ∧ (rec = [] ∨ ∃ v, rec = [("nwb_version", v)])) as Hrec.
  { unfold run_callback, fn_extract. rewrite bool_decide_false by done.
    destruct (fetch_record E cb) as [fetched cs]. simpl in Hf. subst fetched.
    simpl.
    assert (str_in "errors" (cb_keys cb) = false) as Hnot.
    { destruct (str_in "errors" (cb_keys cb)) eqn:Hs; [|done].
      unfold str_in in Hs. apply existsb_exists in Hs as (x & Hx & Heq).
      apply String.eqb_eq in Heq as <-. exfalso. apply Herr.
      by apply list_elem_of_In. }
    assert (∀ errs,
              ∃ rec, (fn_finish E cb (VDict [("errors", VInt 1)]) errs).1.1
                     = Ret rec
                     ∧ (rec = [] ∨ ∃ v, rec = [("nwb_version", v)])) as Hfin.
    { intros errs. unfold fn_finish. simpl. unfold restrict_keys. simpl.
      rewrite Hnot. simpl.
      destruct (get_nwb_version E (cb_path cb)) as [v|e'] eqn:Hg;
        [|by destruct (Hnwb e' eq_refl)].
      match goal with
      | |- context [(if ?c then _ else _).1.1] => destruct c
      end; simpl; eexists; (split; [reflexivity|]);
        [right; by eexists | by left]. }
    destruct (cb_flatten cb); simpl.
    - destruct (Hfin (ledger_append errors0 (exc_type e) (APath (cb_path cb))))
        as (rec & Hr & Hshape).
      destruct (fn_finish E cb _ _) as [[r errors2] cs']. simpl in *.
      by exists rec.
    - destruct (Hfin (ledger_append errors0 (exc_type e) (APath (cb_path cb))))
        as (rec & Hr & Hshape).
      destruct (fn_finish E cb _ _) as [[r errors2] cs']. simpl in *.
      by exists rec. }
  destruct Hrec as (rec & Hr & Hshape). exists rec.
  split; [done|]. split; [done|]. split; [|done].
  destruct Hshape as [->|[v ->]].
  - apply not_elem_of_nil.
  - simpl. intros Hin. apply list_elem_of_singleton in Hin. discriminate.
Qed.

Lemma bulk_failure_is_ledgered_not_counted_witness :
  ∃ rec,
    (run_callback failing_extraction
       (get_metadata_ls "sub-1.nwb" ["session_id"; "nwb_version"] false None
          true) []).1.1 = Ret rec
    ∧ "errors" ∉ dict_keys rec.
Proof.
  destruct (bulk_failure_is_ledgered_not_counted failing_extraction
              (get_metadata_ls "sub-1.nwb" ["session_id"; "nwb_version"]
                 false None true) [] (Exc "ValueError" "not an NWB file"))
    as (rec & Hr & _ & Hn & _).
  - discriminate.
  - simpl. intros Hin. apply elem_of_cons in Hin as [Hin|Hin]; [discriminate|].
    apply elem_of_cons in Hin as [Hin|Hin]; [discriminate|].
    by apply elem_of_nil in Hin.
  - reflexivity.
  - discriminate.
  - by exists rec.
Defined.

Section LoopInvariants.
Variable E : LsEnv.
Variables (fmt : format) (fields : option (list string))
  (schema : option string) (use_fake_digest : bool) (keys : list string).

Let step := ls_step E fmt fields schema use_fake_digest keys.
Let loop := ls_loop E fmt fields schema use_fake_digest keys.

(** What every turn preserves holds of the state the loop ends in,
    whether it ends normally or not. *)
Lemma ls_loop_invariant (P : LsState → Prop) (assets : list asset)
    (st : LsState) :
  P st → (∀ a st0, a ∈ assets → P st0 → P (step a st0).1) →
  P (loop assets st).1.
Proof.
  revert st. induction assets as [|a rest IH]; intros st Hst Hstep; [done|].
  unfold loop in *. rewrite ls_loop_cons.
  pose proof (Hstep a st (list_elem_of_here a rest) Hst) as Ha.
  unfold step in Ha.
  destruct (ls_step E fmt fields schema use_fake_digest keys a st)
    as [st' [e|]]; [done|].
  apply IH; [done|]. intros a0 st0 Hin. apply Hstep. by apply elem_of_cons; right.
Qed.

Lemma fold_dict_set_get_other (items rec1 : pydict) (k : string) :
  (∀ k', k' ∈ dict_keys items → k' ≠ k) →
  dict_get k (fold_left (fun o i => dict_set o (fst i) (snd i)) items rec1)
  = dict_get k rec1.
Proof.
  revert rec1. induction items as [|[f v] items IH]; intros rec1 Hne; [done|].
  simpl. rewrite IH.
  - apply dict_get_set_ne. intros ->.
    by apply (Hne f); [apply elem_of_cons; left|].
  - intros k' Hk'. apply Hne. apply elem_of_cons. by right.
Qed.

(** The record emitted for a path asset has the path under [path],
    provided [path] is no expensive key. *)
Lemma ls_step_path_emits (p : string) (st : LsState) :
  "path" ∉ keys →
  ∃ rec st', step (APath p) st = (st', None)
    ∧ emitted st' = emitted st ++ [rec]
    ∧ dict_get "path" (rec_entries rec) = Some (VStr p).
Proof.
  intros Hpath.
  destruct (ls_step_path_outcomes E fmt fields schema use_fake_digest keys
              p st)
    as [(e & Hs & Hstep) | [(rec1 & Hs & Hk & Hstep)
       | [(rec1 & Hs & Hk & Hf & Hstep)
       | [(rec1 & cb_res & errors1 & cs & Hs & Hk & Hf & Hcb & Hstep)
       | (rec1 & e & errors1 & cs & Hs & Hk & Hf & Hcb & Hstep)]]]];
    unfold step; rewrite Hstep; do 2 eexists;
    (split; [reflexivity|]); (split; [reflexivity|]); simpl.
  - done.
  - by eapply sized_record_path.
  - by eapply sized_record_path.
  - rewrite fold_dict_set_get_other; [by eapply sized_record_path|].
    intros k' Hk' ->.
    assert ((run_callback E
               (get_metadata_ls p keys false schema use_fake_digest)
               (errors st)).1.1 = Ret cb_res) as Hr by (by rewrite Hcb).
    destruct (run_callback_keys E _ _ _ "path" Hr Hk') as [Hin|Hin]; [|done].
    by apply Hpath.
  - rewrite dict_get_set_ne by done. by eapply sized_record_path.
Qed.

Lemma ls_loop_emits_in_order (assets : list asset) (st : LsState) :
  "path" ∉ keys → (loop assets st).2 = None →
  ∃ new, emitted (loop assets st).1 = emitted st ++ new
    ∧ Forall2 emitted_for
        (List.filter (fun a => negb (is_empty_asset a)) assets) new.
Proof.
  intros Hpath. revert st.
  induction assets as [|a rest IH]; intros st Hnone.
  - exists []. split; [by rewrite app_nil_r | constructor].
  - unfold loop in *. rewrite ls_loop_cons in *.
    destruct a as [p|r].
    + destruct (ls_step_path_emits p st Hpath)
        as (rec & st' & Hstep & Hem & Hrec).
      unfold step in Hstep. rewrite Hstep in *.
      destruct (IH st' Hnone) as (new & Hnew & Hall).
      exists (rec :: new). split.
      * rewrite Hnew, Hem. by rewrite <- app_assoc.
      * simpl. by constructor.
    + destruct (ls_step_record_outcomes E fmt fields schema use_fake_digest
                  keys r st)
        as [(s & Hs & Heq & Hstep) | [[-> Hstep] | [Hne Hstep]]];
        rewrite Hstep in *; [done| |].
      * destruct (IH _ Hnone) as (new & Hnew & Hall).
        exists new. by split.
      * destruct (IH _ Hnone) as (new & Hnew & Hall).
        exists ({| rec_entries := r; rec_deferred := None |} :: new). split.
        -- rewrite Hnew. simpl. by rewrite <- app_assoc.
        -- destruct r as [|i r]; [done|]. simpl. by constructor.
Qed.





End LoopInvariants.

Section PathFailures.
Variable E : LsEnv.
Variables (fmt : format) (fields : option (list string))
  (schema : option string) (use_fake_digest : bool) (keys : list string).

Let step := ls_step E fmt fields schema use_fake_digest keys.
Let loop := ls_loop E fmt fields schema use_fake_digest keys.

Lemma ls_step_emitted_keeps (a : asset) (st : LsState) (r : AssetRecord) :
  r ∈ emitted st → r ∈ emitted (step a st).1.
Proof.
  intros Hr. destruct a as [p|d].
  - destruct (ls_step_path E fmt fields schema use_fake_digest keys p st)
      as (rec & errors1 & cs & Hstep & _).
    unfold step. rewrite Hstep. simpl. apply elem_of_app. by left.
  - destruct (ls_step_record E fmt fields schema use_fake_digest keys d st)
      as (st' & oe & Hstep & _ & [He|He] & _);
      unfold step; rewrite Hstep; simpl; rewrite He; [done|].
    apply elem_of_app. by left.
Qed.

Lemma ls_loop_emitted_keeps (assets : list asset) (st : LsState)
    (r : AssetRecord) :
  r ∈ emitted st → r ∈ emitted (loop assets st).1.
Proof.
  intros Hr.
  apply (ls_loop_invariant E fmt fields schema use_fake_digest keys
           (fun st' => r ∈ emitted st')); [done|].
  intros a st0 _. apply ls_step_emitted_keeps.
Qed.

(** In a run that ends normally every asset has had its turn, and what
    the turn left in the ledger and handed to the sink is still there at
    the end. *)
Lemma ls_loop_visits (assets : list asset) (st : LsState) (a : asset) :
  a ∈ assets → (loop assets st).2 = None →
  ∃ st0,
    (step a st0).2 = None
    ∧ (∀ kind x, ledger_lists (errors (step a st0).1) kind x →
                 ledger_lists (errors (loop assets st).1) kind x)
    ∧ (∀ r, r ∈ emitted (step a st0).1 → r ∈ emitted (loop assets st).1).
Proof.
  revert st. induction assets as [|a0 rest IH]; intros st Hin Hnone.
  - by apply elem_of_nil in Hin.
  - unfold loop in *. rewrite ls_loop_cons in *.
    destruct (ls_step E fmt fields schema use_fake_digest keys a0 st)
      as [st' [e|]] eqn:Hstep; [done|].
    apply elem_of_cons in Hin as [->|Hin].
    + exists st. unfold step. rewrite Hstep. simpl. split; [done|]. split.
      * intros kind x. apply ls_loop_ledger_keeps.
      * intros r. apply ls_loop_emitted_keeps.
    + by apply IH.
Qed.

End PathFailures.


(** ** Runs of [ls] *)

Lemma ls_state_invariant (P : LsState → Prop) (E : LsEnv)
    (assets : list asset) (schema : option string) (use_fake_digest : bool)
    (fields : option (list string)) (fmt : format) :
  P {| emitted := []; errors := []; calls := [] |} →
  (∀ a st, a ∈ assets → P st →
     P (ls_step E fmt (sink_fields fmt fields) schema use_fake_digest
          (async_keys E schema (sink_fields fmt fields)) a st).1) →
  P (run_state (ls E assets schema use_fake_digest fields fmt)).
Proof.
  intros Hinit Hstep. unfold ls.
  destruct (negb (bool_decide _)); [done|].
  pose proof (ls_loop_invariant E fmt (sink_fields fmt fields) schema
                use_fake_digest
                (async_keys E schema (sink_fields fmt fields)) P assets
                _ Hinit Hstep) as Hloop.
  by destruct (ls_loop E fmt (sink_fields fmt fields) schema use_fake_digest
                 _ assets _) as [st [e|]].
Qed.

Lemma path_not_async_key (E : LsEnv) (schema : option string)
    (fields : option (list string)) :
  "path" ∉ async_keys E schema fields.
Proof.
  intros Hin. apply async_keys_spec in Hin as (_ & Hc & _). apply Hc.
  apply elem_of_cons. by left.
Qed.

Lemma ls_unknown_fields (E : LsEnv) (assets : list asset)
    (schema : option string) (use_fake_digest : bool)
    (fields : option (list string)) (fmt : format) :
  unknown_fields E schema fields ≠ ∅ →
  ls E assets schema use_fake_digest fields fmt
  = {| run_state := {| emitted := []; errors := []; calls := [] |};
       run_raised :=
         Some (map_to_click_exceptions E
                 (Exc "UsageError"
                    ("Following fields are not known: "
                     +:+ String.concat ", "
                           (elements (unknown_fields E schema fields)))));
       run_summary := None |}.
Proof.
  intros Hu. unfold ls, unknown_fields in *. cbv zeta.
  by rewrite bool_decide_false.
Qed.

(** The two ways an exception leaves the loop part of [ls]. *)
Lemma ls_raise_cause (E : LsEnv) (assets : list asset)
    (schema : option string) (use_fake_digest : bool)
    (fields : option (list string)) (fmt : format) (e : exc) :
  run_raised (ls E assets schema use_fake_digest fields fmt) = Some e →
  (unknown_fields E schema fields ≠ ∅
   ∧ e = map_to_click_exceptions E
           (Exc "UsageError"
              ("Following fields are not known: "
               +:+ String.concat ", "
                     (elements (unknown_fields E schema fields)))))
  ∨ (unknown_fields E schema fields = ∅
     ∧ ∃ r s, ARecord r ∈ assets ∧ schema = Some s
         ∧ py_eq_str (default VNone (dict_get "schemaVersion" r)) s = false
         ∧ e = map_to_click_exceptions E
                 (conversion_not_implemented
                    (default VNone (dict_get "schemaVersion" r)) s)).
Proof.
  destruct (decide (unknown_fields E schema fields = ∅)) as [Hk|Hu].
  - intros Hr. right. split; [done|]. revert Hr.
    unfold ls. unfold unknown_fields in Hk. rewrite Hk.
    rewrite bool_decide_true by done. simpl.
    pose proof (ls_loop_raise_cause E fmt (sink_fields fmt fields) schema
                  use_fake_digest
                  (async_keys E schema (sink_fields fmt fields)) assets
                  {| emitted := []; errors := []; calls := [] |}) as Hcause.
    destruct (ls_loop E fmt (sink_fields fmt fields) schema use_fake_digest
                _ assets _) as [st [e'|]]; simpl in *; [|done].
    intros [= <-].
    destruct (Hcause e' eq_refl) as (r & s & Hin & Hs & Heq & ->).
    by exists r, s.
  - rewrite ls_unknown_fields by done. simpl. intros [= <-]. by left.
Qed.

(** Without a requested schema and with known field names [ls] never
    raises, whatever the assets are and whatever the collaborators do. *)
Theorem ls_without_schema_never_raises
    (E : LsEnv) (assets : list asset) (use_fake_digest : bool)
    (fields : option (list string)) (fmt : format) :
  (∀ F f, fields = Some F → f ∈ F → f ∈ all_fields E None) →
  run_raised (ls E assets None use_fake_digest fields fmt) = None.
Proof.
  intros Hknown.
  destruct (run_raised (ls E assets None use_fake_digest fields fmt))
    as [e|] eqn:Hr; [|done].
  apply ls_raise_cause in Hr as [[Hu _]|[_ (r & s & _ & Hs & _)]]; [|done].
  exfalso. apply Hu. unfold unknown_fields.
  destruct fields as [F|]; [|done]. specialize (Hknown F). set_solver.
Qed.

Lemma ls_without_schema_never_raises_witness :
  run_raised
    (ls bare_directory [ARecord []; APath "ds"; ARecord [("path", VStr "x")]]
       None false None Yaml) = None.
Proof.
  apply ls_without_schema_never_raises. by intros F f.
Defined.

(** Work is deferred for the tabular sink only.  For that sink [ls]
    itself calls no collaborator; for the other sinks no emitted record
    carries a callback.  A callback that is handed over flattens its
    result and belongs to the record that carries it: its path is the
    record's [path]. *)
Theorem deferred_only_for_tabular
    (E : LsEnv) (assets : list asset) (schema : option string)
    (use_fake_digest : bool) (fields : option (list string)) (fmt : format) :
  let st := run_state (ls E assets schema use_fake_digest fields fmt) in
  (fmt = Pyout → calls st = [])
  ∧ (fmt ≠ Pyout → Forall (fun r => rec_deferred r = None) (emitted st))
  ∧ (∀ r ks cb, r ∈ emitted st → rec_deferred r = Some (ks, cb) →
       fmt = Pyout ∧ cb_flatten cb = true
       ∧ dict_get "path" (rec_entries r) = Some (VStr (cb_path cb))).
Proof.
  intros st.
  assert ((fmt = Pyout → calls st = [])
          ∧ Forall (fun r => match rec_deferred r with
                             | None => True
                             | Some (ks, cb) =>
                                 fmt = Pyout ∧ cb_flatten cb = true
                                 ∧ dict_get "path" (rec_entries r)
                                   = Some (VStr (cb_path cb))
                             end) (emitted st)) as [Hcalls Hdef].
  { unfold st. apply ls_state_invariant; [by split|].
    intros a st0 _ [Hc Hd]. destruct a as [p|r].
    - destruct (ls_step_path_outcomes E fmt (sink_fields fmt fields) schema
                  use_fake_digest
                  (async_keys E schema (sink_fields fmt fields)) p st0)
        as [(e & Hs & Hstep) | [(rec1 & Hs & Hk & Hstep)
           | [(rec1 & Hs & Hk & Hf & Hstep)
           | [(rec1 & cb_res & errors1 & cs & Hs & Hk & Hf & Hcb & Hstep)
           | (rec1 & e & errors1 & cs & Hs & Hk & Hf & Hcb & Hstep)]]]];
        rewrite Hstep; simpl; (split; [try done | ]);
        try (apply Forall_app; split; [done|]; by repeat constructor).
      apply Forall_app. split; [done|]. constructor; [|constructor]. simpl.
      split; [done|]. split; [done|]. by eapply sized_record_path.
    - destruct (ls_step_record_outcomes E fmt (sink_fields fmt fields) schema
                  use_fake_digest
                  (async_keys E schema (sink_fields fmt fields)) r st0)
        as [(s & Hs & Heq & Hstep) | [[Hr Hstep] | [Hne Hstep]]];
        rewrite Hstep; simpl; (split; [done|]); try done.
      apply Forall_app. split; [done|]. by repeat constructor. }
  split; [exact Hcalls|]. split.
  - intros Hne. eapply Forall_impl; [exact Hdef|]. intros r Hr. simpl in Hr.
    destruct (rec_deferred r) as [[ks cb]|]; [|done]. by destruct Hr.
  - intros r ks cb Hin Hd. rewrite Forall_forall in Hdef.
    specialize (Hdef r Hin). simpl in Hdef. by rewrite Hd in Hdef.
Qed.

(** When [ls] ends normally the sink has received, in the order of the
    assets, one record for every asset except the empty ready records: a
    ready record exactly as it came, a path record with its own path under
    [path]. *)
Theorem ls_emits_in_order
    (E : LsEnv) (assets : list asset) (schema : option string)
    (use_fake_digest : bool) (fields : option (list string)) (fmt : format) :
  run_raised (ls E assets schema use_fake_digest fields fmt) = None →
  Forall2 emitted_for
    (List.filter (fun a => negb (is_empty_asset a)) assets)
    (emitted (run_state (ls E assets schema use_fake_digest fields fmt))).
Proof.
  unfold ls. destruct (negb (bool_decide _)); [done|].
  pose proof (ls_loop_emits_in_order E fmt (sink_fields fmt fields) schema
                use_fake_digest
                (async_keys E schema (sink_fields fmt fields)) assets
                {| emitted := []; errors := []; calls := [] |}
                (path_not_async_key E schema _)) as Hloop.
  destruct (ls_loop E fmt (sink_fields fmt fields) schema use_fake_digest
              _ assets _) as [st [e|]]; simpl in *; [done|].
  intros _. by destruct (Hloop eq_refl) as (new & -> & Hall).
Qed.

Lemma ls_emits_in_order_witness :
  Forall2 emitted_for
    [APath "empty.nwb"; ARecord [("path", VStr "remote.nwb")];
     APath "missing.nwb"]
    (emitted
       (run_state
          (ls one_missing_file
             [APath "empty.nwb"; ARecord [];
              ARecord [("path", VStr "remote.nwb")]; APath "missing.nwb"]
             None false None Json))).
Proof.
  apply (ls_emits_in_order one_missing_file
           [APath "empty.nwb"; ARecord [];
            ARecord [("path", VStr "remote.nwb")]; APath "missing.nwb"]
           None false None Json).
  vm_compute. reflexivity.
Defined.



(** ** The command in front of the loop *)

#[global] Instance str_le_total : Total str_le.
Proof. intros a b. unfold str_le. apply String.leb_total. Qed.

Lemma all_fields_sorted_elem (E : LsEnv) (schema : option string)
    (f : string) :
  f ∈ all_fields_sorted E schema ↔ f ∈ all_fields E schema.
Proof.
  unfold all_fields_sorted. rewrite merge_sort_Permutation.
  apply elem_of_elements.
Qed.

(** A blank [-F] value (empty, or white space only, white space being
    what [str.strip] removes) makes [ls] print the known fields and
    return: nothing is enumerated, processed, raised or summarised.  The
    listing has its heading and then one line per known field, each field
    once, in sorted order, [path] and [size] among them. *)
Theorem ls_blank_fields_lists_known_fields
    (E : LsEnv) (C : CliEnv) (paths : list string) (schema : option string)
    (metadata : metadata_mode) (use_fake_digest : bool) (s : string)
    (fmt : format_option) (recursive : bool) :
  blank s = true →
  ls_command E C paths schema metadata use_fake_digest (Some s) fmt recursive
  = {| printed :=
         "Known fields:"
         :: map (known_field_line (PYOUT_SHORT_NAMES C))
              (all_fields_sorted E schema);
       loop_run := nothing_done |}
  ∧ Sorted str_le (all_fields_sorted E schema)
  ∧ NoDup (all_fields_sorted E schema)
  ∧ (∀ f, f ∈ all_fields_sorted E schema ↔ f ∈ all_fields E schema)
  ∧ "path" ∈ all_fields_sorted E schema
  ∧ "size" ∈ all_fields_sorted E schema.
Proof.
  intros Hblank. rewrite <- strip_is_empty_blank in Hblank.
  split; [unfold ls_command, parse_fields; by rewrite Hblank|].
  split; [apply Sorted_merge_sort, _|].
  split.
  { unfold all_fields_sorted. rewrite merge_sort_Permutation.
    apply NoDup_elements. }
  split; [apply all_fields_sorted_elem|].
  split; apply all_fields_sorted_elem; unfold all_fields, common_fields;
    destruct schema; set_solver.
Qed.

Lemma ls_blank_fields_lists_known_fields_witness :
  blank blank_text = true
  ∧ ls_command one_missing_file offline ["empty.nwb"] None MetaApi false
      (Some blank_text) Auto false
    = {| printed :=
           ["Known fields:"; "- nwb_version or NWB"; "- path";
            "- session_id"; "- size"];
         loop_run := nothing_done |}.
Proof.
  split; [reflexivity|].
  destruct (ls_blank_fields_lists_known_fields one_missing_file offline
              ["empty.nwb"] None MetaApi false blank_text Auto false eq_refl)
    as [Hrun _].
  rewrite Hrun. vm_compute. reflexivity.
Defined.

Lemma split_comma_plain (n : string) :
  PyStr.contains ","%char n = false → split_comma n = [n].
Proof.
  induction n as [|c n IH]; [done|]. cbn [PyStr.contains split_comma].
  destruct (Ascii.eqb_spec c ","%char) as [->|Hc].
  - by rewrite Ascii.eqb_refl.
  - assert (Ascii.eqb ","%char c = false) as ->
      by (apply Ascii.eqb_neq; congruence).
    intros Hn. by rewrite IH.
Qed.

Lemma split_comma_cons (n rest : string) :
  PyStr.contains ","%char n = false →
  split_comma (n +:+ "," +:+ rest) = n :: split_comma rest.
Proof.
  induction n as [|c n IH]; [done|].
  change (PyStr.contains ","%char (String c n) = false →
          split_comma (String c (n +:+ "," +:+ rest))
          = String c n :: split_comma rest).
  cbn [PyStr.contains split_comma].
  destruct (Ascii.eqb_spec c ","%char) as [->|Hc].
  - by rewrite Ascii.eqb_refl.
  - assert (Ascii.eqb ","%char c = false) as ->
      by (apply Ascii.eqb_neq; congruence).
    intros Hn. by rewrite IH.
Qed.

Lemma split_comma_concat (names : list string) :
  names ≠ [] →
  (∀ n, n ∈ names → PyStr.contains ","%char n = false) →
  split_comma (String.concat "," names) = names.
Proof.
  induction names as [|n rest IH]; [done|]. intros _ Hplain.
  destruct rest as [|m rest].
  - simpl. apply split_comma_plain, Hplain, elem_of_cons. by left.
  - change (String.concat "," (n :: m :: rest))
      with (n +:+ "," +:+ String.concat "," (m :: rest)).
    rewrite split_comma_cons by (apply Hplain, elem_of_cons; by left).
    f_equal. apply IH; [done|].
    intros k Hk. apply Hplain, elem_of_cons. by right.
Qed.

(** Reading back a list of names: names without comma, none of them a
    short name, joined with commas into a value that is not blank, are
    read by [ls] as exactly these names, in order. *)
Theorem parse_fields_of_joined_names (C : CliEnv) (names : list string) :
  names ≠ [] →
  (∀ n, n ∈ names → PyStr.contains ","%char n = false) →
  (∀ n, n ∈ names →
        dict_get (str_lower C n) (PYOUT_SHORT_NAMES_rev C) = None) →
  blank (String.concat "," names) = false →
  parse_fields C (Some (String.concat "," names)) = Fields (Some names).
Proof.
  intros Hne Hplain Hfull Hblank. unfold parse_fields.
  rewrite strip_is_empty_blank, Hblank.
  rewrite split_comma_concat by done. do 2 f_equal.
  clear Hne Hplain Hblank. induction names as [|n rest IH]; [done|].
  simpl. f_equal.
  - unfold full_name. by rewrite Hfull by (apply elem_of_cons; by left).
  - apply IH. intros k Hk. apply Hfull, elem_of_cons. by right.
Qed.

Lemma parse_fields_of_joined_names_witness :
  parse_fields offline (Some "path,size,session_id")
  = Fields (Some ["path"; "size"; "session_id"]).
Proof.
  apply (parse_fields_of_joined_names offline ["path"; "size"; "session_id"]).
  - discriminate.
  - intros n Hn. repeat (apply elem_of_cons in Hn as [->|Hn]; [reflexivity|]).
    by apply elem_of_nil in Hn.
  - intros n Hn. repeat (apply elem_of_cons in Hn as [->|Hn]; [reflexivity|]).
    by apply elem_of_nil in Hn.
  - reflexivity.
Defined.

(** What a local path contributes to the enumeration. *)
Lemma assets_gen_local (C : CliEnv) (metadata : metadata_mode)
    (recursive : bool) (paths : list string) :
  (∀ p, p ∈ paths → is_url C p = false) →
  assets_gen C metadata recursive paths
  = (flat_map
       (fun p => APath p
                 :: (if recursive then map APath (find_nwb_files C p) else []))
       paths, None).
Proof.
  induction paths as [|p rest IH]; intros Hlocal; [done|].
  simpl. unfold assets_of_path.
  rewrite Hlocal by (apply elem_of_cons; by left).
  rewrite IH; [done|]. intros q Hq. apply Hlocal, elem_of_cons. by right.
Qed.

Lemma flat_map_paths_are_paths (C : CliEnv) (recursive : bool)
    (paths : list string) (a : asset) :
  a ∈ flat_map
        (fun p => APath p
                  :: (if recursive then map APath (find_nwb_files C p)
                      else []))
        paths →
  ∃ p, a = APath p.
Proof.
  intros Hin. apply list_elem_of_In, in_flat_map in Hin as (p & _ & Hin).
  apply list_elem_of_In in Hin.
  apply elem_of_cons in Hin as [->|Hin]; [by eexists|].
  destruct recursive; [|by apply elem_of_nil in Hin].
  apply list_elem_of_fmap in Hin as (q & -> & _). by eexists.
Qed.

Lemma ls_on_paths (E : LsEnv) (assets : list asset) (schema : option string)
    (use_fake_digest : bool) (fields : option (list string)) (fmt : format) :
  (∀ a, a ∈ assets → ∃ p, a = APath p) →
  unknown_fields E schema fields = ∅ →
  run_raised (ls E assets schema use_fake_digest fields fmt) = None
  ∧ length (emitted (run_state (ls E assets schema use_fake_digest fields fmt)))
    = length assets.
Proof.
  intros Hpaths Hknown. unfold ls. unfold unknown_fields in Hknown.
  rewrite Hknown. rewrite bool_decide_true by done. simpl.
  pose proof (ls_loop_paths E fmt (sink_fields fmt fields) schema
                use_fake_digest
                (async_keys E schema (sink_fields fmt fields)) assets
                {| emitted := []; errors := []; calls := [] |} Hpaths)
    as [Hnone Hl].
  destruct (ls_loop E fmt (sink_fields fmt fields) schema use_fake_digest
              _ assets _) as [st [e|]]; simpl in *; [done|].
  by split.
Qed.

(** Failures on local paths, over a whole run.  With known field names
    and only paths to list, [ls] ends normally with one record per path.
    A path whose cheap pass fails is, when the run is over, in the ledger
    under the type name of the exception, and its record, with the path
    and the counter at 1, is among the records emitted.  When [ls] runs
    the callbacks itself, a path whose callback lets an exception escape
    is in the ledger under that type name, and its record is emitted as
    the cheap pass left it with the counter at 1; and a path whose bulk
    extraction fails is in the ledger under the type name of that
    failure. *)
Theorem ls_path_failures_are_ledgered
    (E : LsEnv) (paths : list string) (schema : option string)
    (use_fake_digest : bool) (fields : option (list string)) (fmt : format) :
  unknown_fields E schema fields = ∅ →
  let run := ls E (map APath paths) schema use_fake_digest fields fmt in
  let fields' := sink_fields fmt fields in
  let keys := async_keys E schema fields in
  let final := errors (run_state run) in
  run_raised run = None
  ∧ length (emitted (run_state run)) = length paths
  ∧ (∀ p e, p ∈ paths → sized_record E fields' p = Raise e →
       ledger_lists final (exc_type e) (APath p)
       ∧ {| rec_entries := [("path", VStr p); ("errors", VInt 1)];
            rec_deferred := None |} ∈ emitted (run_state run))
  ∧ (fmt ≠ Pyout → keys ≠ [] →
     ∀ p rec1 e, p ∈ paths → sized_record E fields' p = Ret rec1 →
       (run_callback E (get_metadata_ls p keys false schema use_fake_digest)
          []).1.1 = Raise e →
       ledger_lists final (exc_type e) (APath p)
       ∧ {| rec_entries := dict_set rec1 "errors" (VInt 1);
            rec_deferred := None |} ∈ emitted (run_state run))
  ∧ (fmt ≠ Pyout → keys ≠ [] → keys ≠ ["nwb_version"] →
     ∀ p rec1 e, p ∈ paths → sized_record E fields' p = Ret rec1 →
       (fetch_record E
          (get_metadata_ls p keys false schema use_fake_digest)).1 = Raise e →
       ledger_lists final (exc_type e) (APath p)).
Proof.
  intros Hknown run fields' keys final.
  assert (∀ a, a ∈ map APath paths → ∃ p, a = APath p) as Hpaths.
  { intros a Ha. apply list_elem_of_fmap in Ha as (p & -> & _). by eexists. }
  destruct (ls_on_paths E (map APath paths) schema use_fake_digest fields fmt
              Hpaths Hknown) as [Hnone Hlen].
  split; [exact Hnone|]. split; [by rewrite length_map in Hlen|].
  assert (∀ p, p ∈ paths →
            ∃ st0,
              let st1 := (ls_step E fmt fields' schema use_fake_digest keys
                            (APath p) st0).1 in
              (∀ kind x, ledger_lists (errors st1) kind x →
                         ledger_lists final kind x)
              ∧ (∀ r, r ∈ emitted st1 → r ∈ emitted (run_state run)))
    as Hvisit.
  { intros p Hp. clear Hlen. revert Hnone. unfold final, run, ls.
    unfold unknown_fields in Hknown. rewrite Hknown.
    rewrite bool_decide_true by done. simpl.
    rewrite (async_keys_sink E fmt schema fields). fold keys. fold fields'.
    pose proof (ls_loop_visits E fmt fields' schema use_fake_digest keys
                  (map APath paths)
                  {| emitted := []; errors := []; calls := [] |} (APath p))
      as Hv.
    destruct (ls_loop E fmt fields' schema use_fake_digest keys
                (map APath paths) _) as [st [e|]]; simpl in *; [done|].
    intros _. destruct Hv as (st0 & _ & Hl & Hr);
      [by apply list_elem_of_fmap_2 | done |].
    by exists st0. }
  split.
  { intros p e Hp Hs. destruct (Hvisit p Hp) as (st0 & Hl & Hr).
    simpl in Hl, Hr.
    rewrite (ls_step_stat_failure E fmt fields' schema use_fake_digest keys
               p e st0 Hs) in Hl, Hr. simpl in Hl, Hr.
    split; [apply Hl, ledger_append_lists|].
    apply Hr, elem_of_app. right. by apply list_elem_of_singleton. }
  split.
  { intros Hfmt Hk p rec1 e Hp Hs Hcb.
    destruct (Hvisit p Hp) as (st0 & Hl & Hr). simpl in Hl, Hr.
    rewrite <- (proj1 (run_callback_indep E _ (errors st0))) in Hcb.
    destruct (run_callback E
                (get_metadata_ls p keys false schema use_fake_digest)
                (errors st0)) as [[r errors1] cs] eqn:Hrun.
    simpl in Hcb. subst r.
    rewrite (ls_step_callback_escape E fmt fields' schema use_fake_digest
               keys p e st0 rec1 errors1 cs Hfmt Hk Hs Hrun) in Hl, Hr.
    simpl in Hl, Hr.
    split; [apply Hl, ledger_append_lists|].
    apply Hr, elem_of_app. right. by apply list_elem_of_singleton. }
  intros Hfmt Hk Hnv p rec1 e Hp Hs Hf.
  destruct (Hvisit p Hp) as (st0 & Hl & _). simpl in Hl. apply Hl.
  pose proof (run_callback_ledgers_bulk_failure E
                (get_metadata_ls p keys false schema use_fake_digest) e
                (errors st0) Hnv Hf) as Hb.
  destruct (ls_step_path_outcomes E fmt fields' schema use_fake_digest keys
              p st0)
    as [(e' & Hs' & Hstep) | [(rec2 & Hs' & Hk' & Hstep)
       | [(rec2 & Hs' & Hk' & Hf' & Hstep)
       | [(rec2 & cb_res & errors1 & cs & Hs' & Hk' & Hf' & Hcb & Hstep)
       | (rec2 & e' & errors1 & cs & Hs' & Hk' & Hf' & Hcb & Hstep)]]]];
    try congruence; rewrite Hstep; simpl; rewrite Hcb in Hb; simpl in Hb.
  - done.
  - by apply ledger_append_keeps.
Qed.

Lemma ls_path_failures_are_ledgered_witness :
  let run := ls one_missing_file (map APath ["empty.nwb"; "missing.nwb"])
               None false (Some ["path"; "size"]) Json in
  run_raised run = None
  ∧ ledger_lists (errors (run_state run)) "FileNotFoundError"
      (APath "missing.nwb").
Proof.
  assert (unknown_fields one_missing_file None (Some ["path"; "size"]) = ∅)
    as Hknown by compute_done.
  destruct (ls_path_failures_are_ledgered one_missing_file
              ["empty.nwb"; "missing.nwb"] None false (Some ["path"; "size"])
              Json Hknown) as (Hnone & _ & Hstat & _).
  split; [exact Hnone|].
  refine (proj1 (Hstat "missing.nwb"
                   (Exc "FileNotFoundError"
                      "[Errno 2] No such file or directory: 'missing.nwb'")
                   _ eq_refl)).
  apply elem_of_cons. right. apply elem_of_cons. by left.
Defined.

(** Listing local paths, from the command line to the sink.  When no path
    is a URL and the requested names are known, the command prints
    nothing of its own, never raises, and emits exactly one record for
    every path given and, with [--recursive], for every file found under
    it, whatever fails on the way. *)
Theorem ls_command_on_local_paths
    (E : LsEnv) (C : CliEnv) (paths : list string) (schema : option string)
    (metadata : metadata_mode) (use_fake_digest : bool)
    (fields : option string) (fmt : format_option) (recursive : bool)
    (fs : option (list string)) :
  (∀ p, p ∈ paths → is_url C p = false) →
  parse_fields C fields = Fields fs →
  unknown_fields E schema fs = ∅ →
  let run := ls_command E C paths schema metadata use_fake_digest fields fmt
               recursive in
  printed run = []
  ∧ run_raised (loop_run run) = None
  ∧ length (emitted (run_state (loop_run run)))
    = length paths
      + (if recursive
         then list_sum (map (fun p => length (find_nwb_files C p)) paths)
         else 0).
Proof.
  intros Hlocal Hparse Hknown run. unfold run, ls_command.
  rewrite Hparse, (assets_gen_local C metadata recursive paths Hlocal).
  rewrite Hknown, bool_decide_true by done.
  destruct (ls_on_paths E _ schema use_fake_digest fs
              (resolve_format C fmt paths recursive)
              (flat_map_paths_are_paths C recursive paths) Hknown)
    as [Hnone Hlen].
  simpl. rewrite Hnone. split; [done|]. split; [done|].
  rewrite Hlen. clear. induction paths as [|p rest IH]; [by destruct recursive|].
  simpl. rewrite length_app, IH.
  destruct recursive; simpl; [rewrite length_map|]; lia.
Qed.

Lemma ls_command_on_local_paths_witness :
  let run := ls_command one_missing_file offline ["data"; "missing.nwb"] None
               MetaApi false (Some "path,size") Auto true in
  run_raised (loop_run run) = None
  ∧ length (emitted (run_state (loop_run run))) = 4.
Proof.
  assert (∀ p, p ∈ ["data"; "missing.nwb"] → is_url offline p = false)
    as Hlocal.
  { intros p Hp. repeat (apply elem_of_cons in Hp as [->|Hp]; [reflexivity|]).
    by apply elem_of_nil in Hp. }
  assert (unknown_fields one_missing_file None (Some ["path"; "size"]) = ∅)
    as Hknown by compute_done.
  destruct (ls_command_on_local_paths one_missing_file offline
              ["data"; "missing.nwb"] None MetaApi false (Some "path,size")
              Auto true (Some ["path"; "size"]) Hlocal eq_refl Hknown)
    as (_ & Hnone & Hlen).
  split; [exact Hnone | exact Hlen].
Defined.

Lemma assets_gen_stops_at (C : CliEnv) (metadata : metadata_mode)
    (recursive : bool) (before after : list string) (url : string) (e : exc) :
  (∀ p, p ∈ before → is_url C p = false) →
  is_url C url = true → navigate C url = Raise e →
  assets_gen C metadata recursive (before ++ url :: after)
  = (flat_map
       (fun p => APath p
                 :: (if recursive then map APath (find_nwb_files C p) else []))
       before, Some e).
Proof.
  intros Hlocal Hurl Hnav. induction before as [|p rest IH]; simpl.
  - unfold assets_of_path. by rewrite Hurl, Hnav.
  - unfold assets_of_path at 1.
    rewrite Hlocal by (apply elem_of_cons; by left).
    rewrite IH; [done|]. intros q Hq. apply Hlocal, elem_of_cons. by right.
Qed.

(** A URL that cannot be navigated ends the listing where it stands: the
    local paths given before it have each had their record emitted (and
    those of the files found under them), the paths after it are not
    looked at, the exception of the navigation leaves [ls] as the
    decorator maps it, and no summary is produced, even when the ledger is
    not empty. *)
Theorem ls_command_stops_at_unreachable_url
    (E : LsEnv) (C : CliEnv) (before after : list string) (url : string)
    (schema : option string) (metadata : metadata_mode)
    (use_fake_digest : bool) (fields : option string) (fmt : format_option)
    (recursive : bool) (fs : option (list string)) (e : exc) :
  (∀ p, p ∈ before → is_url C p = false) →
  is_url C url = true → navigate C url = Raise e →
  parse_fields C fields = Fields fs →
  unknown_fields E schema fs = ∅ →
  let run := ls_command E C (before ++ url :: after) schema metadata
               use_fake_digest fields fmt recursive in
  run_raised (loop_run run) = Some (map_to_click_exceptions E e)
  ∧ run_summary (loop_run run) = None
  ∧ length (emitted (run_state (loop_run run)))
    = length before
      + (if recursive
         then list_sum (map (fun p => length (find_nwb_files C p)) before)
         else 0).
Proof.
  intros Hlocal Hurl Hnav Hparse Hknown run. unfold run, ls_command.
  rewrite Hparse,
    (assets_gen_stops_at C metadata recursive before after url e
       Hlocal Hurl Hnav).
  destruct (ls_on_paths E _ schema use_fake_digest fs
              (resolve_format C fmt (before ++ url :: after) recursive)
              (flat_map_paths_are_paths C recursive before) Hknown)
    as [Hnone Hlen].
  simpl. rewrite Hnone. simpl. split; [done|]. split; [done|].
  rewrite Hlen. clear. induction before as [|p rest IH];
    [by destruct recursive|].
  simpl. rewrite length_app, IH.
  destruct recursive; simpl; [rewrite length_map|]; lia.
Qed.

Lemma ls_command_stops_at_unreachable_url_witness :
  let run := ls_command one_missing_file offline
               ["missing.nwb"; "https://dandiarchive.org/dandiset/000027";
                "empty.nwb"]
               None MetaApi false None (Given Json) false in
  run_raised (loop_run run)
  = Some (Exc "ClickException" "archive unreachable")
  ∧ run_summary (loop_run run) = None
  ∧ length (emitted (run_state (loop_run run))) = 1.
Proof.
  assert (∀ p, p ∈ ["missing.nwb"] → is_url offline p = false) as Hlocal.
  { intros p Hp. apply elem_of_cons in Hp as [->|Hp]; [reflexivity|].
    by apply elem_of_nil in Hp. }
  exact (ls_command_stops_at_unreachable_url one_missing_file offline
           ["missing.nwb"] ["empty.nwb"]
           "https://dandiarchive.org/dandiset/000027" None MetaApi false None
           (Given Json) false None _ Hlocal eq_refl eq_refl eq_refl eq_refl).
Defined.

(** Why an enumeration ends early. *)
Lemma remote_asset_records_stop (metadata : metadata_mode)
    (assets : list RemoteAsset) (e : exc) :
  (remote_asset_records metadata assets).2 = Some e →
  metadata ≠ MetaApi ∧ ∃ a, a ∈ assets ∧ ra_raw_metadata a = Raise e.
Proof.
  induction assets as [|a rest IH]; simpl; [done|].
  destruct metadata; simpl.
  - destruct (remote_asset_records MetaApi rest) as [ys stop] eqn:Hr.
    simpl in *. intros Hs. by destruct (IH Hs) as [Hm _].
  - destruct (ra_raw_metadata a) as [raw|e'] eqn:Hraw; simpl.
    + destruct (remote_asset_records MetaAll rest) as [ys stop] eqn:Hr.
      simpl in *. intros Hs. destruct (IH Hs) as [_ (x & Hx & Hxe)].
      split; [done|]. exists x. split; [apply elem_of_cons; by right | done].
    + intros [= <-]. split; [done|]. exists a.
      split; [apply elem_of_cons; by left | done].
  - destruct (ra_raw_metadata a) as [raw|e'] eqn:Hraw; simpl.
    + destruct (remote_asset_records MetaAssets rest) as [ys stop] eqn:Hr.
      simpl in *. intros Hs. destruct (IH Hs) as [_ (x & Hx & Hxe)].
      split; [done|]. exists x. split; [apply elem_of_cons; by right | done].
    + intros [= <-]. split; [done|]. exists a.
      split; [apply elem_of_cons; by left | done].
Qed.

Lemma assets_of_path_stop (C : CliEnv) (metadata : metadata_mode)
    (recursive : bool) (path : string) (e : exc) :
  (assets_of_path C metadata recursive path).2 = Some e →
  enumeration_fails C metadata path e.
Proof.
  unfold assets_of_path, enumeration_fails.
  destruct (is_url C path); [|done].
  destruct (navigate C path) as [nav|e'] eqn:Hnav; simpl.
  2:{ intros [= <-]. split; [done|]. by left. }
  intros Hs. split; [done|]. right. exists nav. split; [done|].
  destruct (nav_is_dandiset_url nav) eqn:Hd.
  - destruct (rd_raw_metadata (nav_dandiset nav)) as [raw|e'] eqn:Hraw.
    + simpl in Hs.
      destruct (remote_asset_records metadata (nav_assets nav))
        as [ys stop] eqn:Hr.
      destruct recursive; simpl in Hs; [|done].
      right. apply remote_asset_records_stop. by rewrite Hr.
    + simpl in Hs. injection Hs as <-. by left.
  - simpl in Hs.
    destruct (remote_asset_records metadata (nav_assets nav))
      as [ys stop] eqn:Hr.
    simpl in Hs. right. apply remote_asset_records_stop. by rewrite Hr.
Qed.

Lemma assets_gen_stop (C : CliEnv) (metadata : metadata_mode)
    (recursive : bool) (paths : list string) (e : exc) :
  (assets_gen C metadata recursive paths).2 = Some e →
  ∃ url, url ∈ paths ∧ enumeration_fails C metadata url e.
Proof.
  induction paths as [|p rest IH]; simpl; [done|].
  destruct (assets_of_path C metadata recursive p) as [ys [e'|]] eqn:Hp.
  - simpl. intros [= <-]. exists p. split; [apply elem_of_cons; by left|].
    apply (assets_of_path_stop C metadata recursive). by rewrite Hp.
  - destruct (assets_gen C metadata recursive rest) as [zs stop].
    simpl in *. intros Hs. destruct (IH Hs) as (url & Hin & Hf).
    exists url. split; [apply elem_of_cons; by right | done].
Qed.

(** [ls] raises in three situations only, and what leaves it is what the
    decorator makes of the exception of the body.  A requested field is
    unknown: [UsageError], before anything is enumerated.  A remote
    resource cannot be enumerated: the exception of the navigation, or of
    the reading of raw metadata.  A schema is requested and a ready record
    carries another [schemaVersion]: [NotImplementedError] for that
    record.  Nothing that happens to a local path makes [ls] raise. *)
Theorem ls_raises_only_for
    (E : LsEnv) (C : CliEnv) (paths : list string) (schema : option string)
    (metadata : metadata_mode) (use_fake_digest : bool)
    (fields : option string) (fmt : format_option) (recursive : bool)
    (e : exc) :
  run_raised
    (loop_run (ls_command E C paths schema metadata use_fake_digest fields
                 fmt recursive)) = Some e →
  ∃ e0, e = map_to_click_exceptions E e0
    ∧ ((exc_type e0 = "UsageError"
        ∧ ∃ F f, parse_fields C fields = Fields (Some F)
            ∧ f ∈ F ∧ f ∉ all_fields E schema)
       ∨ (∃ url, url ∈ paths ∧ enumeration_fails C metadata url e0)
       ∨ (exc_type e0 = "NotImplementedError"
          ∧ ∃ r s, ARecord r ∈ (assets_gen C metadata recursive paths).1
              ∧ schema = Some s
              ∧ py_eq_str (default VNone (dict_get "schemaVersion" r)) s
                = false
              ∧ e0 = conversion_not_implemented
                       (default VNone (dict_get "schemaVersion" r)) s)).
Proof.
  unfold ls_command.
  destruct (parse_fields C fields) as [|fs] eqn:Hparse; [done|].
  pose proof (assets_gen_stop C metadata recursive paths) as Hstop.
  destruct (assets_gen C metadata recursive paths) as [assets stop].
  simpl in *.
  destruct (run_raised (ls E assets schema use_fake_digest fs _))
    as [e'|] eqn:Hr.
  - pose proof Hr as Hcause. rewrite Hr. intros [= <-].
    apply ls_raise_cause
      in Hcause as [[Hu ->]|[_ (r & s & Hin & Hs & Heq & ->)]].
    + eexists. split; [reflexivity|]. left. split; [done|].
      destruct fs as [F|]; [|done].
      apply set_choose_L in Hu as [f Hf]. exists F, f.
      split; [done|]. unfold unknown_fields in Hf. set_solver.
    + eexists. split; [reflexivity|]. right. right. split; [done|].
      by exists r, s.
  - destruct stop as [e0|]; simpl; [|by rewrite Hr].
    intros [= <-]. exists e0. split; [done|]. right. left. by apply Hstop.
Qed.

Lemma ls_raises_only_for_witness :
  run_raised
    (loop_run
       (ls_command one_missing_file offline
          ["missing.nwb"; "https://dandiarchive.org/dandiset/000027"]
          None MetaApi false None (Given Json) false))
  = Some (Exc "ClickException" "archive unreachable")
  ∧ ∃ e0, Exc "ClickException" "archive unreachable"
          = map_to_click_exceptions one_missing_file e0.
Proof.
  assert (run_raised
            (loop_run
               (ls_command one_missing_file offline
                  ["missing.nwb"; "https://dandiarchive.org/dandiset/000027"]
                  None MetaApi false None (Given Json) false))
          = Some (Exc "ClickException" "archive unreachable")) as Hr
    by (vm_compute; reflexivity).
  split; [exact Hr|].
  destruct (ls_raises_only_for _ _ _ _ _ _ _ _ _ _ Hr) as (e0 & He & _).
  by exists e0.
Defined.

(** An unknown field name is rejected before anything is done: the known
    fields are printed and [ls] raises what the decorator makes of a
    [UsageError] whose text lists the unknown names, each once and no
    other; no path or URL is looked at, nothing is emitted or ledgered, no
    collaborator is called and there is no summary. *)
Theorem ls_unknown_field_rejected
    (E : LsEnv) (C : CliEnv) (paths : list string) (schema : option string)
    (metadata : metadata_mode) (use_fake_digest : bool) (fields : string)
    (fmt : format_option) (recursive : bool) (F : list string) (f : string) :
  parse_fields C (Some fields) = Fields (Some F) →
  f ∈ F → f ∉ all_fields E schema →
  let run := ls_command E C paths schema metadata use_fake_digest
               (Some fields) fmt recursive in
  printed run
  = "Known fields:"
    :: map (known_field_line (PYOUT_SHORT_NAMES C)) (all_fields_sorted E schema)
  ∧ run_state (loop_run run) = {| emitted := []; errors := []; calls := [] |}
  ∧ run_summary (loop_run run) = None
  ∧ ∃ names,
      run_raised (loop_run run)
      = Some (map_to_click_exceptions E
                (Exc "UsageError"
                   ("Following fields are not known: "
                    +:+ String.concat ", " names)))
      ∧ NoDup names
      ∧ ∀ n, n ∈ names ↔ n ∈ F ∧ n ∉ all_fields E schema.
Proof.
  intros Hparse Hin Hnot run.
  assert (unknown_fields E schema (Some F) ≠ ∅) as Hu.
  { unfold unknown_fields. set_solver. }
  unfold run, ls_command. rewrite Hparse.
  destruct (assets_gen C metadata recursive paths) as [assets stop].
  rewrite ls_unknown_fields by done. simpl.
  rewrite bool_decide_false by done.
  split; [done|]. split; [done|]. split; [done|].
  exists (elements (unknown_fields E schema (Some F))).
  split; [done|]. split; [apply NoDup_elements|].
  intros n. rewrite elem_of_elements. unfold unknown_fields. set_solver.
Qed.

Lemma ls_unknown_field_rejected_witness :
  let run := ls_command one_missing_file offline
               ["https://dandiarchive.org/dandiset/000027"] None MetaApi
               false (Some "path,colour") Auto false in
  run_state (loop_run run) = {| emitted := []; errors := []; calls := [] |}
  ∧ run_raised (loop_run run)
    = Some (Exc "ClickException" "Following fields are not known: colour").
Proof.
  destruct (ls_unknown_field_rejected one_missing_file offline
              ["https://dandiarchive.org/dandiset/000027"] None MetaApi
              false "path,colour" Auto false ["path"; "colour"] "colour")
    as (_ & Hst & _ & _).
  - reflexivity.
  - apply elem_of_cons. right. apply elem_of_cons. by left.
  - unfold all_fields. rewrite elem_of_list_to_set. simpl.
    intros Hin. repeat (apply elem_of_cons in Hin as [Hin|Hin];
                        [discriminate|]).
    by apply elem_of_nil in Hin.
  - split; [exact Hst|]. vm_compute. reflexivity.
Defined.

Lemma fold_dict_set_get_last (items d : pydict) (k : string) (v : pyval) :
  NoDup (dict_keys items) → (k, v) ∈ items →
  dict_get k (fold_left (fun o i => dict_set o (fst i) (snd i)) items d)
  = Some v.
Proof.
  revert d. induction items as [|[f x] items IH]; intros d Hnd Hin.
  - by apply elem_of_nil in Hin.
  - simpl in Hnd. apply NoDup_cons in Hnd as [Hf Hnd].
    apply elem_of_cons in Hin as [[= <- <-]|Hin]; simpl.
    + rewrite fold_dict_set_get_other; [apply dict_get_set_eq|].
      intros k' Hk' ->. done.
    + by apply IH.
Qed.

Lemma fold_dict_set_keys_from (items d : pydict) (k : string) :
  k ∈ dict_keys (fold_left (fun o i => dict_set o (fst i) (snd i)) items d) →
  k ∈ dict_keys d ∨ k ∈ dict_keys items.
Proof.
  revert d. induction items as [|[f x] items IH]; intros d Hk; [by left|].
  simpl in Hk. apply IH in Hk as [Hk|Hk].
  - apply dict_keys_set in Hk as [->|Hk]; [|by left].
    right. apply elem_of_cons. by left.
  - right. apply elem_of_cons. by right.
Qed.

(** The record yielded for a dandiset.  It has every entry of the
    version's record, then [metadata] with the raw metadata, which takes
    the place of a [metadata] entry of the version; [path] is the
    identifier of the dandiset unless the version's record has a [path] of
    its own, which then wins.  It has no other key. *)
Theorem dandiset_record_entries (d : RemoteDandiset) (raw : pyval) :
  dict_wf (rd_version_json_dict d) →
  dict_get "metadata" (dandiset_record d raw) = Some raw
  ∧ (∀ k v, (k, v) ∈ rd_version_json_dict d → k ≠ "metadata" →
            dict_get k (dandiset_record d raw) = Some v)
  ∧ (dict_get "path" (rd_version_json_dict d) = None →
     dict_get "path" (dandiset_record d raw) = Some (VStr (rd_identifier d)))
  ∧ (∀ k, k ∈ dict_keys (dandiset_record d raw) →
          k = "path" ∨ k = "metadata" ∨ k ∈ dict_keys (rd_version_json_dict d)).
Proof.
  intros Hwf. unfold dandiset_record. split; [apply dict_get_set_eq|].
  split.
  { intros k v Hin Hk. rewrite dict_get_set_ne by done.
    by apply fold_dict_set_get_last. }
  split.
  { intros Hnone. rewrite dict_get_set_ne by done.
    rewrite fold_dict_set_get_other; [done|].
    intros k' Hk' ->. by apply dict_get_None in Hnone. }
  intros k Hk. apply dict_keys_set in Hk as [->|Hk]; [right; by left|].
  apply fold_dict_set_keys_from in Hk as [Hk|Hk]; [|right; by right].
  left. simpl in Hk. by apply list_elem_of_singleton in Hk.
Qed.

Lemma dandiset_record_entries_witness :
  dict_get "path"
    (dandiset_record
       {| rd_identifier := "000027";
          rd_version_json_dict :=
            [("version", VStr "draft"); ("name", VStr "Test")];
          rd_raw_metadata := Ret (VDict []) |} (VDict []))
  = Some (VStr "000027").
Proof.
  assert (dict_wf [("version", VStr "draft"); ("name", VStr "Test")]) as Hwf.
  { unfold dict_wf. simpl. compute_done. }
  destruct (dandiset_record_entries
              {| rd_identifier := "000027";
                 rd_version_json_dict :=
                   [("version", VStr "draft"); ("name", VStr "Test")];
                 rd_raw_metadata := Ret (VDict []) |} (VDict []) Hwf)
    as (_ & _ & Hpath & _).
  by apply Hpath.
Defined.
